(** * VILS: the binary-search workflow of the Version Issue Locator System

    A shallow embedding of the backend's search engine, token handling and
    request handlers, and the proofs of their specified properties:

    - [services/binary_search.py]       (module [BinarySearch])
    - [auth/security.py]                (module [Security])
    - [auth/dependencies.py]            (module [Dependencies])
    - [websocket.py], the token check   (module [WebSocket])
    - [models/*.py], the tables         (one module per table, [Models])
    - [api/auth.py], [api/projects.py]  (modules [AuthApi], [ProjectsApi])
    - [api/tasks.py]                    (module [TasksApi])
    - [api/builds.py]                   (modules [BuildServices], [BuildsApi])
    - all writing routes together       (module [Api])

    Conventions.
    - Python [int] is [Z].  A Python [float] is a binary64 number (module
      [Float]): [(1 - r / total) * 100] of [calculate_progress] is
      evaluated with the three roundings and the overflow of the
      interpreter.  The other float expressions of the engine,
      [int((bad - good) / 11.0 * i)] and [int(i * (len / 10.0))] of
      [generate_candidates], are evaluated in exact rationals [Q]: for
      operands below 2^48 the binary64 result has the same integer part as
      the exact value (which is an integer or at least 1/11 away from one,
      while the rounding error is below 2^-4), so [int(...)] agrees;
      statements that depend on the difference are made for index gaps
      below 2^48.
    - A UUID is represented by its canonical text, so [str(x.id)] is [x.id].
    - Exceptions are values of [exn]; a computation that may raise returns
      [result A].
    - A table is the list of its rows in storage order; [query(...).first()]
      is the first matching row. *)

From Stdlib Require Import ZArith QArith Qminmax Qround Qpower List Sorted Ascii
  String Bool.
From Stdlib Require Import Lia Lqa.
From stdpp Require Import base tactics decidable option list strings.
From stdpp Require Import pretty gmap.

Close Scope Q_scope.
Local Open Scope string_scope.
Local Open Scope list_scope.
Local Open Scope Z_scope.

(** ** Python runtime: exceptions, loops, indexing *)

Inductive exn : Type :=
| ValueError (msg : string)
| IndexError
| TypeError
| JWTError
| AttributeError
| StopIteration
| IntegrityError (constraint : string)
| ServiceError (msg : string)
| HTTPException (status_code : Z) (detail : string)
                (headers : list (string * string))
| ArgumentError
| OverflowError
| ZeroDivisionError.

(** [str(e)] *)
Definition str_exn (e : exn) : string :=
  match e with
  | ValueError msg => msg
  | ServiceError msg => msg
  | IntegrityError constraint => constraint
  | HTTPException _ detail _ => detail
  | _ => ""
  end.

Inductive result (A : Type) : Type :=
| Ok (a : A)
| Raise (e : exn).
Arguments Ok {A} a.
Arguments Raise {A} e.

#[export] Instance result_ret : MRet result := fun A a => Ok a.
#[export] Instance result_bind : MBind result := fun A B f m =>
  match m with
  | Ok a => f a
  | Raise e => Raise e
  end.

#[export] Instance result_fmap : FMap result := fun A B f m =>
  match m with
  | Ok a => Ok (f a)
  | Raise e => Raise e
  end.

(** The state of a [for] loop after one pass through its body. *)
Inductive flow (S : Type) : Type :=
| Next (s : S)
| Break (s : S).
Arguments Next {S} s.
Arguments Break {S} s.

(** [for x in xs: body] over a loop state [s]; [Break] leaves the loop. *)
Fixpoint for_in {A S : Type} (xs : list A) (body : A -> S -> result (flow S))
    (s : S) : result S :=
  match xs with
  | [] => Ok s
  | x :: rest =>
      match body x s with
      | Ok (Next s') => for_in rest body s'
      | Ok (Break s') => Ok s'
      | Raise e => Raise e
      end
  end.

(** [range(a, b)] *)
Definition range (a b : Z) : list Z := seqZ a (b - a).

(** [l[i]] with Python's negative indices. *)
Definition py_getitem {A : Type} (l : list A) (i : Z) : result A :=
  let n := Z.of_nat (length l) in
  let j := if i <? 0 then n + i else i in
  if (0 <=? j) && (j <? n) then
    match l !! Z.to_nat j with
    | Some x => Ok x
    | None => Raise IndexError
    end
  else Raise IndexError.

(** [int(x)] on a float: truncation toward zero. *)
Definition py_int (x : Q) : Z := Z.quot (Qnum x) (Zpos (Qden x)).

(** ** Python runtime: floats

    A Python [float] is an IEEE 754 binary64 number: a finite value is a
    rational [m * 2^e] with [|m| < 2^53] and [-1074 <= e <= 971], and every
    operation returns the exact result rounded to the nearest such value,
    ties to the even significand.  The two zeros are not told apart (no
    expression of the program can tell them apart). *)

Module Float.
Local Open Scope Q_scope.

Inductive float : Type :=
| Finite (q : Q)
| PosInf
| NegInf
| NaN.

(** [floor(log2 x)] for a positive [x]. *)
Definition Qlog2 (x : Q) : Z :=
  let k := (Z.log2 (Qnum x) - Z.log2 (Zpos (Qden x)))%Z in
  if Qle_bool (2 ^ k) x then k else (k - 1)%Z.

(** Rounding to the nearest integer, ties to the even one. *)
Definition round_half_even (x : Q) : Z :=
  let f := Qfloor x in
  match Qcompare (x - inject_Z f) (1 # 2) with
  | Lt => f
  | Gt => (f + 1)%Z
  | Eq => if Z.even f then f else (f + 1)%Z
  end.

(** The exponent of the last bit of a positive [x]: 53 significant bits,
    and no exponent below that of the subnormal numbers. *)
Definition exponent (x : Q) : Z := Z.max (Qlog2 x - 52) (-1074).

Definition round_pos (x : Q) : Q :=
  inject_Z (round_half_even (x / 2 ^ exponent x)) * 2 ^ exponent x.

Definition round_Q (x : Q) : Q :=
  match Qcompare x 0 with
  | Eq => 0
  | Gt => round_pos x
  | Lt => - round_pos (- x)
  end.

(** The binary64 number nearest to [x]; a value that rounds to [2^1024] or
    beyond overflows. *)
Definition round64 (x : Q) : float :=
  let y := round_Q x in
  if Qle_bool (2 ^ 1024) y then PosInf
  else if Qle_bool y (- 2 ^ 1024) then NegInf
  else Finite (Qred y).

Definition sign (a : float) : comparison :=
  match a with
  | Finite x => Qcompare x 0
  | PosInf => Gt
  | NegInf => Lt
  | NaN => Eq
  end.

(** [a - b] *)
Definition fsub (a b : float) : float :=
  match a, b with
  | Finite x, Finite y => round64 (x - y)
  | NaN, _ | _, NaN => NaN
  | PosInf, PosInf | NegInf, NegInf => NaN
  | PosInf, _ | _, NegInf => PosInf
  | NegInf, _ | _, PosInf => NegInf
  end.

(** [a * b] *)
Definition fmul (a b : float) : float :=
  match a, b with
  | Finite x, Finite y => round64 (x * y)
  | NaN, _ | _, NaN => NaN
  | _, _ =>
      match sign a, sign b with
      | Eq, _ | _, Eq => NaN
      | Gt, Gt | Lt, Lt => PosInf
      | _, _ => NegInf
      end
  end.

(** [a < b] and [a <= b]; a comparison with NaN is false. *)
Definition fltb (a b : float) : bool :=
  match a, b with
  | Finite x, Finite y => negb (Qle_bool y x)
  | NaN, _ | _, NaN => false
  | _, NegInf | PosInf, _ => false
  | _, _ => true
  end.

Definition fleb (a b : float) : bool :=
  match a, b with
  | Finite x, Finite y => Qle_bool x y
  | NaN, _ | _, NaN => false
  | NegInf, _ | _, PosInf => true
  | _, _ => false
  end.

(** [max(a, b)] and [min(a, b)]: the second argument is taken only when it
    is strictly beyond the first. *)
Definition py_max (a b : float) : float := if fltb a b then b else a.
Definition py_min (a b : float) : float := if fltb b a then b else a.

(** [a / b] on two [int]s: the exact quotient, rounded once. *)
Definition py_truediv (a b : Z) : result float :=
  if (b =? 0)%Z then Raise ZeroDivisionError
  else
    match round64 (inject_Z a / inject_Z b) with
    | Finite q => Ok (Finite q)
    | _ => Raise OverflowError
    end.

End Float.

Definition uuid : Type := string.

(** ** models/project.py: Tag *)

Module Tag.
Record t : Type := mk {
  id : uuid;
  project_id : uuid;
  branch_id : uuid;
  name : string;
  commit_hash : string;
  tag_date : option Z;
  author_email : option string;
  message : option string;
  sequence_number : option Z
}.
End Tag.

(** ** services/binary_search.py *)

Module TagInfo.
Record t : Type := mk {
  id : string;
  name : string;
  sequence_number : Z;
  commit_hash : string
}.
End TagInfo.

Module SearchCandidate.
Record t : Type := mk {
  position : Z;
  tag : TagInfo.t;
  selected : bool
}.
End SearchCandidate.

Module BinarySearchState.
Record t : Type := mk {
  good_index : Z;
  bad_index : Z;
  current_iteration : Z;
  tested_tags : gmap string string;
  total_tags : Z
}.
End BinarySearchState.

Module BinarySearch.

(** [x.sequence_number or 0] *)
Definition seq_or_0 (s : option Z) : Z := default 0 s.

(** The [TagInfo(...)] built from a tag at four places of the engine. *)
Definition tag_info (tag : Tag.t) : TagInfo.t :=
  TagInfo.mk (Tag.id tag) (Tag.name tag)
             (seq_or_0 (Tag.sequence_number tag)) (Tag.commit_hash tag).

(** [sorted(xs, key=...)] and [xs.sort(key=...)]: a stable sort. *)
Fixpoint insert_by {A : Type} (key : A -> Z) (x : A) (l : list A) : list A :=
  match l with
  | [] => [x]
  | y :: rest =>
      if key x <=? key y then x :: y :: rest
      else y :: insert_by key x rest
  end.

Definition sort_by {A : Type} (key : A -> Z) (l : list A) : list A :=
  foldr (insert_by key) [] l.

Record BinarySearchEngine : Type := mkEngine {
  tags : list Tag.t;
  tag_map : gmap string TagInfo.t
}.

(** [BinarySearchEngine.__init__] *)
Definition init (tags0 : list Tag.t) : BinarySearchEngine :=
  let sorted := sort_by (fun x => seq_or_0 (Tag.sequence_number x)) tags0 in
  mkEngine sorted
    (foldl (fun m tag => <[Tag.id tag := tag_info tag]> m) ∅ sorted).

Definition get_tag_info (self : BinarySearchEngine) (tag_id : string)
    : option TagInfo.t :=
  tag_map self !! tag_id.

(** [find_tag_index]: the first [i] with [str(tags[i].id) == tag_id]. *)
Fixpoint find_index_from (l : list Tag.t) (tag_id : string) (i : Z)
    : option Z :=
  match l with
  | [] => None
  | tag :: rest =>
      if bool_decide (Tag.id tag = tag_id) then Some i
      else find_index_from rest tag_id (i + 1)
  end.

Definition find_tag_index (self : BinarySearchEngine) (tag_id : string)
    : option Z :=
  find_index_from (tags self) tag_id 0.

(** [candidates.append(SearchCandidate(position=i, tag=TagInfo(tags[i])))] *)
Definition append_candidate (self : BinarySearchEngine) (i : Z)
    (candidates : list SearchCandidate.t) : result (list SearchCandidate.t) :=
  tag ← py_getitem (tags self) i;
  mret (candidates ++ [SearchCandidate.mk i (tag_info tag) false]).

Definition has_position (position : Z) (candidates : list SearchCandidate.t)
    : bool :=
  existsb (fun c => SearchCandidate.position c =? position) candidates.

(** [generate_candidates]; the two float quotients are exact rationals
    (see the conventions: the interpreter agrees for indices less than
    2^48 apart, and raises OverflowError beyond the floats). *)
Definition generate_candidates (self : BinarySearchEngine)
    (good_index bad_index : Z) : result (list SearchCandidate.t) :=
  if bad_index <=? good_index then
    Raise (ValueError "Bad index must be greater than good index")
  else
    let range_size := bad_index - good_index - 1 in
    if range_size <=? 10 then
      for_in (range (good_index + 1) bad_index)
        (fun i candidates => Next <$> append_candidate self i candidates) []
    else
      let interval := (inject_Z (bad_index - good_index) / 11)%Q in
      candidates ← for_in (range 1 11)
        (fun i candidates =>
           let position := good_index + py_int (interval * inject_Z i)%Q in
           if (position <? bad_index) && (good_index <? position) then
             if negb (has_position position candidates) then
               Next <$> append_candidate self position candidates
             else Ok (Next candidates)
           else Ok (Next candidates)) [];
      let candidates := sort_by SearchCandidate.position candidates in
      if (Z.of_nat (length candidates) <? 10) && (10 <? range_size) then
        let positions_used : gset Z :=
          list_to_set (SearchCandidate.position <$> candidates) in
        candidates ← for_in (range (good_index + 1) bad_index)
          (fun i candidates =>
             if 10 <=? Z.of_nat (length candidates) then
               Ok (Break candidates)
             else if bool_decide (i ∉ positions_used) then
               Next <$> append_candidate self i candidates
             else Ok (Next candidates)) candidates;
        let candidates := sort_by SearchCandidate.position candidates in
        if 10 <? Z.of_nat (length candidates) then
          let step := (inject_Z (Z.of_nat (length candidates)) / 10)%Q in
          for_in (range 0 10)
            (fun i selected_candidates =>
               let idx := py_int (inject_Z i * step)%Q in
               c ← py_getitem candidates idx;
               mret (Next (selected_candidates ++ [c]))) []
        else Ok candidates
      else Ok candidates.

(** Vocabulary of the statements about [generate_candidates]:
    [i] addresses a tag of the engine's list (Python accepts the indices
    from [-len] to [len - 1]); a candidate carries the tag found at its
    position; the position computed for the [i]-th division point. *)
Definition addressable (self : BinarySearchEngine) (i : Z) : Prop :=
  - Z.of_nat (length (tags self)) <= i < Z.of_nat (length (tags self)).

Definition candidate_at (self : BinarySearchEngine)
    (c : SearchCandidate.t) : Prop :=
  exists tag,
    py_getitem (tags self) (SearchCandidate.position c) = Ok tag
    /\ SearchCandidate.tag c = tag_info tag
    /\ SearchCandidate.selected c = false.

Definition division_position (good_index bad_index i : Z) : Z :=
  good_index + (bad_index - good_index) * i / 11.

(** [update_range]: the new bounds, and the state whose [tested_tags]
    dictionary has been updated in place.  [feedback] is the dictionary as
    its [items()] are enumerated. *)
Definition dict_update (d : gmap string string)
    (items : list (string * string)) : gmap string string :=
  foldl (fun m kv => <[kv.1 := kv.2]> m) d items.

Definition update_range (self : BinarySearchEngine)
    (state : BinarySearchState.t) (feedback : list (string * string))
    : (Z * Z) * BinarySearchState.t :=
  let state' :=
    BinarySearchState.mk
      (BinarySearchState.good_index state)
      (BinarySearchState.bad_index state)
      (BinarySearchState.current_iteration state)
      (dict_update (BinarySearchState.tested_tags state) feedback)
      (BinarySearchState.total_tags state) in
  let new_good :=
    foldl (fun new_good '(tag_id, verdict) =>
             if bool_decide (verdict = "working") then
               match find_tag_index self tag_id with
               | Some tag_index => Z.max new_good tag_index
               | None => new_good
               end
             else new_good)
          (BinarySearchState.good_index state) feedback in
  let new_bad :=
    foldl (fun new_bad '(tag_id, verdict) =>
             if bool_decide (verdict = "broken") then
               match find_tag_index self tag_id with
               | Some tag_index => Z.min new_bad tag_index
               | None => new_bad
               end
             else new_bad)
          (BinarySearchState.bad_index state) feedback in
  ((new_good, new_bad), state').

Definition is_complete (good_index bad_index : Z) : bool :=
  bad_index - good_index =? 1.

Definition get_problematic_tag (self : BinarySearchEngine)
    (good_index bad_index : Z) : result (option TagInfo.t) :=
  if is_complete good_index bad_index then
    tag ← py_getitem (tags self) bad_index;
    mret (Some (tag_info tag))
  else Ok None.

Import Float.

(** [calculate_progress]; [current_range / total_tags] is true division of
    two [int]s, [1] and [100] are converted to [1.0] and [100.0]. *)
Definition calculate_progress (good_index bad_index total_tags : Z)
    : result Float.float :=
  if total_tags <=? 1 then Ok (Finite 100%Q)
  else
    let current_range := bad_index - good_index - 1 in
    if current_range <=? 0 then Ok (Finite 100%Q)
    else
      ratio ← py_truediv current_range total_tags;
      let progress := fmul (fsub (Finite 1%Q) ratio) (Finite 100%Q) in
      Ok (py_min (Finite 100%Q) (py_max (Finite 0%Q) progress)).

End BinarySearch.

(** ** auth/security.py *)

Module Security.

(** [config.settings], the fields the token code reads. *)
Record Settings : Type := mkSettings {
  secret_key : string;
  jwt_algorithm : string;
  access_token_expire_minutes : Z;
  refresh_token_expire_days : Z
}.

(** The claims of a token: [sub], [user_id], [scopes], [exp], [type]. *)
Record Claims : Type := mkClaims {
  sub : option string;
  user_id : option string;
  scopes : option (list string);
  exp : option Z;
  type : option string
}.

(** A symbolic account of the signed tokens of the [jose] library: a
    token is either text that is no signed token at all, or claims signed
    under a key with an algorithm.  A signature verifies exactly when the
    verifier's key is the signing key. *)
Inductive token : Type :=
| Malformed (text : string)
| Signed (alg : string) (key : string) (claims : Claims).

(** The token was signed under the configured key and algorithm. *)
Definition well_signed (settings : Settings) (tok : token) : Prop :=
  exists claims,
    tok = Signed (jwt_algorithm settings) (secret_key settings) claims.

Record TokenData : Type := mkTokenData {
  username : option string;
  td_user_id : option string;
  td_scopes : list string
}.

(** [jwt.encode(to_encode, key, algorithm=alg)] *)
Definition jwt_encode (claims : Claims) (key alg : string) : token :=
  Signed alg key claims.

(** [jwt.decode(token, key, algorithms=[...])] at time [now]: every
    failure is a [JWTError] (or one of its subclasses). *)
Definition jwt_decode (tok : token) (key : string)
    (algorithms : list string) (now : Z) : result Claims :=
  match tok with
  | Malformed _ => Raise JWTError
  | Signed alg k claims =>
      if negb (bool_decide (alg ∈ algorithms)) then Raise JWTError
      else if negb (bool_decide (k = key)) then Raise JWTError
      else match exp claims with
           | Some e => if e <? now then Raise JWTError else Ok claims
           | None => Ok claims
           end
  end.

(** [create_access_token(data, expires_delta)] at time [now];
    [expires_delta] in seconds.  [if expires_delta:] is false for [None]
    and for a zero [timedelta]. *)
Definition create_access_token (settings : Settings) (now : Z)
    (data : Claims) (expires_delta : option Z) : token :=
  let expire :=
    match expires_delta with
    | Some d =>
        if negb (d =? 0) then now + d
        else now + 60 * access_token_expire_minutes settings
    | None => now + 60 * access_token_expire_minutes settings
    end in
  jwt_encode
    (mkClaims (sub data) (user_id data) (scopes data) (Some expire)
              (Some "access"))
    (secret_key settings) (jwt_algorithm settings).

Definition create_refresh_token (settings : Settings) (now : Z)
    (data : Claims) (expires_delta : option Z) : token :=
  let expire :=
    match expires_delta with
    | Some d =>
        if negb (d =? 0) then now + d
        else now + 86400 * refresh_token_expire_days settings
    | None => now + 86400 * refresh_token_expire_days settings
    end in
  jwt_encode
    (mkClaims (sub data) (user_id data) (scopes data) (Some expire)
              (Some "refresh"))
    (secret_key settings) (jwt_algorithm settings).

(** [verify_token(token, token_type)]: [except JWTError: return None];
    any other exception would leave the function. *)
Definition verify_token (settings : Settings) (now : Z) (tok : token)
    (token_type : string) : result (option TokenData) :=
  match jwt_decode tok (secret_key settings) [jwt_algorithm settings] now with
  | Ok payload =>
      if negb (bool_decide (type payload = Some token_type)) then Ok None
      else
        match sub payload with
        | None => Ok None
        | Some username =>
            Ok (Some (mkTokenData (Some username) (user_id payload)
                                  (default [] (scopes payload))))
        end
  | Raise JWTError => Ok None
  | Raise e => Raise e
  end.

(** The [Token] response model. *)
Record Token : Type := mkToken {
  access_token : token;
  token_type : string;
  expires_in : Z;
  refresh_token : option token
}.

(** [create_token_response(user_id, username, scopes)] at time [now].  The
    two lifetimes are passed as [timedelta]s; one that is zero is false in
    Python and makes the callee take its default, which is the same setting
    and so the same expiry. *)
Definition create_token_response (settings : Settings) (now : Z)
    (user_id username : string) (scopes : option (list string)) : Token :=
  let scopes := default [] scopes in
  let token_data :=
    mkClaims (Some username) (Some user_id) (Some scopes) None None in
  let access_token_expires := 60 * access_token_expire_minutes settings in
  let refresh_token_expires := 86400 * refresh_token_expire_days settings in
  let access_token :=
    create_access_token settings now token_data (Some access_token_expires) in
  let refresh_token :=
    create_refresh_token settings now token_data
      (Some refresh_token_expires) in
  mkToken access_token "bearer" (access_token_expire_minutes settings * 60)
          (Some refresh_token).

End Security.

(** ** models/: the rows of the tables and the database *)

(** The values stored in the JSONB columns, and a JSON object. *)
Inductive jvalue : Type :=
| JNull
| JBool (b : bool)
| JInt (z : Z)
| JStr (s : string)
| JInts (l : list Z).

Definition json : Type := list (string * jvalue).

(** The enumerated column types [task_status], [build_status] and
    [feedback_type]. *)
Module TaskStatus.
Inductive t : Type := ACTIVE | PAUSED | COMPLETED | FAILED.
#[export] Instance eq_dec : EqDecision t.
Proof. solve_decision. Defined.
End TaskStatus.
Export (hints) TaskStatus.

Module BuildStatus.
Inductive t : Type := PENDING | RUNNING | SUCCESS | FAILED | CANCELLED.
#[export] Instance eq_dec : EqDecision t.
Proof. solve_decision. Defined.
End BuildStatus.
Export (hints) BuildStatus.

Module FeedbackType.
Inductive t : Type := WORKING | BROKEN | INCONCLUSIVE.
#[export] Instance eq_dec : EqDecision t.
Proof. solve_decision. Defined.
End FeedbackType.
Export (hints) FeedbackType.

Module User.
Record t : Type := mk {
  id : uuid;
  email : string;
  username : string;
  password_hash : string;
  is_active : bool
}.

Definition with_password_hash (x : string) (r : t) : t :=
  mk (id r) (email r) (username r) x (is_active r).
End User.

Module Project.
Record t : Type := mk {
  id : uuid;
  name : string;
  repository_url : string;
  repository_type : string;
  default_branch : string;
  created_by : uuid
}.

(** Attribute assignments. *)
Definition with_fields (n url ty branch : string) (r : t) : t :=
  mk (id r) n url ty branch (created_by r).
End Project.

Module Branch.
Record t : Type := mk {
  id : uuid;
  project_id : uuid;
  name : string
}.
End Branch.

Module LocalizationTask.
Record t : Type := mk {
  id : uuid;
  user_id : uuid;
  project_id : uuid;
  branch_id : uuid;
  task_name : string;
  description : option string;
  good_tag_id : uuid;
  bad_tag_id : uuid;
  status : TaskStatus.t;
  total_tags_in_range : option Z;
  current_iteration : Z;
  final_problematic_tag_id : option uuid;
  resolution_notes : option string;
  created_at : Z;
  updated_at : Z
}.

(** The table's CHECK constraint [check_different_tags]. *)
Definition check_different_tags (r : t) : bool :=
  negb (bool_decide (bad_tag_id r = good_tag_id r)).

(** Attribute assignments. *)
Definition with_status (x : TaskStatus.t) (r : t) : t :=
  mk (id r) (user_id r) (project_id r) (branch_id r) (task_name r)
     (description r) (good_tag_id r) (bad_tag_id r) x
     (total_tags_in_range r) (current_iteration r)
     (final_problematic_tag_id r) (resolution_notes r)
     (created_at r) (updated_at r).

Definition with_current_iteration (x : Z) (r : t) : t :=
  mk (id r) (user_id r) (project_id r) (branch_id r) (task_name r)
     (description r) (good_tag_id r) (bad_tag_id r) (status r)
     (total_tags_in_range r) x
     (final_problematic_tag_id r) (resolution_notes r)
     (created_at r) (updated_at r).

Definition with_final_problematic_tag_id (x : option uuid) (r : t) : t :=
  mk (id r) (user_id r) (project_id r) (branch_id r) (task_name r)
     (description r) (good_tag_id r) (bad_tag_id r) (status r)
     (total_tags_in_range r) (current_iteration r)
     x (resolution_notes r) (created_at r) (updated_at r).

Definition with_texts (n : string) (d notes : option string) (r : t) : t :=
  mk (id r) (user_id r) (project_id r) (branch_id r) n
     d (good_tag_id r) (bad_tag_id r) (status r)
     (total_tags_in_range r) (current_iteration r)
     (final_problematic_tag_id r) notes (created_at r) (updated_at r).

(** [onupdate=func.now()] of the [updated_at] column. *)
Definition with_updated_at (x : Z) (r : t) : t :=
  mk (id r) (user_id r) (project_id r) (branch_id r) (task_name r)
     (description r) (good_tag_id r) (bad_tag_id r) (status r)
     (total_tags_in_range r) (current_iteration r)
     (final_problematic_tag_id r) (resolution_notes r)
     (created_at r) x.
End LocalizationTask.

Module TaskIteration.
Record t : Type := mk {
  id : uuid;
  task_id : uuid;
  iteration_number : Z;
  search_range_start : Z;
  search_range_end : Z;
  candidates_generated : json;
  selected_candidates : option json;
  completed_at : option Z
}.

(** The table's CHECK constraint [check_range_valid]:
    [search_range_end > search_range_start]. *)
Definition check_range_valid (r : t) : bool :=
  search_range_start r <? search_range_end r.
End TaskIteration.

Module TaskSession.
Record t : Type := mk {
  id : uuid;
  task_id : uuid;
  session_data : json;
  current_range_start : option Z;
  current_range_end : option Z
}.
End TaskSession.

Module BuildJob.
Record t : Type := mk {
  id : uuid;
  task_id : uuid;
  iteration_id : uuid;
  tag_id : uuid;
  external_build_id : option string;
  build_service : string;
  build_url : option string;
  status : BuildStatus.t;
  logs_url : option string;
  artifacts_url : option string;
  started_at : option Z;
  completed_at : option Z;
  created_at : Z
}.

(** Attribute assignments. *)
Definition with_status (x : BuildStatus.t) (r : t) : t :=
  mk (id r) (task_id r) (iteration_id r) (tag_id r) (external_build_id r)
     (build_service r) (build_url r) x (logs_url r) (artifacts_url r)
     (started_at r) (completed_at r) (created_at r).

Definition with_completed_at (x : option Z) (r : t) : t :=
  mk (id r) (task_id r) (iteration_id r) (tag_id r) (external_build_id r)
     (build_service r) (build_url r) (status r) (logs_url r)
     (artifacts_url r) (started_at r) x (created_at r).
End BuildJob.

Module UserFeedback.
Record t : Type := mk {
  id : uuid;
  task_id : uuid;
  iteration_id : uuid;
  build_job_id : uuid;
  tag_id : uuid;
  feedback_type : FeedbackType.t;
  notes : option string;
  created_by : uuid
}.

Definition with_verdict (x : FeedbackType.t) (n : option string) (r : t) : t :=
  mk (id r) (task_id r) (iteration_id r) (build_job_id r) (tag_id r)
     x n (created_by r).
End UserFeedback.

Module ServiceConfig.
Record t : Type := mk {
  id : uuid;
  service_type : string;
  service_name : string;
  base_url : string;
  api_key_encrypted : option string;
  config_data : option json;
  is_active : bool
}.
End ServiceConfig.

Module Models.

(** The committed state of the relational store. *)
Record Db : Type := mkDb {
  users : list User.t;
  projects : list Project.t;
  branches : list Branch.t;
  tags : list Tag.t;
  tasks : list LocalizationTask.t;
  iterations : list TaskIteration.t;
  sessions : list TaskSession.t;
  build_jobs : list BuildJob.t;
  feedback : list UserFeedback.t;
  service_configs : list ServiceConfig.t
}.

Definition with_users (db : Db) (x : list User.t) : Db :=
  mkDb x (projects db) (branches db) (tags db) (tasks db) (iterations db)
       (sessions db) (build_jobs db) (feedback db) (service_configs db).

Definition with_projects (db : Db) (x : list Project.t) : Db :=
  mkDb (users db) x (branches db) (tags db) (tasks db) (iterations db)
       (sessions db) (build_jobs db) (feedback db) (service_configs db).

Definition with_branches (db : Db) (x : list Branch.t) : Db :=
  mkDb (users db) (projects db) x (tags db) (tasks db) (iterations db)
       (sessions db) (build_jobs db) (feedback db) (service_configs db).

Definition with_tags (db : Db) (x : list Tag.t) : Db :=
  mkDb (users db) (projects db) (branches db) x (tasks db) (iterations db)
       (sessions db) (build_jobs db) (feedback db) (service_configs db).

Definition with_tasks (db : Db) (x : list LocalizationTask.t) : Db :=
  mkDb (users db) (projects db) (branches db) (tags db) x (iterations db)
       (sessions db) (build_jobs db) (feedback db) (service_configs db).

Definition with_iterations (db : Db) (x : list TaskIteration.t) : Db :=
  mkDb (users db) (projects db) (branches db) (tags db) (tasks db) x
       (sessions db) (build_jobs db) (feedback db) (service_configs db).

Definition with_sessions (db : Db) (x : list TaskSession.t) : Db :=
  mkDb (users db) (projects db) (branches db) (tags db) (tasks db)
       (iterations db) x (build_jobs db) (feedback db) (service_configs db).

Definition with_build_jobs (db : Db) (x : list BuildJob.t) : Db :=
  mkDb (users db) (projects db) (branches db) (tags db) (tasks db)
       (iterations db) (sessions db) x (feedback db) (service_configs db).

Definition with_feedback (db : Db) (x : list UserFeedback.t) : Db :=
  mkDb (users db) (projects db) (branches db) (tags db) (tasks db)
       (iterations db) (sessions db) (build_jobs db) x (service_configs db).

(** [db.add(row); db.commit()]: the INSERT is refused with an
    [IntegrityError] when the row violates a CHECK constraint of its
    table.  Primary keys come from [uuid4] and are taken as given; the
    unique indexes are not part of this model. *)
Definition insert_task (r : LocalizationTask.t) (db : Db) : result Db :=
  if LocalizationTask.check_different_tags r
  then Ok (with_tasks db (tasks db ++ [r]))
  else Raise (IntegrityError "check_different_tags").

Definition insert_iteration (r : TaskIteration.t) (db : Db) : result Db :=
  if TaskIteration.check_range_valid r
  then Ok (with_iterations db (iterations db ++ [r]))
  else Raise (IntegrityError "check_range_valid").

Definition insert_session (r : TaskSession.t) (db : Db) : Db :=
  with_sessions db (sessions db ++ [r]).

Definition insert_build_jobs (rs : list BuildJob.t) (db : Db) : Db :=
  with_build_jobs db (build_jobs db ++ rs).

Definition insert_feedback (r : UserFeedback.t) (db : Db) : Db :=
  with_feedback db (feedback db ++ [r]).

(** Deleting the tasks whose id satisfies [gone]: the rows go, and with
    them the rows that hang on them through [ondelete="CASCADE"] foreign
    keys and [cascade="all, delete-orphan"] relationships -- the
    iterations and sessions of the tasks, the build jobs of the tasks and
    of those iterations, the feedback of the tasks, of those iterations and
    of those build jobs.  Foreign keys that do not cascade are not part of
    this model. *)
Definition cascade_tasks (gone : uuid -> bool) (db : Db) : Db :=
  let gone_iteration r := gone (TaskIteration.task_id r) in
  let iteration_ids :=
    TaskIteration.id <$> List.filter gone_iteration (iterations db) in
  let gone_job r :=
    gone (BuildJob.task_id r)
    || bool_decide (BuildJob.iteration_id r ∈ iteration_ids) in
  let job_ids := BuildJob.id <$> List.filter gone_job (build_jobs db) in
  let gone_feedback r :=
    gone (UserFeedback.task_id r)
    || bool_decide (UserFeedback.iteration_id r ∈ iteration_ids)
    || bool_decide (UserFeedback.build_job_id r ∈ job_ids) in
  mkDb (users db) (projects db) (branches db) (tags db)
    (List.filter (fun r => negb (gone (LocalizationTask.id r))) (tasks db))
    (List.filter (fun r => negb (gone_iteration r)) (iterations db))
    (List.filter (fun r => negb (gone (TaskSession.task_id r))) (sessions db))
    (List.filter (fun r => negb (gone_job r)) (build_jobs db))
    (List.filter (fun r => negb (gone_feedback r)) (feedback db))
    (service_configs db).

(** An attribute assignment on a loaded row followed by [db.commit()]:
    the row with that primary key is rewritten. *)
Definition update_rows {R : Type} (key : R -> uuid) (pk : uuid)
    (f : R -> R) (rows : list R) : list R :=
  (fun r => if bool_decide (key r = pk) then f r else r) <$> rows.

(** [task.<attr> = ...; db.commit()] on a loaded task. *)
Definition update_task_row (pk : uuid) (now : Z)
    (f : LocalizationTask.t -> LocalizationTask.t) (db : Db) : Db :=
  with_tasks db
    (update_rows LocalizationTask.id pk
       (fun r => LocalizationTask.with_updated_at now (f r)) (tasks db)).

(** SQL comparison of a nullable column with a nullable bound: a
    comparison with NULL is not true. *)
Definition sql_ge (a b : option Z) : bool :=
  match a, b with
  | Some x, Some y => y <=? x
  | _, _ => false
  end.

Definition sql_le (a b : option Z) : bool := sql_ge b a.

(** A value bound into an ordering comparison of a filter, as in
    [Tag.sequence_number >= value]: SQLAlchemy accepts [None] only with
    [==], [!=] and [is], and raises ArgumentError while the filter is built,
    before any statement is sent. *)
Definition ordering_bound (value : option Z) : result Z :=
  match value with
  | Some z => Ok z
  | None => Raise ArgumentError
  end.

(** The rows of [tags] selected by
    [project_id == p, branch_id == b, sequence_number >= lo,
     sequence_number <= hi]. *)
Definition tags_in_range (db : Db) (p b : uuid) (lo hi : option Z)
    : list Tag.t :=
  List.filter
    (fun tag =>
       bool_decide (Tag.project_id tag = p)
       && bool_decide (Tag.branch_id tag = b)
       && sql_ge (Tag.sequence_number tag) lo
       && sql_le (Tag.sequence_number tag) hi)
    (tags db).

(** [query(Tag).filter(name == n, project_id == p, branch_id == b).first()] *)
Definition tag_by_name (db : Db) (n : string) (p b : uuid) : option Tag.t :=
  List.find
    (fun tag =>
       bool_decide (Tag.name tag = n)
       && bool_decide (Tag.project_id tag = p)
       && bool_decide (Tag.branch_id tag = b))
    (tags db).

Definition tag_by_id (db : Db) (i : uuid) : option Tag.t :=
  List.find (fun tag => bool_decide (Tag.id tag = i)) (tags db).

(** [query(Project).filter(id == project_id, created_by == user).first()] *)
Definition owned_project (db : Db) (project_id user : uuid)
    : option Project.t :=
  List.find
    (fun p => bool_decide (Project.id p = project_id)
              && bool_decide (Project.created_by p = user))
    (projects db).

(** [query(Branch).filter(id == branch_id, project_id == project_id).first()] *)
Definition branch_of_project (db : Db) (branch_id project_id : uuid)
    : option Branch.t :=
  List.find
    (fun b => bool_decide (Branch.id b = branch_id)
              && bool_decide (Branch.project_id b = project_id))
    (branches db).

(** [query(LocalizationTask).filter(id == task_id, user_id == user).first()] *)
Definition owned_task (db : Db) (task_id user : uuid)
    : option LocalizationTask.t :=
  List.find
    (fun task =>
       bool_decide (LocalizationTask.id task = task_id)
       && bool_decide (LocalizationTask.user_id task = user))
    (tasks db).

(** [query(BuildJob).join(LocalizationTask, BuildJob.task_id ==
    LocalizationTask.id).filter(BuildJob.id == build_id,
    LocalizationTask.user_id == user).first()] *)
Definition owned_build_job (db : Db) (build_id user : uuid)
    : option BuildJob.t :=
  List.find
    (fun job =>
       bool_decide (BuildJob.id job = build_id)
       && existsb
            (fun task =>
               bool_decide (LocalizationTask.id task = BuildJob.task_id job)
               && bool_decide (LocalizationTask.user_id task = user))
            (tasks db))
    (build_jobs db).

Definition session_of_task (db : Db) (task_id : uuid)
    : option TaskSession.t :=
  List.find (fun s => bool_decide (TaskSession.task_id s = task_id))
            (sessions db).

(** [query(ServiceConfig).filter(service_type == "build_service",
    service_name == name, is_active == True).first()] *)
Definition active_build_service (db : Db) (name : string)
    : option ServiceConfig.t :=
  List.find
    (fun c =>
       bool_decide (ServiceConfig.service_type c = "build_service")
       && bool_decide (ServiceConfig.service_name c = name)
       && ServiceConfig.is_active c)
    (service_configs db).

End Models.

(** ** auth/dependencies.py *)

Module Dependencies.
Import Security Models.

Definition quote : string := String "034"%char EmptyString.

(** [SecurityScopes.scope_str] *)
Definition scope_str (security_scopes : list string) : string :=
  String.concat " " security_scopes.

Definition authenticate_value (security_scopes : list string) : string :=
  match security_scopes with
  | [] => "Bearer"
  | _ => ("Bearer scope=" ++ quote ++ scope_str security_scopes ++ quote)%string
  end.

Definition credentials_exception (security_scopes : list string) : exn :=
  HTTPException 401 "Could not validate credentials"
    [("WWW-Authenticate", authenticate_value security_scopes)].

(** The scope loop of [get_current_user]: the first required scope that
    the token lacks raises. *)
Fixpoint check_scopes (required : list string) (granted : list string)
    (challenge : string) : result unit :=
  match required with
  | [] => Ok tt
  | scope :: rest =>
      if negb (bool_decide (scope ∈ granted)) then
        Raise (HTTPException 403 "Not enough permissions"
                 [("WWW-Authenticate", challenge)])
      else check_scopes rest granted challenge
  end.

Definition get_current_user (settings : Settings) (now : Z)
    (security_scopes : list string) (tok : token) (db : Db)
    : result User.t :=
  token_data ← verify_token settings now tok "access";
  match token_data with
  | None => Raise (credentials_exception security_scopes)
  | Some token_data =>
      match List.find
              (fun u => bool_decide (Some (User.username u)
                                     = Security.username token_data))
              (users db) with
      | None => Raise (credentials_exception security_scopes)
      | Some user =>
          if negb (User.is_active user) then
            Raise (HTTPException 400 "Inactive user" [])
          else
            _ ← check_scopes security_scopes (td_scopes token_data)
                   (authenticate_value security_scopes);
            Ok user
      end
  end.

Definition get_current_active_user (current_user : User.t) : result User.t :=
  if negb (User.is_active current_user) then
    Raise (HTTPException 400 "Inactive user" [])
  else Ok current_user.

(** [get_current_user_optional]: the token of the request, if any; every
    exception is caught and answered with [None].  An empty token string
    is no signed token, so that the first test of the function and the
    token check give the same answer for it. *)
Definition get_current_user_optional (settings : Settings) (now : Z)
    (tok : option token) (db : Db) : option User.t :=
  match tok with
  | None => None
  | Some tok =>
      match verify_token settings now tok "access" with
      | Ok (Some token_data) =>
          match List.find
                  (fun u => bool_decide (Some (User.username u)
                                         = Security.username token_data))
                  (users db) with
          | Some user => if negb (User.is_active user) then None else Some user
          | None => None
          end
      | Ok None => None
      | Raise _ => None
      end
  end.

End Dependencies.

(** ** websocket.py: the authentication of a connection *)

Module WebSocket.
Import Security Models.

(** [next(get_database())].  [get_database] of [database/connection.py]
    returns the session itself (its body has a [return], not a [yield]),
    and a [Session] is not an iterator: [next] raises TypeError. *)
Definition next_get_database (db : Db) : result Db := Raise TypeError.

(** [verify_websocket_token(token)]: [(is_valid, user_id)].  The whole
    body is inside [try: ... except Exception: return False, None]. *)
Definition verify_websocket_token (settings : Settings) (now : Z)
    (tok : token) (db : Db) : bool * option string :=
  let body : result (bool * option string) :=
    token_data ← verify_token settings now tok "access";
    match token_data with
    | None => Ok (false, None)
    | Some token_data =>
        session ← next_get_database db;
        match List.find
                (fun u => bool_decide (Some (User.username u)
                                       = Security.username token_data))
                (users session) with
        | Some user =>
            if negb (User.is_active user) then Ok (false, None)
            else Ok (true, Some (User.id user))
        | None => Ok (false, None)
        end
    end in
  match body with
  | Ok answer => answer
  | Raise _ => (false, None)
  end.

End WebSocket.

(** ** api/tasks.py

    A request handler takes the committed database and returns the
    committed database after the request together with the response or the
    exception that ended the request.  Changes that were not committed when
    an exception leaves the handler are lost with the session. *)

Module TasksApi.
Import Models BinarySearch.

Record TaskCreate : Type := mkTaskCreate {
  tc_task_name : string;
  tc_description : option string;
  tc_project_id : uuid;
  tc_branch_id : uuid;
  good_tag_name : string;
  bad_tag_name : string
}.

Record TaskUpdate : Type := mkTaskUpdate {
  tu_task_name : option string;
  tu_description : option string;
  tu_resolution_notes : option string
}.

Record CandidateSelection : Type := mkCandidateSelection {
  candidate_indices : list Z
}.

(** [str(x)] of a timestamp. *)
Definition str_datetime (t : Z) : string := pretty t.

Definition json_of_option_int (x : option Z) : jvalue :=
  match x with
  | Some z => JInt z
  | None => JNull
  end.

Definition not_found (detail : string) : exn := HTTPException 404 detail [].
Definition bad_request (detail : string) : exn := HTTPException 400 detail [].

(** [POST /tasks/] *)
Definition create_task (task_data : TaskCreate) (current_user : User.t)
    (new_task_id new_session_id : uuid) (now : Z) (db : Db)
    : Db * result LocalizationTask.t :=
  match owned_project db (tc_project_id task_data)
          (User.id current_user) with
  | None => (db, Raise (not_found "Project not found or access denied"))
  | Some project =>
  match branch_of_project db (tc_branch_id task_data)
          (tc_project_id task_data) with
  | None => (db, Raise (not_found "Branch not found"))
  | Some branch =>
  let good_tag := tag_by_name db (good_tag_name task_data)
                    (tc_project_id task_data) (tc_branch_id task_data) in
  let bad_tag := tag_by_name db (bad_tag_name task_data)
                   (tc_project_id task_data) (tc_branch_id task_data) in
  match good_tag with
  | None =>
      (db, Raise (not_found ("Good tag '" ++ good_tag_name task_data
                             ++ "' not found")%string))
  | Some good_tag =>
  match bad_tag with
  | None =>
      (db, Raise (not_found ("Bad tag '" ++ bad_tag_name task_data
                             ++ "' not found")%string))
  | Some bad_tag =>
  if seq_or_0 (Tag.sequence_number bad_tag)
     <=? seq_or_0 (Tag.sequence_number good_tag) then
    (db, Raise (bad_request
                  "Good tag must have a lower sequence number than bad tag"))
  else
    match ordering_bound (Tag.sequence_number good_tag) with
    | Raise e => (db, Raise e)
    | Ok _ =>
    match ordering_bound (Tag.sequence_number bad_tag) with
    | Raise e => (db, Raise e)
    | Ok _ =>
    let total_tags :=
      Z.of_nat (length (tags_in_range db (tc_project_id task_data)
                          (tc_branch_id task_data)
                          (Tag.sequence_number good_tag)
                          (Tag.sequence_number bad_tag))) in
    let task :=
      LocalizationTask.mk new_task_id (User.id current_user)
        (tc_project_id task_data) (tc_branch_id task_data)
        (tc_task_name task_data) (tc_description task_data)
        (Tag.id good_tag) (Tag.id bad_tag) TaskStatus.ACTIVE (Some total_tags) 0
        None None now now in
    match insert_task task db with
    | Raise e => (db, Raise e)
    | Ok db1 =>
        let session :=
          TaskSession.mk new_session_id (LocalizationTask.id task)
            [("good_tag_sequence",
              json_of_option_int (Tag.sequence_number good_tag));
             ("bad_tag_sequence",
              json_of_option_int (Tag.sequence_number bad_tag));
             ("initialization_time",
              JStr (str_datetime (LocalizationTask.created_at task)))]
            (Some 0) (Some (total_tags - 1)) in
        (insert_session session db1, Ok task)
    end
    end end
  end end end end.

Record BinarySearchCandidate : Type := mkBinarySearchCandidate {
  position : Z;
  tag : Tag.t;
  selected : bool
}.

Record BinarySearchCandidatesResponse : Type := mkCandidatesResponse {
  iteration_number : Z;
  current_range : Z * Z;
  candidates : list BinarySearchCandidate;
  total_tags : Z;
  is_complete : bool;
  problematic_tag : option Tag.t
}.

(** The response loop of the candidates endpoint:
    [next(tag for tag in tags if str(tag.id) == candidate.tag.id)]. *)
Definition candidate_response (tags : list Tag.t)
    (candidate : SearchCandidate.t) : result BinarySearchCandidate :=
  match List.find
          (fun tag => bool_decide
                        (Tag.id tag
                         = TagInfo.id (SearchCandidate.tag candidate)))
          tags with
  | Some tag =>
      Ok (mkBinarySearchCandidate (SearchCandidate.position candidate)
                                  tag false)
  | None => Raise StopIteration
  end.

(** What the candidates endpoint computes once the position is known. *)
Definition candidates_step (tags : list Tag.t)
    (task : LocalizationTask.t) (good_index bad_index : option Z) (now : Z)
    (db : Db)
    : Db * result BinarySearchCandidatesResponse :=
  match good_index, bad_index with
  | Some good_index, Some bad_index =>
      let engine := BinarySearch.init tags in
      if BinarySearch.is_complete good_index bad_index then
        match py_getitem tags bad_index with
        | Raise e => (db, Raise e)
        | Ok bad =>
            let db' :=
              update_task_row (LocalizationTask.id task) now
                (fun r =>
                   LocalizationTask.with_final_problematic_tag_id
                     (Some (Tag.id bad))
                     (LocalizationTask.with_status TaskStatus.COMPLETED r))
                db in
            (db', Ok (mkCandidatesResponse
                        (LocalizationTask.current_iteration task)
                        (good_index, bad_index) []
                        (Z.of_nat (length tags)) true (Some bad)))
        end
      else
        (db,
         candidates ← generate_candidates engine good_index bad_index;
         candidate_responses ←
           for_in candidates
             (fun candidate acc =>
                r ← candidate_response tags candidate;
                mret (Next (acc ++ [r]))) [];
         mret (mkCandidatesResponse
                 (LocalizationTask.current_iteration task + 1)
                 (good_index, bad_index) candidate_responses
                 (Z.of_nat (length tags)) false None))
  | _, _ => (db, Raise TypeError)
  end.

(** [GET /tasks/{task_id}/candidates] *)
Definition get_binary_search_candidates (task_id : uuid)
    (current_user : User.t) (new_session_id : uuid) (now : Z) (db : Db)
    : Db * result BinarySearchCandidatesResponse :=
  match owned_task db task_id (User.id current_user) with
  | None => (db, Raise (not_found "Task not found"))
  | Some task =>
  if negb (bool_decide (LocalizationTask.status task = TaskStatus.ACTIVE)) then
    (db, Raise (bad_request "Task is not active"))
  else
  match tag_by_id db (LocalizationTask.good_tag_id task) with
  | None => (db, Raise AttributeError)
  | Some good_tag =>
  match ordering_bound (Tag.sequence_number good_tag) with
  | Raise e => (db, Raise e)
  | Ok _ =>
  match tag_by_id db (LocalizationTask.bad_tag_id task) with
  | None => (db, Raise AttributeError)
  | Some bad_tag =>
  match ordering_bound (Tag.sequence_number bad_tag) with
  | Raise e => (db, Raise e)
  | Ok _ =>
      let tags :=
        sort_by (fun x => seq_or_0 (Tag.sequence_number x))
          (tags_in_range db (LocalizationTask.project_id task)
             (LocalizationTask.branch_id task)
             (Tag.sequence_number good_tag)
             (Tag.sequence_number bad_tag)) in
      if Z.of_nat (length tags) <? 3 then
        (db, Raise (bad_request "Not enough tags in range for binary search"))
      else
        match session_of_task db task_id with
        | None =>
            let good_index := 0 in
            let bad_index := Z.of_nat (length tags) - 1 in
            let session :=
              TaskSession.mk new_session_id task_id
                [("initialized", JBool true)]
                (Some good_index) (Some bad_index) in
            candidates_step tags task (Some good_index) (Some bad_index)
              now (insert_session session db)
        | Some session =>
            candidates_step tags task
              (TaskSession.current_range_start session)
              (TaskSession.current_range_end session) now db
        end
  end end end end
  end.

Record SelectionResponse : Type := mkSelectionResponse {
  message : string;
  iteration_id : uuid;
  selected_count : Z;
  next_step : string
}.

(** The [TaskIteration(...)] that the selection endpoint constructs. *)
Definition new_iteration (task_id : uuid) (task : LocalizationTask.t)
    (selection : CandidateSelection) (new_iteration_id : uuid)
    : TaskIteration.t :=
  TaskIteration.mk new_iteration_id task_id
    (LocalizationTask.current_iteration task + 1)
    0 0
    [("candidate_count", JInt 10);
     ("selection_indices", JInts (candidate_indices selection));
     ("timestamp", JStr (str_datetime (LocalizationTask.updated_at task)))]
    (Some [("indices", JInts (candidate_indices selection));
           ("count", JInt (Z.of_nat (length (candidate_indices selection))))])
    None.

(** [POST /tasks/{task_id}/select-candidates] *)
Definition select_candidates_for_testing (task_id : uuid)
    (selection : CandidateSelection) (current_user : User.t)
    (new_iteration_id : uuid) (now : Z) (db : Db)
    : Db * result SelectionResponse :=
  match owned_task db task_id (User.id current_user) with
  | None => (db, Raise (not_found "Task not found"))
  | Some task =>
  if negb (bool_decide (LocalizationTask.status task = TaskStatus.ACTIVE)) then
    (db, Raise (bad_request "Task is not active"))
  else
  let n := Z.of_nat (length (candidate_indices selection)) in
  if (n <? 3) || (5 <? n) then
    (db, Raise (bad_request "Must select between 3 and 5 candidates"))
  else
    let iteration := new_iteration task_id task selection new_iteration_id in
    match insert_iteration iteration db with
    | Raise e => (db, Raise e)
    | Ok db1 =>
        let db2 :=
          update_task_row (LocalizationTask.id task) now
            (LocalizationTask.with_current_iteration
               (LocalizationTask.current_iteration task + 1)) db1 in
        (db2, Ok (mkSelectionResponse "Candidates selected successfully"
                    (TaskIteration.id iteration) n "trigger_builds"))
    end
  end.

(** The three conditional assignments of [update_task]. *)
Definition patch_task (task_update : TaskUpdate) (r : LocalizationTask.t)
    : LocalizationTask.t :=
  LocalizationTask.with_texts
    (default (LocalizationTask.task_name r) (tu_task_name task_update))
    (match tu_description task_update with
     | Some d => Some d
     | None => LocalizationTask.description r
     end)
    (match tu_resolution_notes task_update with
     | Some d => Some d
     | None => LocalizationTask.resolution_notes r
     end) r.

(** [PUT /tasks/{task_id}] *)
Definition update_task (task_id : uuid) (task_update : TaskUpdate)
    (current_user : User.t) (now : Z) (db : Db)
    : Db * result LocalizationTask.t :=
  match owned_task db task_id (User.id current_user) with
  | None => (db, Raise (not_found "Task not found"))
  | Some task =>
      (update_task_row (LocalizationTask.id task) now
         (patch_task task_update) db,
       Ok (LocalizationTask.with_updated_at now
             (patch_task task_update task)))
  end.

(** [PUT /tasks/{task_id}/pause] *)
Definition pause_task (task_id : uuid) (current_user : User.t) (now : Z)
    (db : Db) : Db * result string :=
  match owned_task db task_id (User.id current_user) with
  | None => (db, Raise (not_found "Task not found"))
  | Some task =>
      if negb (bool_decide (LocalizationTask.status task
                            = TaskStatus.ACTIVE)) then
        (db, Raise (bad_request "Task is not active"))
      else
        (update_task_row (LocalizationTask.id task) now
           (LocalizationTask.with_status TaskStatus.PAUSED) db,
         Ok "Task paused successfully")
  end.

(** [PUT /tasks/{task_id}/resume] *)
Definition resume_task (task_id : uuid) (current_user : User.t) (now : Z)
    (db : Db) : Db * result string :=
  match owned_task db task_id (User.id current_user) with
  | None => (db, Raise (not_found "Task not found"))
  | Some task =>
      if negb (bool_decide (LocalizationTask.status task
                            = TaskStatus.PAUSED)) then
        (db, Raise (bad_request "Task is not paused"))
      else
        (update_task_row (LocalizationTask.id task) now
           (LocalizationTask.with_status TaskStatus.ACTIVE) db,
         Ok "Task resumed successfully")
  end.

(** [DELETE /tasks/{task_id}] *)
Definition delete_task (task_id : uuid) (current_user : User.t) (db : Db)
    : Db * result string :=
  match owned_task db task_id (User.id current_user) with
  | None => (db, Raise (not_found "Task not found"))
  | Some task =>
      (cascade_tasks
         (fun i => bool_decide (i = LocalizationTask.id task)) db,
       Ok "Task deleted successfully")
  end.

End TasksApi.

(** ** integrations/build_services.py, seen from the API

    The adapters talk HTTP to an external CI system.  The API sees them
    through [BuildServiceInterface]; what the outside world answers during
    one request is a parameter of the handler. *)

Module BuildServices.

(** The dictionary returned by [trigger_build]. *)
Record TriggerResult : Type := mkTriggerResult {
  build_id : option string;
  url : option string;
  status : option BuildStatus.t
}.

Record BuildServiceInterface : Type := mkService {
  trigger_build : string -> string -> string -> json -> result TriggerResult;
  get_build_status : string -> result BuildStatus.t;
  get_build_logs : string -> result string;
  cancel_build : string -> result bool
}.

(** [BuildServiceFactory.create_service(service_type, config)] *)
Definition Factory : Type := string -> json -> result BuildServiceInterface.

End BuildServices.

(** ** api/builds.py *)

Module BuildsApi.
Import Models BuildServices.

Record BuildTriggerRequest : Type := mkBuildTriggerRequest {
  task_id : uuid;
  iteration_id : uuid;
  tag_ids : list uuid;
  build_service : string;
  build_parameters : option json
}.

Record BuildFeedbackRequest : Type := mkBuildFeedbackRequest {
  feedback_type : FeedbackType.t;
  notes : option string
}.

Definition not_found (detail : string) : exn := HTTPException 404 detail [].
Definition bad_request (detail : string) : exn := HTTPException 400 detail [].

(** Truth value of an optional string: [None] and [''] are false. *)
Definition truthy (x : option string) : bool :=
  match x with
  | Some s => negb (bool_decide (s = ""))
  | None => false
  end.

(** [d[k] = v] *)
Fixpoint dict_set (k : string) (v : jvalue) (d : json) : json :=
  match d with
  | [] => [(k, v)]
  | (k', v') :: rest =>
      if bool_decide (k' = k) then (k, v) :: rest
      else (k', v') :: dict_set k v rest
  end.

(** The configuration handed to the factory:
    [config_data = service_config.config_data or {}] and, with a stored
    key, [config_data['api_token'] = service_config.api_key_encrypted]. *)
Definition service_config_data (service_config : ServiceConfig.t) : json :=
  let config_data := default [] (ServiceConfig.config_data service_config) in
  if truthy (ServiceConfig.api_key_encrypted service_config) then
    dict_set "api_token"
      (JStr (default "" (ServiceConfig.api_key_encrypted service_config)))
      config_data
  else config_data.

Definition terminal (st : BuildStatus.t) : bool :=
  bool_decide
    (st ∈ [BuildStatus.SUCCESS; BuildStatus.FAILED; BuildStatus.CANCELLED]).

(** [task.project.name] and [task.branch.name], read inside the [try] of
    the loop. *)
Definition task_names (db : Db) (task : LocalizationTask.t)
    : result (string * string) :=
  match List.find
          (fun p => bool_decide (Project.id p
                                 = LocalizationTask.project_id task))
          (projects db),
        List.find
          (fun b => bool_decide (Branch.id b
                                 = LocalizationTask.branch_id task))
          (branches db) with
  | Some project, Some branch => Ok (Project.name project, Branch.name branch)
  | _, _ => Raise AttributeError
  end.

(** The loop of [trigger_builds]: one [BuildJob] per tag, a failed one
    when anything in the [try] raises. *)
Definition trigger_one (service : BuildServiceInterface)
    (request : BuildTriggerRequest) (names : result (string * string))
    (now : Z) (new_id : uuid) (tag : Tag.t) : BuildJob.t :=
  match '(project, branch) ← names;
        trigger_build service project branch (Tag.name tag)
          (default [] (build_parameters request)) with
  | Ok build_result =>
      BuildJob.mk new_id (task_id request) (iteration_id request)
        (Tag.id tag) (BuildServices.build_id build_result)
        (build_service request) (url build_result)
        (default BuildStatus.PENDING (BuildServices.status build_result))
        None None None None now
  | Raise _ =>
      BuildJob.mk new_id (task_id request) (iteration_id request)
        (Tag.id tag) None (build_service request) None BuildStatus.FAILED
        None None None None now
  end.

(** [POST /builds/trigger] *)
Definition trigger_builds (create_service : Factory)
    (request : BuildTriggerRequest) (current_user : User.t)
    (new_ids : nat -> uuid) (now : Z) (db : Db)
    : Db * result (list BuildJob.t) :=
  match owned_task db (task_id request) (User.id current_user) with
  | None => (db, Raise (not_found "Task not found"))
  | Some task =>
  if negb (bool_decide (LocalizationTask.status task = TaskStatus.ACTIVE)) then
    (db, Raise (bad_request "Task is not active"))
  else
  match List.find
          (fun it => bool_decide (TaskIteration.id it = iteration_id request)
                     && bool_decide (TaskIteration.task_id it
                                     = task_id request))
          (iterations db) with
  | None => (db, Raise (not_found "Task iteration not found"))
  | Some iteration =>
  match active_build_service db (build_service request) with
  | None =>
      (db, Raise (not_found ("Build service '" ++ build_service request
                             ++ "' not configured")%string))
  | Some service_config =>
  let tags :=
    List.filter
      (fun tag =>
         bool_decide (Tag.id tag ∈ tag_ids request)
         && bool_decide (Tag.project_id tag
                         = LocalizationTask.project_id task)
         && bool_decide (Tag.branch_id tag
                         = LocalizationTask.branch_id task))
      (Models.tags db) in
  if negb (length tags =? length (tag_ids request))%nat then
    (db, Raise (bad_request
                  "Some tags were not found or don't belong to the project"))
  else
  match create_service (build_service request)
          (service_config_data service_config) with
  | Raise e =>
      (db, Raise (HTTPException 500
                    ("Failed to initialize build service: " ++ str_exn e)%string
                    []))
  | Ok service =>
      let build_jobs :=
        imap (fun i tag =>
                trigger_one service request (task_names db task) now
                  (new_ids i) tag) tags in
      (insert_build_jobs build_jobs db, Ok build_jobs)
  end end end end.

Record BuildJobResponse : Type := mkBuildJobResponse {
  job : BuildJob.t;
  tag_name : option string
}.

(** The status refresh of [get_build_status], inside its [try]. *)
Definition refresh_status (create_service : Factory) (build_job : BuildJob.t)
    (now : Z) (db : Db) : Db :=
  match active_build_service db (BuildJob.build_service build_job) with
  | None => db
  | Some service_config =>
      match create_service (BuildJob.build_service build_job)
              (service_config_data service_config) with
      | Raise _ => db
      | Ok service =>
          match get_build_status service
                  (default "" (BuildJob.external_build_id build_job)) with
          | Raise _ => db
          | Ok updated_status =>
              if negb (bool_decide
                         (updated_status = BuildJob.status build_job)) then
                with_build_jobs db
                  (update_rows BuildJob.id (BuildJob.id build_job)
                     (fun r =>
                        let r := BuildJob.with_status updated_status r in
                        if terminal updated_status
                        then BuildJob.with_completed_at (Some now) r
                        else r)
                     (build_jobs db))
              else db
          end
      end
  end.

(** [GET /builds/{build_id}] *)
Definition get_build_status (create_service : Factory) (build_id : uuid)
    (current_user : User.t) (now : Z) (db : Db)
    : Db * result BuildJobResponse :=
  match owned_build_job db build_id (User.id current_user) with
  | None => (db, Raise (not_found "Build job not found"))
  | Some build_job =>
      let db' :=
        if truthy (BuildJob.external_build_id build_job)
           && bool_decide (BuildJob.status build_job
                           ∈ [BuildStatus.PENDING; BuildStatus.RUNNING])
        then refresh_status create_service build_job now db
        else db in
      match owned_build_job db' build_id (User.id current_user) with
      | Some build_job =>
          (db', Ok (mkBuildJobResponse build_job
                      (Tag.name <$> tag_by_id db' (BuildJob.tag_id build_job))))
      | None => (db', Raise AttributeError)
      end
  end.

(** [POST /builds/{build_id}/feedback] *)
Definition submit_build_feedback (build_id : uuid)
    (feedback : BuildFeedbackRequest) (current_user : User.t)
    (new_feedback_id : uuid) (db : Db) : Db * result UserFeedback.t :=
  match owned_build_job db build_id (User.id current_user) with
  | None => (db, Raise (not_found "Build job not found"))
  | Some build_job =>
      match List.find
              (fun f => bool_decide (UserFeedback.build_job_id f = build_id))
              (Models.feedback db) with
      | Some existing_feedback =>
          let assign :=
            UserFeedback.with_verdict (feedback_type feedback)
                                      (notes feedback) in
          (with_feedback db
             (update_rows UserFeedback.id (UserFeedback.id existing_feedback)
                assign (Models.feedback db)),
           Ok (assign existing_feedback))
      | None =>
          let user_feedback :=
            UserFeedback.mk new_feedback_id (BuildJob.task_id build_job)
              (BuildJob.iteration_id build_job) (BuildJob.id build_job)
              (BuildJob.tag_id build_job) (feedback_type feedback)
              (notes feedback) (User.id current_user) in
          (insert_feedback user_feedback db, Ok user_feedback)
      end
  end.

Record CancelResponse : Type := mkCancelResponse {
  message : string;
  external_cancellation : option bool;
  status : BuildStatus.t
}.

(** The external cancellation of [cancel_build], inside its [try]:
    [success] stays [False] unless the service answers. *)
Definition cancel_externally (create_service : Factory)
    (build_job : BuildJob.t) (db : Db) : bool :=
  if truthy (BuildJob.external_build_id build_job) then
    match active_build_service db (BuildJob.build_service build_job) with
    | None => false
    | Some service_config =>
        match create_service (BuildJob.build_service build_job)
                (service_config_data service_config) with
        | Raise _ => false
        | Ok service =>
            match cancel_build service
                    (default "" (BuildJob.external_build_id build_job)) with
            | Ok success => success
            | Raise _ => false
            end
        end
    end
  else false.

(** [POST /builds/{build_id}/cancel] *)
Definition cancel_build (create_service : Factory) (build_id : uuid)
    (current_user : User.t) (now : Z) (db : Db) : Db * result CancelResponse :=
  match owned_build_job db build_id (User.id current_user) with
  | None => (db, Raise (not_found "Build job not found"))
  | Some build_job =>
      if bool_decide (BuildJob.status build_job
                      ∈ [BuildStatus.SUCCESS; BuildStatus.FAILED;
                         BuildStatus.CANCELLED]) then
        (db, Ok (mkCancelResponse "Build is already completed" None
                   (BuildJob.status build_job)))
      else
        let success := cancel_externally create_service build_job db in
        let db' :=
          with_build_jobs db
            (update_rows BuildJob.id (BuildJob.id build_job)
               (fun r =>
                  let r := BuildJob.with_status BuildStatus.CANCELLED r in
                  match BuildJob.completed_at r with
                  | None => BuildJob.with_completed_at (Some now) r
                  | Some _ => r
                  end)
               (build_jobs db)) in
        (db',
         Ok (mkCancelResponse
               (if success then "Build cancelled"
                else "Build marked as cancelled locally")
               (Some success) BuildStatus.CANCELLED))
  end.

End BuildsApi.

(** ** api/auth.py: the routes that write *)

Module AuthApi.
Import Models.

(** [passlib]'s [pwd_context]: hashing and verification are given. *)
Record CryptContext : Type := mkCryptContext {
  hash : string -> string;
  verify : string -> string -> bool
}.

Record UserCreate : Type := mkUserCreate {
  email : string;
  username : string;
  password : string
}.

Definition bad_request (detail : string) : exn := HTTPException 400 detail [].

(** [POST /auth/register] *)
Definition register_user (pwd_context : CryptContext) (user_data : UserCreate)
    (new_user_id : uuid) (db : Db) : Db * result User.t :=
  match List.find
          (fun u => bool_decide (User.email u = email user_data)
                    || bool_decide (User.username u = username user_data))
          (users db) with
  | Some existing_user =>
      if bool_decide (User.email existing_user = email user_data) then
        (db, Raise (bad_request "Email already registered"))
      else (db, Raise (bad_request "Username already registered"))
  | None =>
      let hashed_password := hash pwd_context (password user_data) in
      let db_user :=
        User.mk new_user_id (email user_data) (username user_data)
                hashed_password true in
      (with_users db (users db ++ [db_user]), Ok db_user)
  end.

(** [POST /auth/change-password] *)
Definition change_password (pwd_context : CryptContext)
    (current_password new_password : string) (current_user : User.t)
    (db : Db) : Db * result string :=
  if negb (verify pwd_context current_password
             (User.password_hash current_user)) then
    (db, Raise (bad_request "Incorrect current password"))
  else if (String.length new_password <? 8)%nat then
    (db, Raise (bad_request
                  "New password must be at least 8 characters long"))
  else
    (with_users db
       (update_rows User.id (User.id current_user)
          (User.with_password_hash (hash pwd_context new_password))
          (users db)),
     Ok "Password changed successfully").

(** The [OAuth2PasswordRequestForm] of the login route; [form_scopes] is
    the scope field split at spaces. *)
Record LoginForm : Type := mkLoginForm {
  form_username : string;
  form_password : string;
  form_scopes : list string
}.

Definition unauthorized (detail : string) : exn :=
  HTTPException 401 detail [("WWW-Authenticate", "Bearer")].

(** [POST /auth/login] at time [now] *)
Definition login (settings : Security.Settings) (pwd_context : CryptContext)
    (now : Z) (form_data : LoginForm) (db : Db) : result Security.Token :=
  match List.find
          (fun u => bool_decide (User.username u = form_username form_data)
                    || bool_decide (User.email u = form_username form_data))
          (users db) with
  | None => Raise (unauthorized "Incorrect username or password")
  | Some user =>
      if negb (verify pwd_context (form_password form_data)
                 (User.password_hash user)) then
        Raise (unauthorized "Incorrect username or password")
      else if negb (User.is_active user) then
        Raise (bad_request "Inactive user")
      else
        let scopes :=
          match form_scopes form_data with
          | [] => ["read"; "write"]
          | scopes => scopes
          end in
        Ok (Security.create_token_response settings now (User.id user)
              (User.username user) (Some scopes))
  end.

(** [POST /auth/refresh] at time [now] *)
Definition refresh_token (settings : Security.Settings) (now : Z)
    (refresh_data : Security.token) (db : Db) : result Security.Token :=
  token_data ← Security.verify_token settings now refresh_data "refresh";
  match token_data with
  | None => Raise (unauthorized "Invalid refresh token")
  | Some token_data =>
      match List.find
              (fun u => bool_decide (Some (User.username u)
                                     = Security.username token_data))
              (users db) with
      | Some user =>
          if negb (User.is_active user) then
            Raise (unauthorized "User not found or inactive")
          else
            Ok (Security.create_token_response settings now (User.id user)
                  (User.username user)
                  (Some (Security.td_scopes token_data)))
      | None => Raise (unauthorized "User not found or inactive")
      end
  end.

End AuthApi.

(** ** api/projects.py: the routes that write *)

Module ProjectsApi.
Import Models.

Record ProjectCreate : Type := mkProjectCreate {
  name : string;
  repository_url : string;
  repository_type : string;
  default_branch : string
}.

(** The fields of a [ProjectUpdate] that the request sets. *)
Record ProjectUpdate : Type := mkProjectUpdate {
  pu_name : option string;
  pu_repository_url : option string;
  pu_repository_type : option string;
  pu_default_branch : option string
}.

(** One dictionary of [tags_data]; [None] is an absent key. *)
Record TagData : Type := mkTagData {
  td_name : option string;
  td_commit_hash : option string;
  td_sequence_number : option Z;
  td_author_email : option string;
  td_message : option string;
  td_tag_date : option Z
}.

Record ImportResponse : Type := mkImportResponse {
  message : string;
  imported_count : Z;
  skipped_count : Z;
  total_processed : Z
}.

Definition not_found (detail : string) : exn := HTTPException 404 detail [].
Definition bad_request (detail : string) : exn := HTTPException 400 detail [].

(** [POST /projects/] *)
Definition create_project (project_data : ProjectCreate)
    (current_user : User.t) (new_project_id new_branch_id : uuid) (db : Db)
    : Db * result Project.t :=
  match List.find
          (fun p => bool_decide (Project.name p = name project_data)
                    && bool_decide (Project.repository_url p
                                    = repository_url project_data)
                    && bool_decide (Project.created_by p
                                    = User.id current_user))
          (projects db) with
  | Some existing_project =>
      (db, Raise (bad_request
                    "Project with this name and repository URL already exists"))
  | None =>
      let project :=
        Project.mk new_project_id (name project_data)
          (repository_url project_data) (repository_type project_data)
          (default_branch project_data) (User.id current_user) in
      let db1 := with_projects db (projects db ++ [project]) in
      let default_branch :=
        Branch.mk new_branch_id (Project.id project)
                  (default_branch project_data) in
      (with_branches db1 (branches db1 ++ [default_branch]), Ok project)
  end.

(** The [setattr] loop of [update_project]. *)
Definition patch_project (project_update : ProjectUpdate) (r : Project.t)
    : Project.t :=
  Project.with_fields
    (default (Project.name r) (pu_name project_update))
    (default (Project.repository_url r) (pu_repository_url project_update))
    (default (Project.repository_type r) (pu_repository_type project_update))
    (default (Project.default_branch r) (pu_default_branch project_update))
    r.

(** [PUT /projects/{project_id}] *)
Definition update_project (project_id : uuid) (project_update : ProjectUpdate)
    (current_user : User.t) (db : Db) : Db * result Project.t :=
  match owned_project db project_id (User.id current_user) with
  | None => (db, Raise (not_found "Project not found"))
  | Some project =>
      (with_projects db
         (update_rows Project.id (Project.id project)
            (patch_project project_update) (projects db)),
       Ok (patch_project project_update project))
  end.

(** [db.delete(project)]: the project goes, and with it its branches, the
    tags and tasks of the project and of those branches, and everything
    that hangs on those tasks. *)
Definition delete_project_cascade (pk : uuid) (db : Db) : Db :=
  let gone_branch r := bool_decide (Branch.project_id r = pk) in
  let branch_ids := Branch.id <$> List.filter gone_branch (branches db) in
  let gone_tag r :=
    bool_decide (Tag.project_id r = pk)
    || bool_decide (Tag.branch_id r ∈ branch_ids) in
  let gone_task r :=
    bool_decide (LocalizationTask.project_id r = pk)
    || bool_decide (LocalizationTask.branch_id r ∈ branch_ids) in
  let task_ids := LocalizationTask.id <$> List.filter gone_task (tasks db) in
  let db1 := cascade_tasks (fun i => bool_decide (i ∈ task_ids)) db in
  mkDb (users db1)
    (List.filter (fun r => negb (bool_decide (Project.id r = pk)))
                 (projects db1))
    (List.filter (fun r => negb (gone_branch r)) (branches db1))
    (List.filter (fun r => negb (gone_tag r)) (tags db1))
    (tasks db1) (iterations db1) (sessions db1) (build_jobs db1)
    (feedback db1) (service_configs db1).

(** [DELETE /projects/{project_id}] *)
Definition delete_project (project_id : uuid) (current_user : User.t)
    (db : Db) : Db * result string :=
  match owned_project db project_id (User.id current_user) with
  | None => (db, Raise (not_found "Project not found"))
  | Some project =>
      (delete_project_cascade (Project.id project) db,
       Ok "Project deleted successfully")
  end.

(** One pass of the loop of [import_tags] over [enumerate(tags_data)]; the
    session does not autoflush, so the existence check sees the committed
    rows only. *)
Definition import_one (project_id branch_id : uuid) (new_ids : nat -> uuid)
    (db : Db) (acc : list Tag.t * Z * Z) (item : nat * TagData)
    : list Tag.t * Z * Z :=
  let '(new_tags, imported_count, skipped_count) := acc in
  let '(i, tag_data) := item in
  let existing_tag :=
    List.find
      (fun tag => bool_decide (Tag.project_id tag = project_id)
                  && bool_decide (Tag.branch_id tag = branch_id)
                  && bool_decide (Some (Tag.name tag) = td_name tag_data))
      (tags db) in
  match existing_tag with
  | Some _ => (new_tags, imported_count, skipped_count + 1)
  | None =>
      let tag :=
        Tag.mk (new_ids i) project_id branch_id
          (default ("tag-" ++ pretty i)%string (td_name tag_data))
          (default ("hash-" ++ pretty i)%string (td_commit_hash tag_data))
          (td_tag_date tag_data) (td_author_email tag_data)
          (td_message tag_data)
          (Some (default (Z.of_nat i) (td_sequence_number tag_data))) in
      (new_tags ++ [tag], imported_count + 1, skipped_count)
  end.

(** [POST /projects/{project_id}/branches/{branch_id}/tags/import] *)
Definition import_tags (project_id branch_id : uuid)
    (tags_data : list TagData) (current_user : User.t)
    (new_ids : nat -> uuid) (db : Db) : Db * result ImportResponse :=
  match owned_project db project_id (User.id current_user) with
  | None => (db, Raise (not_found "Project not found"))
  | Some project =>
  match branch_of_project db branch_id project_id with
  | None => (db, Raise (not_found "Branch not found"))
  | Some branch =>
      let '(new_tags, imported_count, skipped_count) :=
        foldl (import_one project_id branch_id new_ids db) ([], 0, 0)
              (imap pair tags_data) in
      (with_tags db (tags db ++ new_tags),
       Ok (mkImportResponse "Tags imported successfully" imported_count
             skipped_count (Z.of_nat (length tags_data))))
  end end.

End ProjectsApi.

(** ** The routes that write

    The routers of [api/auth.py], [api/projects.py], [api/tasks.py] and
    [api/builds.py] register the routes below; their other routes (login,
    token refresh, logout, listings, lookups, the sync stub, build logs)
    and the routes of [api/monitoring.py] and [main.py] only read. *)

Module Api.
Import Models.

Inductive request : Type :=
| RegisterUser (user_data : AuthApi.UserCreate) (new_user_id : uuid)
| ChangePassword (current_password new_password : string)
| CreateProject (project_data : ProjectsApi.ProjectCreate)
                (new_project_id new_branch_id : uuid)
| UpdateProject (project_id : uuid)
                (project_update : ProjectsApi.ProjectUpdate)
| DeleteProject (project_id : uuid)
| ImportTags (project_id branch_id : uuid)
             (tags_data : list ProjectsApi.TagData) (new_ids : nat -> uuid)
| CreateTask (task_data : TasksApi.TaskCreate)
             (new_task_id new_session_id : uuid)
| GetCandidates (task_id : uuid) (new_session_id : uuid)
| SelectCandidates (task_id : uuid) (selection : TasksApi.CandidateSelection)
                   (new_iteration_id : uuid)
| UpdateTask (task_id : uuid) (task_update : TasksApi.TaskUpdate)
| PauseTask (task_id : uuid)
| ResumeTask (task_id : uuid)
| DeleteTask (task_id : uuid)
| TriggerBuilds (request : BuildsApi.BuildTriggerRequest)
                (new_ids : nat -> uuid)
| GetBuildStatus (build_id : uuid)
| SubmitBuildFeedback (build_id : uuid)
                      (feedback : BuildsApi.BuildFeedbackRequest)
                      (new_feedback_id : uuid)
| CancelBuild (build_id : uuid).

(** What surrounds the database while one request is served: the password
    hashing context and the answers of the build services. *)
Record World : Type := mkWorld {
  pwd_context : AuthApi.CryptContext;
  create_service : BuildServices.Factory
}.

(** The committed database after serving one request of [current_user]
    at time [now]. *)
Definition handle (world : World) (current_user : User.t) (now : Z)
    (req : request) (db : Db) : Db :=
  match req with
  | RegisterUser user_data new_user_id =>
      (AuthApi.register_user (pwd_context world) user_data new_user_id db).1
  | ChangePassword current_password new_password =>
      (AuthApi.change_password (pwd_context world) current_password
         new_password current_user db).1
  | CreateProject project_data new_project_id new_branch_id =>
      (ProjectsApi.create_project project_data current_user new_project_id
         new_branch_id db).1
  | UpdateProject project_id project_update =>
      (ProjectsApi.update_project project_id project_update current_user
         db).1
  | DeleteProject project_id =>
      (ProjectsApi.delete_project project_id current_user db).1
  | ImportTags project_id branch_id tags_data new_ids =>
      (ProjectsApi.import_tags project_id branch_id tags_data current_user
         new_ids db).1
  | CreateTask task_data new_task_id new_session_id =>
      (TasksApi.create_task task_data current_user new_task_id
         new_session_id now db).1
  | GetCandidates task_id new_session_id =>
      (TasksApi.get_binary_search_candidates task_id current_user
         new_session_id now db).1
  | SelectCandidates task_id selection new_iteration_id =>
      (TasksApi.select_candidates_for_testing task_id selection
         current_user new_iteration_id now db).1
  | UpdateTask task_id task_update =>
      (TasksApi.update_task task_id task_update current_user now db).1
  | PauseTask task_id => (TasksApi.pause_task task_id current_user now db).1
  | ResumeTask task_id => (TasksApi.resume_task task_id current_user now db).1
  | DeleteTask task_id => (TasksApi.delete_task task_id current_user db).1
  | TriggerBuilds request new_ids =>
      (BuildsApi.trigger_builds (create_service world) request current_user
         new_ids now db).1
  | GetBuildStatus build_id =>
      (BuildsApi.get_build_status (create_service world) build_id
         current_user now db).1
  | SubmitBuildFeedback build_id feedback new_feedback_id =>
      (BuildsApi.submit_build_feedback build_id feedback current_user
         new_feedback_id db).1
  | CancelBuild build_id =>
      (BuildsApi.cancel_build (create_service world) build_id current_user
         now db).1
  end.

(** A request as it arrives: with the world around it, its user and its
    time; and the database after a sequence of requests. *)
Definition call : Type := World * User.t * Z * request.

Definition run (calls : list call) (db : Db) : Db :=
  foldl (fun db '(world, current_user, now, req) =>
           handle world current_user now req db) db calls.

End Api.

(** ** Vocabulary of the statements *)

Module Spec.
Import Models.

(** "The sequence number lies in [[lo, hi]] inclusive": all three numbers
    exist and are so ordered. *)
Definition seq_within (lo hi x : option Z) : Prop :=
  match lo, hi, x with
  | Some l, Some h, Some s => l <= s <= h
  | _, _, _ => False
  end.

#[export] Instance seq_within_dec lo hi x : Decision (seq_within lo hi x).
Proof. destruct lo, hi, x; simpl; apply _. Defined.


(** The [UserFeedback] rows of a build job. *)
Definition feedback_for (db : Db) (build_id : uuid) : list UserFeedback.t :=
  filter (fun f => UserFeedback.build_job_id f = build_id) (feedback db).

(** Primary key of [tags]. *)
Definition tags_primary_key (db : Db) : Prop := NoDup (Tag.id <$> tags db).


(** A select-candidates request that passes every check of the handler. *)
Definition accepted_selection (db : Db) (task_id : uuid)
    (selection : TasksApi.CandidateSelection) (user : User.t) : Prop :=
  exists task,
    owned_task db task_id (User.id user) = Some task
    /\ LocalizationTask.status task = TaskStatus.ACTIVE
    /\ (3 <= length (TasksApi.candidate_indices selection) <= 5)%nat.

(** Primary keys of [localization_tasks] and [build_jobs]; the unique
    indexes of [users]. *)
Definition tasks_primary_key (db : Db) : Prop :=
  NoDup (LocalizationTask.id <$> tasks db).


Definition users_unique (db : Db) : Prop :=
  NoDup (User.username <$> users db) /\ NoDup (User.email <$> users db).

(** Referential integrity below the tasks: every iteration and session
    belongs to a task, every build job to a task and an iteration, every
    feedback row to a task, an iteration and a build job. *)
Definition task_refs_ok (db : Db) : Prop :=
  let task_ids := LocalizationTask.id <$> tasks db in
  let iteration_ids := TaskIteration.id <$> iterations db in
  let job_ids := BuildJob.id <$> build_jobs db in
  Forall (fun r => TaskIteration.task_id r ∈ task_ids) (iterations db)
  /\ Forall (fun r => TaskSession.task_id r ∈ task_ids) (sessions db)
  /\ Forall (fun r => BuildJob.task_id r ∈ task_ids
                      /\ BuildJob.iteration_id r ∈ iteration_ids)
            (build_jobs db)
  /\ Forall (fun r => UserFeedback.task_id r ∈ task_ids
                      /\ UserFeedback.iteration_id r ∈ iteration_ids
                      /\ UserFeedback.build_job_id r ∈ job_ids)
            (feedback db).

(** The changes of a task's status: none, pausing or completing an active
    task, resuming a paused one. *)
Definition status_step (s s' : TaskStatus.t) : Prop :=
  s' = s
  \/ (s = TaskStatus.ACTIVE
      /\ (s' = TaskStatus.PAUSED \/ s' = TaskStatus.COMPLETED))
  \/ (s = TaskStatus.PAUSED /\ s' = TaskStatus.ACTIVE).


(** The name of an entry of an import is the name of a stored tag of the
    project and branch. *)
Definition known_tag (db : Db) (project_id branch_id : uuid)
    (tag_data : ProjectsApi.TagData) : Prop :=
  Exists (fun tag => Tag.project_id tag = project_id
                     /\ Tag.branch_id tag = branch_id
                     /\ Some (Tag.name tag) = ProjectsApi.td_name tag_data)
         (tags db).

#[export] Instance known_tag_dec db project_id branch_id tag_data :
  Decision (known_tag db project_id branch_id tag_data).
Proof. unfold known_tag. apply _. Defined.




End Spec.

(** ** Sample data *)

Module Sample.
Import Models.

Definition tag (i : nat) : Tag.t :=
  Tag.mk (pretty i) "project-1" "branch-1" ("v" ++ pretty i)%string
         ("c" ++ pretty i)%string None None None (Some (Z.of_nat i)).

(** Twenty-five tags, numbered 0 to 24. *)
Definition tags25 : list Tag.t := tag <$> seq 0 25.

Definition engine : BinarySearch.BinarySearchEngine :=
  BinarySearch.init tags25.

Definition settings : Security.Settings :=
  Security.mkSettings "secret" "HS256" 30 7.

Definition claims (name : string) : Security.Claims :=
  Security.mkClaims (Some name) (Some "user-1") (Some ["read"; "write"])
                    None None.

Definition alice (is_active : bool) : User.t :=
  User.mk "user-1" "alice@example.org" "alice" "hash" is_active.

Definition project : Project.t :=
  Project.mk "project-1" "demo" "http://git/demo" "github" "main" "user-1".

Definition branch : Branch.t := Branch.mk "branch-1" "project-1" "main".

Definition task : LocalizationTask.t :=
  LocalizationTask.mk "task-1" "user-1" "project-1" "branch-1" "bisect" None
    "0" "24" TaskStatus.ACTIVE (Some 25) 0 None None 0 0.

Definition build_job (st : BuildStatus.t) : BuildJob.t :=
  BuildJob.mk "build-1" "task-1" "iteration-1" "12" (Some "ext-1")
    "jenkins" None st None None None None 0.

Definition jenkins : ServiceConfig.t :=
  ServiceConfig.mk "config-1" "build_service" "jenkins" "http://ci" None
                   None true.

(** One user, one project and branch with the 25 tags, one active task
    whose session holds the range (0, 24), one build job. *)
Definition db (is_active : bool) (st : BuildStatus.t) : Db :=
  mkDb [alice is_active]
       [project]
       [branch]
       tags25
       [task]
       []
       [TaskSession.mk "session-1" "task-1" [("initialized", JBool true)]
                       (Some 0) (Some 24)]
       [build_job st]
       []
       [jenkins].

(** A build service whose every call fails. *)
Definition failing_service : BuildServices.Factory :=
  fun _ _ =>
    Ok (BuildServices.mkService
          (fun _ _ _ _ => Raise (ServiceError "unreachable"))
          (fun _ => Raise (ServiceError "unreachable"))
          (fun _ => Raise (ServiceError "unreachable"))
          (fun _ => Raise (ServiceError "unreachable"))).

(** The positions of the candidates of a result. *)
Definition positions (r : result (list SearchCandidate.t))
    : result (list Z) :=
  fmap (M := list) SearchCandidate.position <$> r.

(** A password context, and the world around the sample database. *)
Definition world : Api.World :=
  Api.mkWorld
    (AuthApi.mkCryptContext
       (fun p => ("hashed:" ++ p)%string)
       (fun p h => bool_decide (h = ("hashed:" ++ p)%string)))
    failing_service.

End Sample.

(** * Facts and theorems *)

(** ** The definitions at work on the sample data *)

Section Examples.
Import BinarySearch.

Example ex_candidates_wide :
  Sample.positions (generate_candidates Sample.engine 0 24)
  = Ok [2; 4; 6; 8; 10; 13; 15; 17; 19; 21].
Proof. vm_compute. reflexivity. Qed.

Example ex_candidates_narrow :
  Sample.positions (generate_candidates Sample.engine 5 9) = Ok [6; 7; 8].
Proof. vm_compute. reflexivity. Qed.

Example ex_candidates_adjacent :
  Sample.positions (generate_candidates Sample.engine 5 6) = Ok [].
Proof. vm_compute. reflexivity. Qed.

Example ex_candidates_reversed :
  generate_candidates Sample.engine 9 5
  = Raise (ValueError "Bad index must be greater than good index").
Proof. vm_compute. reflexivity. Qed.

(** Past the end of the tag list the lookup raises. *)
Example ex_candidates_past_the_end :
  generate_candidates Sample.engine 0 40 = Raise IndexError.
Proof. vm_compute. reflexivity. Qed.

Example ex_update_range :
  (update_range Sample.engine (BinarySearchState.mk 0 24 1 ∅ 25)
     [("6", "working"); ("13", "broken"); ("4", "working");
      ("19", "broken"); ("10", "inconclusive"); ("no-such-tag", "working")]).1
  = (6, 13).
Proof. vm_compute. reflexivity. Qed.

(** 7.9999999999999964, 76.0 and 100.0, as the interpreter prints them. *)
Example ex_progress :
  calculate_progress 0 24 25
  = Ok (Float.Finite (2251799813685247 # 281474976710656)%Q)
  /\ calculate_progress 6 13 25 = Ok (Float.Finite 76%Q)
  /\ calculate_progress 12 13 25 = Ok (Float.Finite 100%Q)
  /\ calculate_progress 0 (2 ^ 1025) 2 = Raise OverflowError.
Proof. vm_compute. repeat split. Qed.

Example ex_candidates_endpoint :
  (fun out => (out.1, TasksApi.candidates <$> out.2))
    (TasksApi.get_binary_search_candidates "task-1" (Sample.alice true) "s" 5
       (Sample.db true BuildStatus.PENDING))
  = (Sample.db true BuildStatus.PENDING,
     Ok ((fun i => TasksApi.mkBinarySearchCandidate (Z.of_nat i)
                     (Sample.tag i) false)
           <$> [2; 4; 6; 8; 10; 13; 15; 17; 19; 21]%nat)).
Proof. vm_compute. reflexivity. Qed.
End Examples.

Section EngineFacts.
Import BinarySearch.

Lemma insert_by_head {A} (key : A -> Z) x l :
  Forall (fun y => key x <= key y) l -> insert_by key x l = x :: l.
Proof.
  destruct l as [|y r]; [done|].
  intros H. apply Forall_cons in H as [H _]. simpl.
  destruct (Z.leb_spec (key x) (key y)); [done | lia].
Qed.

Lemma sort_by_sorted {A} (key : A -> Z) l :
  StronglySorted Z.lt (key <$> l) -> sort_by key l = l.
Proof.
  induction l as [|x l IH]; [done|].
  rewrite fmap_cons. intros Hs. apply StronglySorted_inv in Hs as [Hs Hx].
  unfold sort_by in *. simpl. rewrite IH by done.
  apply insert_by_head. rewrite Forall_fmap in Hx.
  eapply Forall_impl; [exact Hx|]. simpl. intros; lia.
Qed.

Lemma py_getitem_valid {A} (l : list A) i :
  - Z.of_nat (length l) <= i < Z.of_nat (length l) ->
  exists x, py_getitem l i = Ok x.
Proof.
  intros Hi. unfold py_getitem.
  set (j := if i <? 0 then _ else _).
  assert (0 <= j < Z.of_nat (length l)) as Hj.
  { subst j. destruct (Z.ltb_spec i 0); lia. }
  destruct (Z.leb_spec 0 j); [|lia].
  destruct (Z.ltb_spec j (Z.of_nat (length l))); [|lia].
  simpl. destruct (lookup_lt_is_Some_2 l (Z.to_nat j)) as [x Hx]; [lia|].
  rewrite Hx. eauto.
Qed.
End EngineFacts.

Section EngineLoops.
Import BinarySearch.
Variable self : BinarySearchEngine.

Lemma append_candidate_ok i cands :
  addressable self i ->
  exists c, append_candidate self i cands = Ok (cands ++ [c])
            /\ SearchCandidate.position c = i /\ candidate_at self c.
Proof.
  intros Hi. destruct (py_getitem_valid (tags self) i Hi) as [tag Htag].
  exists (SearchCandidate.mk i (tag_info tag) false).
  unfold append_candidate. rewrite Htag. simpl. repeat split.
  exists tag. simpl. done.
Qed.

Lemma for_in_cons {A S} (x : A) rest (body : A -> S -> result (flow S)) s :
  for_in (x :: rest) body s
  = match body x s with
    | Ok (Next s') => for_in rest body s'
    | Ok (Break s') => Ok s'
    | Raise e => Raise e
    end.
Proof. done. Qed.

Lemma enumeration_loop n : forall a cands,
  (forall i, a <= i < a + Z.of_nat n -> addressable self i) ->
  exists cs,
    for_in (seqZ a (Z.of_nat n))
      (fun i candidates => Next <$> append_candidate self i candidates) cands
    = Ok (cands ++ cs)
    /\ SearchCandidate.position <$> cs = seqZ a (Z.of_nat n)
    /\ Forall (candidate_at self) cs.
Proof.
  induction n as [|n IH]; intros a cands Hval.
  - exists []. simpl. rewrite app_nil_r. done.
  - rewrite seqZ_cons by lia.
    replace (Z.pred (Z.of_nat (S n))) with (Z.of_nat n) by lia.
    destruct (append_candidate_ok a cands) as (c & Hc & Hpos & Hat).
    { apply Hval. lia. }
    destruct (IH (Z.succ a) (cands ++ [c])) as (cs & Hcs & Hmap & Hall).
    { intros i Hi. apply Hval. lia. }
    exists (c :: cs). cbn [for_in]. rewrite Hc. cbn [fmap result_fmap].
    rewrite Hcs, <- app_assoc. split; [done|]. split.
    + by rewrite fmap_cons, Hpos, Hmap.
    + by constructor.
Qed.

Lemma py_int_interval d i :
  0 <= d -> 0 <= i -> py_int (inject_Z d / 11 * inject_Z i)%Q = d * i / 11.
Proof.
  intros Hd Hi. unfold py_int. simpl.
  rewrite Z.quot_div_nonneg by nia.
  f_equal. lia.
Qed.

Lemma has_position_below p cands :
  Forall (fun c => SearchCandidate.position c < p) cands ->
  has_position p cands = false.
Proof.
  unfold has_position. induction 1 as [|c l Hc _ IH]; [done|].
  simpl. rewrite IH.
  destruct (Z.eqb_spec (SearchCandidate.position c) p); [lia|done].
Qed.

Variables good_index bad_index : Z.
Hypothesis Hrange : 12 <= bad_index - good_index.
Hypothesis Haddr : forall i, good_index < i < bad_index -> addressable self i.


Lemma division_position_bounds i :
  1 <= i <= 10 ->
  good_index < division_position good_index bad_index i < bad_index.
Proof.
  intros Hi. unfold division_position.
  assert ((bad_index - good_index) <= (bad_index - good_index) * i
          <= 10 * (bad_index - good_index)) by nia.
  Z.div_mod_to_equations. lia.
Qed.

Lemma division_position_step i :
  0 <= i ->
  division_position good_index bad_index i
  < division_position good_index bad_index (i + 1).
Proof.
  intros Hi. unfold division_position.
  replace ((bad_index - good_index) * (i + 1))
    with ((bad_index - good_index) * i + (bad_index - good_index)) by ring.
  Z.div_mod_to_equations. lia.
Qed.

Lemma division_loop n : forall a cands,
  1 <= a -> a + Z.of_nat n <= 11 ->
  Forall (fun c => SearchCandidate.position c
                   < division_position good_index bad_index a) cands ->
  exists cs,
    for_in (seqZ a (Z.of_nat n))
      (fun i candidates =>
         let position :=
           good_index
           + py_int (inject_Z (bad_index - good_index) / 11 * inject_Z i)%Q in
         if (position <? bad_index) && (good_index <? position) then
           if negb (has_position position candidates) then
             Next <$> append_candidate self position candidates
           else Ok (Next candidates)
         else Ok (Next candidates)) cands
    = Ok (cands ++ cs)
    /\ SearchCandidate.position <$> cs
       = division_position good_index bad_index <$> seqZ a (Z.of_nat n)
    /\ Forall (candidate_at self) cs.
Proof.
  match goal with |- context [for_in _ ?f _] => set (body := f) end.
  induction n as [|n IH]; intros a cands Ha Hn Hbelow.
  - exists []. simpl. rewrite app_nil_r. done.
  - rewrite seqZ_cons by lia.
    replace (Z.pred (Z.of_nat (S n))) with (Z.of_nat n) by lia.
    pose proof (division_position_bounds a ltac:(lia)) as Hb.
    destruct (append_candidate_ok
                (division_position good_index bad_index a) cands)
      as (c & Hc & Hpos & Hat).
    { apply Haddr, Hb. }
    destruct (IH (Z.succ a) (cands ++ [c])) as (cs & Hcs & Hmap & Hall).
    { lia. } { lia. }
    { pose proof (division_position_step a ltac:(lia)) as Hstep.
      replace (Z.succ a) with (a + 1) by lia.
      apply Forall_app. split.
      - eapply Forall_impl; [exact Hbelow|]. simpl. intros; lia.
      - repeat constructor. lia. }
    exists (c :: cs). rewrite for_in_cons. unfold body at 1. cbv beta zeta.
    rewrite py_int_interval by lia.
    fold (division_position good_index bad_index a).
    destruct (Z.ltb_spec (division_position good_index bad_index a)
                bad_index); [|lia].
    destruct (Z.ltb_spec good_index
                (division_position good_index bad_index a)); [|lia].
    rewrite has_position_below by done. cbn [andb negb].
    rewrite Hc. cbn [fmap result_fmap].
    rewrite Hcs, <- app_assoc. split; [done|]. split.
    + by rewrite !fmap_cons, Hpos, Hmap.
    + by constructor.
Qed.

Lemma division_position_mono i j :
  0 <= i < j ->
  division_position good_index bad_index i
  < division_position good_index bad_index j.
Proof.
  intros Hij. unfold division_position.
  assert ((bad_index - good_index) * i + (bad_index - good_index)
          <= (bad_index - good_index) * j) by nia.
  Z.div_mod_to_equations. lia.
Qed.

Lemma division_positions_sorted n : forall a,
  0 <= a ->
  StronglySorted Z.lt
    (division_position good_index bad_index <$> seqZ a (Z.of_nat n)).
Proof.
  induction n as [|n IH]; intros a Ha; [constructor|].
  rewrite seqZ_cons by lia.
  replace (Z.pred (Z.of_nat (S n))) with (Z.of_nat n) by lia.
  rewrite fmap_cons. constructor; [apply IH; lia|].
  apply Forall_fmap, Forall_seqZ. intros j Hj. simpl.
  apply division_position_mono. lia.
Qed.
End EngineLoops.

Lemma StronglySorted_lt_NoDup (l : list Z) : StronglySorted Z.lt l -> NoDup l.
Proof.
  induction 1 as [|x l _ IH Hx]; constructor; [|done].
  intros Hin. rewrite Forall_forall in Hx. specialize (Hx _ Hin). lia.
Qed.

Lemma seqZ_sorted n : forall a, StronglySorted Z.lt (seqZ a (Z.of_nat n)).
Proof.
  induction n as [|n IH]; intros a; [constructor|].
  rewrite seqZ_cons by lia.
  replace (Z.pred (Z.of_nat (S n))) with (Z.of_nat n) by lia.
  constructor; [apply IH|]. apply Forall_seqZ. intros; lia.
Qed.

Import BinarySearch.

(** C1.  [generate_candidates(good_index, bad_index)], whenever every index
    strictly between the two addresses a tag of the engine's list: with more
    than 10 tags strictly between, it returns exactly 10 candidates, at
    strictly increasing, pairwise distinct positions strictly between the
    two indices, each carrying the tag at its position (for 0 and 24 the
    positions 2, 4, 6, 8, 10, 13, 15, 17, 19, 21); with 1 to 10 tags
    strictly between, it returns one candidate for every index strictly
    between, in ascending order (for 5 and 9 the positions 6, 7, 8). *)
Theorem generate_candidates_spec (self : BinarySearchEngine)
    (good_index bad_index : Z)
    (Haddr : forall i, good_index < i < bad_index -> addressable self i) :
  (10 < bad_index - good_index - 1 ->
   exists cs,
     generate_candidates self good_index bad_index = Ok cs
     /\ length cs = 10%nat
     /\ StronglySorted Z.lt (SearchCandidate.position <$> cs)
     /\ NoDup (SearchCandidate.position <$> cs)
     /\ Forall (fun c => good_index < SearchCandidate.position c < bad_index
                         /\ candidate_at self c) cs
     /\ (good_index = 0 -> bad_index = 24 ->
         SearchCandidate.position <$> cs
         = [2; 4; 6; 8; 10; 13; 15; 17; 19; 21]))
  /\ (0 < bad_index - good_index - 1 <= 10 ->
      exists cs,
        generate_candidates self good_index bad_index = Ok cs
        /\ SearchCandidate.position <$> cs
           = seqZ (good_index + 1) (bad_index - good_index - 1)
        /\ StronglySorted Z.lt (SearchCandidate.position <$> cs)
        /\ Forall (candidate_at self) cs
        /\ (good_index = 5 -> bad_index = 9 ->
            SearchCandidate.position <$> cs = [6; 7; 8])).
Proof.
  split; intros Hsize.
  - destruct (division_loop self good_index bad_index ltac:(lia) Haddr
                10 1 []) as (cs & Hloop & Hpos & Hat); [lia | lia | done |].
    pose proof (division_positions_sorted good_index bad_index ltac:(lia)
                  10 1 ltac:(lia)) as Hsorted.
    rewrite <- Hpos in Hsorted.
    assert (length cs = 10%nat) as Hlen.
    { rewrite <- (length_fmap SearchCandidate.position), Hpos, length_fmap.
      done. }
    exists cs. split; [|split; [done|split; [done|split; [|split]]]].
    + unfold generate_candidates. cbv zeta in Hloop |- *.
      destruct (Z.leb_spec bad_index good_index); [lia|].
      destruct (Z.leb_spec (bad_index - good_index - 1) 10); [lia|].
      change (range 1 11) with (seqZ 1 (Z.of_nat 10)).
      rewrite Hloop. cbn [mbind result_bind app].
      rewrite sort_by_sorted by done. rewrite Hlen. done.
    + by apply StronglySorted_lt_NoDup.
    + apply Forall_forall. intros c Hc. split.
      * assert (SearchCandidate.position c
                ∈ division_position good_index bad_index
                    <$> seqZ 1 (Z.of_nat 10))
          as Hin by (rewrite <- Hpos; by apply list_elem_of_fmap_2).
        apply list_elem_of_fmap in Hin as (i & -> & Hi).
        apply elem_of_seqZ in Hi.
        apply division_position_bounds; lia.
      * rewrite Forall_forall in Hat. by apply Hat.
    + intros -> ->. rewrite Hpos. done.
  - set (n := Z.to_nat (bad_index - good_index - 1)).
    destruct (enumeration_loop self n (good_index + 1) [])
      as (cs & Hloop & Hpos & Hat).
    { intros i Hi. apply Haddr. lia. }
    replace (Z.of_nat n) with (bad_index - good_index - 1) in * by lia.
    exists cs. split; [|split; [done|split; [|split; [done|]]]].
    + unfold generate_candidates.
      destruct (Z.leb_spec bad_index good_index); [lia|].
      destruct (Z.leb_spec (bad_index - good_index - 1) 10); [|lia].
      unfold range.
      replace (bad_index - (good_index + 1)) with (bad_index - good_index - 1)
        by lia.
      by rewrite Hloop.
    + rewrite Hpos.
      replace (bad_index - good_index - 1) with (Z.of_nat n) by lia.
      apply seqZ_sorted.
    + intros -> ->. rewrite Hpos. done.
Qed.

Lemma generate_candidates_spec_witness :
  (exists cs,
     generate_candidates Sample.engine 0 24 = Ok cs
     /\ SearchCandidate.position <$> cs = [2; 4; 6; 8; 10; 13; 15; 17; 19; 21])
  /\ (exists cs,
        generate_candidates Sample.engine 5 9 = Ok cs
        /\ SearchCandidate.position <$> cs = [6; 7; 8]).
Proof.
  assert (forall g b, -26 <= g -> b <= 25 ->
                      forall i, g < i < b -> addressable Sample.engine i)
    as Haddr.
  { intros g b Hg Hb i Hi. unfold addressable.
    change (Z.of_nat (length (BinarySearch.tags Sample.engine))) with 25. lia. }
  split.
  - destruct (generate_candidates_spec Sample.engine 0 24
                (Haddr 0 24 ltac:(lia) ltac:(lia))) as [Hlarge _].
    destruct (Hlarge ltac:(lia)) as (cs & Hcs & _ & _ & _ & _ & Hpos).
    exists cs. split; [exact Hcs | exact (Hpos eq_refl eq_refl)].
  - destruct (generate_candidates_spec Sample.engine 5 9
                (Haddr 5 9 ltac:(lia) ltac:(lia))) as [_ Hsmall].
    destruct (Hsmall ltac:(lia)) as (cs & Hcs & _ & _ & _ & Hpos).
    exists cs. split; [exact Hcs | exact (Hpos eq_refl eq_refl)].
Defined.


Section UpdateRange.
Import BinarySearch.
Variable self : BinarySearchEngine.

Lemma raise_good_fold (feedback : list (string * string)) : forall acc,
  let r :=
    foldl (fun new_good '(tag_id, verdict) =>
             if bool_decide (verdict = "working") then
               match find_tag_index self tag_id with
               | Some tag_index => Z.max new_good tag_index
               | None => new_good
               end
             else new_good) acc feedback in
  acc <= r
  /\ (r = acc
      \/ exists tag_id, (tag_id, "working") ∈ feedback
                        /\ find_tag_index self tag_id = Some r)
  /\ ((forall tag_id i, (tag_id, "working") ∈ feedback ->
                        find_tag_index self tag_id = Some i -> i <= acc) ->
      r = acc).
Proof.
  induction feedback as [|[tag_id verdict] rest IH]; intros acc; cbn zeta.
  - simpl. repeat split; [lia | by left].
  - cbn [foldl].
    match goal with |- context [foldl ?f ?a rest] => specialize (IH a) end.
    cbn zeta in IH. destruct IH as (Hle & Hwho & Hsame).
    case_bool_decide as Hv; [subst verdict|];
      [destruct (find_tag_index self tag_id) as [i|] eqn:Hfind|].
    + split; [lia|]. split.
      * destruct Hwho as [->|(t & Ht & Hr)].
        -- destruct (Z.max_spec acc i) as [[_ ->]|[_ ->]]; [|by left].
           right. exists tag_id. split; [left|done].
        -- right. exists t. split; [by right|done].
      * intros Hall. rewrite Hsame.
        -- apply Z.max_l. eapply Hall; [left|done].
        -- intros t j Ht Hj. etrans; [eapply Hall; [by right|done]|lia].
    + split; [done|]. split.
      * destruct Hwho as [->|(t & Ht & Hr)]; [by left|].
        right. exists t. split; [by right|done].
      * intros Hall. apply Hsame. intros t j Ht. apply Hall. by right.
    + split; [done|]. split.
      * destruct Hwho as [->|(t & Ht & Hr)]; [by left|].
        right. exists t. split; [by right|done].
      * intros Hall. apply Hsame. intros t j Ht. apply Hall. by right.
Qed.

Lemma lower_bad_fold (feedback : list (string * string)) : forall acc,
  let r :=
    foldl (fun new_bad '(tag_id, verdict) =>
             if bool_decide (verdict = "broken") then
               match find_tag_index self tag_id with
               | Some tag_index => Z.min new_bad tag_index
               | None => new_bad
               end
             else new_bad) acc feedback in
  r <= acc
  /\ (r = acc
      \/ exists tag_id, (tag_id, "broken") ∈ feedback
                        /\ find_tag_index self tag_id = Some r)
  /\ ((forall tag_id i, (tag_id, "broken") ∈ feedback ->
                        find_tag_index self tag_id = Some i -> acc <= i) ->
      r = acc).
Proof.
  induction feedback as [|[tag_id verdict] rest IH]; intros acc; cbn zeta.
  - simpl. repeat split; [lia | by left].
  - cbn [foldl].
    match goal with |- context [foldl ?f ?a rest] => specialize (IH a) end.
    cbn zeta in IH. destruct IH as (Hle & Hwho & Hsame).
    case_bool_decide as Hv; [subst verdict|];
      [destruct (find_tag_index self tag_id) as [i|] eqn:Hfind|].
    + split; [lia|]. split.
      * destruct Hwho as [->|(t & Ht & Hr)].
        -- destruct (Z.min_spec acc i) as [[_ ->]|[_ ->]]; [by left|].
           right. exists tag_id. split; [left|done].
        -- right. exists t. split; [by right|done].
      * intros Hall. rewrite Hsame.
        -- apply Z.min_l. eapply Hall; [left|done].
        -- intros t j Ht Hj. etrans; [|eapply Hall; [by right|done]]. lia.
    + split; [done|]. split.
      * destruct Hwho as [->|(t & Ht & Hr)]; [by left|].
        right. exists t. split; [by right|done].
      * intros Hall. apply Hsame. intros t j Ht. apply Hall. by right.
    + split; [done|]. split.
      * destruct Hwho as [->|(t & Ht & Hr)]; [by left|].
        right. exists t. split; [by right|done].
      * intros Hall. apply Hsame. intros t j Ht. apply Hall. by right.
Qed.
End UpdateRange.

Import BinarySearch.
(** C4.  [update_range] on any state and any feedback: the returned good
    index is at least the state's, the returned bad index at most the
    state's; when every tag marked "working" lies at or below the current
    good index the good index is unchanged, when every tag marked "broken"
    lies at or above the current bad index the bad index is unchanged; and a
    bound that moves, moves to the index of a tag of the feedback with the
    matching verdict, so tags absent from the feedback change nothing. *)
Theorem update_range_spec (self : BinarySearchEngine)
    (state : BinarySearchState.t) (feedback : list (string * string)) :
  let new_good := (update_range self state feedback).1.1 in
  let new_bad := (update_range self state feedback).1.2 in
  BinarySearchState.good_index state <= new_good
  /\ new_bad <= BinarySearchState.bad_index state
  /\ ((forall tag_id i, (tag_id, "working") ∈ feedback ->
         find_tag_index self tag_id = Some i ->
         i <= BinarySearchState.good_index state) ->
      new_good = BinarySearchState.good_index state)
  /\ ((forall tag_id i, (tag_id, "broken") ∈ feedback ->
         find_tag_index self tag_id = Some i ->
         BinarySearchState.bad_index state <= i) ->
      new_bad = BinarySearchState.bad_index state)
  /\ (new_good = BinarySearchState.good_index state
      \/ exists tag_id, (tag_id, "working") ∈ feedback
                        /\ find_tag_index self tag_id = Some new_good)
  /\ (new_bad = BinarySearchState.bad_index state
      \/ exists tag_id, (tag_id, "broken") ∈ feedback
                        /\ find_tag_index self tag_id = Some new_bad).
Proof.
  cbn zeta. unfold update_range. cbn [fst snd].
  destruct (raise_good_fold self feedback (BinarySearchState.good_index state))
    as (Hg1 & Hg2 & Hg3).
  destruct (lower_bad_fold self feedback (BinarySearchState.bad_index state))
    as (Hb1 & Hb2 & Hb3).
  cbn zeta in *. done.
Qed.

Lemma update_range_spec_witness :
  let state := BinarySearchState.mk 5 20 1 ∅ 25 in
  let feedback := [("3", "working"); ("22", "broken")] in
  (update_range Sample.engine state feedback).1 = (5, 20).
Proof.
  cbn zeta.
  destruct (update_range_spec Sample.engine (BinarySearchState.mk 5 20 1 ∅ 25)
              [("3", "working"); ("22", "broken")])
    as (_ & _ & Hgood & Hbad & _).
  cbn zeta in Hgood, Hbad.
  rewrite (surjective_pairing (update_range _ _ _).1).
  rewrite Hgood, Hbad; [reflexivity| |].
  - intros tag_id i Hin Hfind.
    apply elem_of_cons in Hin as [Hin|Hin];
      [|apply elem_of_cons in Hin as [Hin|Hin];
        [|by apply elem_of_nil in Hin]]; simplify_eq.
    vm_compute in Hfind. simplify_eq. cbn. lia.
  - intros tag_id i Hin Hfind.
    apply elem_of_cons in Hin as [Hin|Hin];
      [|apply elem_of_cons in Hin as [Hin|Hin];
        [|by apply elem_of_nil in Hin]]; simplify_eq.
    vm_compute in Hfind. simplify_eq. cbn. lia.
Defined.

(** ** Rounding to binary64 *)

Section Binary64.
Import Float.
Local Open Scope Q_scope.

Lemma pow2_pos (k : Z) : 0 < 2 ^ k.
Proof. apply Qpower_0_lt. reflexivity. Qed.

Lemma pow2_plus (a b : Z) : 2 ^ (a + b) == 2 ^ a * 2 ^ b.
Proof. apply Qpower_plus. discriminate. Qed.

Lemma pow2_le (a b : Z) : (a <= b)%Z -> 2 ^ a <= 2 ^ b.
Proof. intros H. apply Qpower_le_compat_l; [exact H | discriminate]. Qed.

Lemma pow2_lt (a b : Z) : (a < b)%Z -> 2 ^ a < 2 ^ b.
Proof. intros H. apply Qpower_lt_compat_l; [exact H | reflexivity]. Qed.

Lemma pow2_lt_inv (a b : Z) : 2 ^ a < 2 ^ b -> (a < b)%Z.
Proof. intros H. apply (Qpower_lt_compat_l_inv 2); [exact H | reflexivity]. Qed.

Lemma pow2_Z (k : Z) : (0 <= k)%Z -> 2 ^ k == inject_Z (2 ^ k).
Proof. intros H. symmetry. apply (Zpower_Qpower 2 k H). Qed.

Lemma pow2_succ (k : Z) : 2 ^ (k + 1) == 2 * 2 ^ k.
Proof. rewrite pow2_plus. change (2 ^ 1) with 2. ring. Qed.

(** [Qlog2] is the integer part of the binary logarithm. *)
Lemma Qlog2_spec (x : Q) :
  0 < x -> 2 ^ Qlog2 x <= x /\ x < 2 ^ (Qlog2 x + 1).
Proof.
  intros Hx. destruct x as [n d].
  assert (Hn : (0 < n)%Z).
  { unfold Qlt in Hx. simpl in Hx. lia. }
  unfold Qlog2. cbn [Qnum Qden].
  set (a := Z.log2 n). set (b := Z.log2 (Z.pos d)).
  destruct (Z.log2_spec n Hn) as [Hn1 Hn2]. fold a in Hn1, Hn2.
  destruct (Z.log2_spec (Z.pos d) eq_refl) as [Hd1 Hd2]. fold b in Hd1, Hd2.
  assert (Ha : (0 <= a)%Z) by apply Z.log2_nonneg.
  assert (Hb : (0 <= b)%Z) by apply Z.log2_nonneg.
  rewrite Zle_Qle, <- pow2_Z in Hn1, Hd1 by lia.
  rewrite Zlt_Qlt, <- pow2_Z in Hn2, Hd2 by lia.
  replace (Z.succ a) with (a + 1)%Z in Hn2 by lia.
  replace (Z.succ b) with (b + 1)%Z in Hd2 by lia.
  assert (Hdpos : 0 < inject_Z (Z.pos d)) by reflexivity.
  assert (Hlow : 2 ^ (a - b - 1) < n # d).
  { rewrite (Qmake_Qdiv n d). apply Qlt_shift_div_l; [exact Hdpos|].
    apply Qlt_le_trans with (2 ^ (a - b - 1) * 2 ^ (b + 1)).
    - apply Qmult_lt_l; [apply pow2_pos | exact Hd2].
    - rewrite <- pow2_plus. replace (a - b - 1 + (b + 1))%Z with a by lia.
      exact Hn1. }
  assert (Hhigh : n # d < 2 ^ (a - b + 1)).
  { rewrite (Qmake_Qdiv n d). apply Qlt_shift_div_r; [exact Hdpos|].
    apply Qlt_le_trans with (2 ^ (a - b + 1) * 2 ^ b).
    - rewrite <- pow2_plus. replace (a - b + 1 + b)%Z with (a + 1)%Z by lia.
      exact Hn2.
    - apply Qmult_le_l; [apply pow2_pos | exact Hd1]. }
  destruct (Qle_bool (2 ^ (a - b)) (n # d)) eqn:Hc.
  - apply Qle_bool_iff in Hc. split; [exact Hc | exact Hhigh].
  - split; [apply Qlt_le_weak, Hlow|].
    replace (a - b - 1 + 1)%Z with (a - b)%Z by lia.
    apply Qnot_le_lt. intros Hle. apply Qle_bool_iff in Hle. congruence.
Qed.

Lemma Qlog2_unique (x : Q) (k : Z) :
  2 ^ k <= x -> x < 2 ^ (k + 1) -> Qlog2 x = k.
Proof.
  intros H1 H2.
  assert (Hx : 0 < x) by (eapply Qlt_le_trans; [apply pow2_pos | exact H1]).
  destruct (Qlog2_spec x Hx) as [H3 H4].
  assert (k < Qlog2 x + 1)%Z
    by (apply pow2_lt_inv; eapply Qle_lt_trans; eauto).
  assert (Qlog2 x < k + 1)%Z
    by (apply pow2_lt_inv; eapply Qle_lt_trans; eauto).
  lia.
Qed.

Lemma Qlog2_mono (x y : Q) : 0 < x -> x <= y -> (Qlog2 x <= Qlog2 y)%Z.
Proof.
  intros Hx Hxy.
  assert (Hy : 0 < y) by (eapply Qlt_le_trans; eauto).
  destruct (Qlog2_spec x Hx) as [H1 _], (Qlog2_spec y Hy) as [_ H2].
  assert (Qlog2 x < Qlog2 y + 1)%Z; [|lia].
  apply pow2_lt_inv. eapply Qle_lt_trans; [exact H1|].
  eapply Qle_lt_trans; eauto.
Qed.

Lemma Qlog2_lt (x : Q) (k : Z) : 0 < x -> x < 2 ^ k -> (Qlog2 x < k)%Z.
Proof.
  intros Hx Hk. destruct (Qlog2_spec x Hx) as [H1 _].
  apply pow2_lt_inv. eapply Qle_lt_trans; eauto.
Qed.

(** Rounding to the nearest integer: monotone, exact on integers, and off
    by a half at most. *)
Lemma round_half_even_bounds (x : Q) :
  (Qfloor x <= round_half_even x <= Qfloor x + 1)%Z.
Proof.
  unfold round_half_even. cbn zeta.
  destruct (Qcompare _ _); [destruct (Z.even _)|..]; lia.
Qed.

Lemma round_half_even_le (x : Q) (k : Z) :
  x <= inject_Z k -> (round_half_even x <= k)%Z.
Proof.
  intros H. pose proof (Qfloor_resp_le _ _ H) as Hf. rewrite Qfloor_Z in Hf.
  pose proof (Qfloor_le x) as Hl.
  unfold round_half_even. cbn zeta.
  destruct (Z.eq_dec (Qfloor x) k) as [He|He].
  - destruct (Qcompare_spec (x - inject_Z (Qfloor x)) (1 # 2)) as [Hc|Hc|Hc];
      [| lia |]; rewrite He in Hc; lra.
  - destruct (Qcompare _ _); [destruct (Z.even _)|..]; lia.
Qed.

Lemma round_half_even_ge (x : Q) (k : Z) :
  inject_Z k <= x -> (k <= round_half_even x)%Z.
Proof.
  intros H. pose proof (Qfloor_resp_le _ _ H) as Hf. rewrite Qfloor_Z in Hf.
  pose proof (round_half_even_bounds x). lia.
Qed.

Lemma round_half_even_mono (x y : Q) :
  x <= y -> (round_half_even x <= round_half_even y)%Z.
Proof.
  intros H. pose proof (Qfloor_resp_le _ _ H) as Hf.
  destruct (Z.eq_dec (Qfloor x) (Qfloor y)) as [He|He].
  - unfold round_half_even. cbn zeta. rewrite He.
    destruct (Qcompare_spec (x - inject_Z (Qfloor y)) (1 # 2)) as [Hc|Hc|Hc];
      destruct (Qcompare_spec (y - inject_Z (Qfloor y)) (1 # 2)) as [Hd|Hd|Hd];
      try destruct (Z.even _); try lia; lra.
  - pose proof (round_half_even_bounds x). pose proof (round_half_even_bounds y).
    lia.
Qed.

Lemma round_half_even_error (x : Q) :
  - (1 # 2) <= inject_Z (round_half_even x) - x <= 1 # 2.
Proof.
  pose proof (Qfloor_le x) as Hl. pose proof (Qlt_floor x) as Hu.
  rewrite inject_Z_plus in Hu. change (inject_Z 1) with 1 in Hu.
  unfold round_half_even. cbn zeta.
  destruct (Qcompare_spec (x - inject_Z (Qfloor x)) (1 # 2)) as [Hc|Hc|Hc];
    try destruct (Z.even _); rewrite ?inject_Z_plus;
    change (inject_Z 1) with 1; split; lra.
Qed.

(** Rounding a positive number to 53 bits. *)
Lemma exponent_mono (x y : Q) : 0 < x -> x <= y -> (exponent x <= exponent y)%Z.
Proof.
  intros Hx Hxy. pose proof (Qlog2_mono x y Hx Hxy). unfold exponent. lia.
Qed.

Lemma round_pos_le (x : Q) (k : Z) :
  x <= inject_Z k * 2 ^ exponent x -> round_pos x <= inject_Z k * 2 ^ exponent x.
Proof.
  intros H. unfold round_pos.
  apply Qmult_le_compat_r; [|apply Qlt_le_weak, pow2_pos].
  rewrite <- Zle_Qle. apply round_half_even_le.
  apply Qle_shift_div_r; [apply pow2_pos | exact H].
Qed.

Lemma round_pos_ge (x : Q) (k : Z) :
  inject_Z k * 2 ^ exponent x <= x -> inject_Z k * 2 ^ exponent x <= round_pos x.
Proof.
  intros H. unfold round_pos.
  apply Qmult_le_compat_r; [|apply Qlt_le_weak, pow2_pos].
  rewrite <- Zle_Qle. apply round_half_even_ge.
  apply Qle_shift_div_l; [apply pow2_pos | exact H].
Qed.

(** A power of two at or above the last bit is on the grid. *)
Lemma pow2_grid (e k : Z) :
  (e <= k)%Z -> 2 ^ k == inject_Z (2 ^ (k - e)) * 2 ^ e.
Proof.
  intros H. rewrite <- pow2_Z by lia. rewrite <- pow2_plus.
  replace (k - e + e)%Z with k by lia. reflexivity.
Qed.

Lemma round_pos_le_pow2 (x : Q) (k : Z) :
  (exponent x <= k)%Z -> x <= 2 ^ k -> round_pos x <= 2 ^ k.
Proof.
  intros He H. rewrite (pow2_grid (exponent x) k He) in H |- *.
  apply round_pos_le, H.
Qed.

Lemma round_pos_ge_pow2 (x : Q) (k : Z) :
  (exponent x <= k)%Z -> 2 ^ k <= x -> 2 ^ k <= round_pos x.
Proof.
  intros He H. rewrite (pow2_grid (exponent x) k He) in H |- *.
  apply round_pos_ge, H.
Qed.

Lemma round_pos_nonneg (x : Q) : 0 <= x -> 0 <= round_pos x.
Proof.
  intros H. pose proof (round_pos_ge x 0) as H0.
  rewrite Qmult_0_l in H0. apply H0, H.
Qed.

Lemma round_pos_mono (x y : Q) : 0 < x -> x <= y -> round_pos x <= round_pos y.
Proof.
  intros Hx Hxy.
  assert (Hy : 0 < y) by (eapply Qlt_le_trans; eauto).
  pose proof (Qlog2_mono x y Hx Hxy) as Hl.
  destruct (Z.eq_dec (exponent x) (exponent y)) as [He|He].
  - unfold round_pos. rewrite He.
    apply Qmult_le_compat_r; [|apply Qlt_le_weak, pow2_pos].
    rewrite <- Zle_Qle. apply round_half_even_mono.
    apply Qmult_le_compat_r; [exact Hxy|].
    apply Qlt_le_weak, Qinv_lt_0_compat, pow2_pos.
  - destruct (Qlog2_spec x Hx) as [_ Hx2], (Qlog2_spec y Hy) as [Hy1 _].
    assert (Hlt : (Qlog2 x < Qlog2 y)%Z) by (unfold exponent in He; lia).
    apply Qle_trans with (2 ^ Qlog2 y).
    + apply round_pos_le_pow2; [unfold exponent in *; lia|].
      apply Qlt_le_weak. eapply Qlt_le_trans; [exact Hx2|].
      apply pow2_le. lia.
    + apply round_pos_ge_pow2; [unfold exponent in *; lia | exact Hy1].
Qed.

Lemma round_pos_error (x : Q) (k : Z) :
  (-1021 <= k)%Z -> 0 < x -> x < 2 ^ k ->
  - 2 ^ (k - 54) <= round_pos x - x <= 2 ^ (k - 54).
Proof.
  intros Hk Hx Hxk.
  pose proof (Qlog2_lt x k Hx Hxk) as Hl.
  assert (He : (exponent x <= k - 54 + 1)%Z) by (unfold exponent; lia).
  pose proof (round_half_even_error (x / 2 ^ exponent x)) as [H1 H2].
  pose proof (pow2_pos (exponent x)) as Hp.
  pose proof (pow2_le _ _ He) as Hle. rewrite pow2_succ in Hle.
  unfold round_pos.
  set (r := inject_Z (round_half_even (x / 2 ^ exponent x))) in *.
  set (p := 2 ^ exponent x) in *.
  assert (Hd : (r - x / p) * p == r * p - x) by (field; lra).
  apply (Qmult_le_compat_r _ _ p) in H1; [|lra].
  apply (Qmult_le_compat_r _ _ p) in H2; [|lra].
  rewrite Hd in H1, H2.
  split; lra.
Qed.

Lemma round_Q_mono (x y : Q) : x <= y -> round_Q x <= round_Q y.
Proof.
  intros H. unfold round_Q.
  destruct (Qcompare_spec x 0) as [Hx|Hx|Hx];
    destruct (Qcompare_spec y 0) as [Hy|Hy|Hy]; try lra.
  - apply round_pos_nonneg. lra.
  - pose proof (round_pos_nonneg (- x) ltac:(lra)). lra.
  - pose proof (round_pos_mono (- y) (- x) ltac:(lra) ltac:(lra)). lra.
  - pose proof (round_pos_nonneg (- x) ltac:(lra)).
    pose proof (round_pos_nonneg y ltac:(lra)). lra.
  - apply round_pos_mono; lra.
Qed.

Lemma round_Q_error (x : Q) (k : Z) :
  (-1021 <= k)%Z -> - 2 ^ k < x -> x < 2 ^ k ->
  - 2 ^ (k - 54) <= round_Q x - x <= 2 ^ (k - 54).
Proof.
  intros Hk H1 H2. unfold round_Q.
  pose proof (pow2_pos (k - 54)).
  destruct (Qcompare_spec x 0) as [Hx|Hx|Hx].
  - split; lra.
  - pose proof (round_pos_error (- x) k Hk ltac:(lra) ltac:(lra)). lra.
  - pose proof (round_pos_error x k Hk Hx H2). lra.
Qed.

Lemma round_Q_le_pow2 (x : Q) (k : Z) :
  (-1074 <= k)%Z -> x <= 2 ^ k -> round_Q x <= 2 ^ k.
Proof.
  intros Hk H. unfold round_Q. pose proof (pow2_pos k).
  destruct (Qcompare_spec x 0) as [Hx|Hx|Hx].
  - lra.
  - pose proof (round_pos_nonneg (- x) ltac:(lra)). lra.
  - apply round_pos_le_pow2; [|exact H].
    pose proof (Qlog2_spec x Hx) as [Hl _].
    destruct (Z_lt_le_dec k (Qlog2 x)) as [Hlt|Hge].
    + pose proof (pow2_lt _ _ Hlt). lra.
    + unfold exponent. lia.
Qed.

Lemma round_Q_ge_pow2 (x : Q) (k : Z) :
  (-1074 <= k)%Z -> 2 ^ k <= x -> 2 ^ k <= round_Q x.
Proof.
  intros Hk H. unfold round_Q. pose proof (pow2_pos k).
  destruct (Qcompare_spec x 0) as [Hx|Hx|Hx]; try lra.
  apply Qle_trans with (round_pos (2 ^ k)).
  - apply round_pos_ge_pow2; [|apply Qle_refl].
    unfold exponent.
    rewrite (Qlog2_unique (2 ^ k) k); [lia | apply Qle_refl | apply pow2_lt; lia].
  - apply round_pos_mono; [apply pow2_pos | exact H].
Qed.

Lemma round_Q_ge_opp_pow2 (x : Q) (k : Z) :
  (-1074 <= k)%Z -> - 2 ^ k <= x -> - 2 ^ k <= round_Q x.
Proof.
  intros Hk H. unfold round_Q. pose proof (pow2_pos k).
  destruct (Qcompare_spec x 0) as [Hx|Hx|Hx].
  - lra.
  - pose proof (round_Q_le_pow2 (- x) k Hk ltac:(lra)) as Hr.
    unfold round_Q in Hr. destruct (Qcompare_spec (- x) 0); lra.
  - pose proof (round_pos_nonneg x ltac:(lra)). lra.
Qed.

Lemma round_Q_0 (x : Q) : x == 0 -> round_Q x = 0.
Proof.
  intros H. unfold round_Q. destruct (Qcompare_spec x 0); [done|lra..].
Qed.

End Binary64.

Section Progress.
Import Float BinarySearch.
Local Open Scope Q_scope.

Lemma round64_cases (x : Q) :
  (round64 x = PosInf /\ 2 ^ 1024 <= round_Q x)
  \/ (round64 x = NegInf /\ round_Q x <= - 2 ^ 1024)
  \/ (round64 x = Finite (Qred (round_Q x))
      /\ - 2 ^ 1024 < round_Q x /\ round_Q x < 2 ^ 1024).
Proof.
  unfold round64. cbn zeta.
  destruct (Qle_bool (2 ^ 1024) (round_Q x)) eqn:H1.
  { left. split; [done|]. apply Qle_bool_iff, H1. }
  destruct (Qle_bool (round_Q x) (- 2 ^ 1024)) eqn:H2.
  { right; left. split; [done|]. apply Qle_bool_iff, H2. }
  right; right. split; [done|]. split; apply Qnot_le_lt; intros H;
    apply Qle_bool_iff in H; congruence.
Qed.

Lemma round64_finite (x : Q) (k : Z) :
  (-1074 <= k <= 1023)%Z -> - 2 ^ k <= x -> x <= 2 ^ k ->
  round64 x = Finite (Qred (round_Q x))
  /\ - 2 ^ k <= round_Q x /\ round_Q x <= 2 ^ k.
Proof.
  intros Hk H1 H2.
  pose proof (round_Q_le_pow2 x k ltac:(lia) H2) as Hu.
  pose proof (round_Q_ge_opp_pow2 x k ltac:(lia) H1) as Hl.
  assert (Hp : 2 ^ k < 2 ^ 1024) by (apply pow2_lt; lia).
  destruct (round64_cases x) as [[_ H]|[[_ H]|[H _]]]; [lra | lra | done].
Qed.

Lemma round64_mono (x y : Q) : x <= y -> fleb (round64 x) (round64 y) = true.
Proof.
  intros H. pose proof (round_Q_mono x y H) as Hm.
  pose proof (pow2_pos 1024) as Hp.
  destruct (round64_cases x) as [[-> Hx]|[[-> Hx]|[-> Hx]]];
    destruct (round64_cases y) as [[-> Hy]|[[-> Hy]|[-> Hy]]];
    cbn; try done; try lra.
  apply Qle_bool_iff. rewrite !Qred_correct. exact Hm.
Qed.

Lemma fleb_Finite (x y : Q) : fleb (Finite x) (Finite y) = true <-> x <= y.
Proof. apply Qle_bool_iff. Qed.

Lemma fltb_Finite (x y : Q) : fltb (Finite x) (Finite y) = true <-> x < y.
Proof.
  cbn. rewrite negb_true_iff. split.
  - intros H. apply Qnot_le_lt. intros Hle. apply Qle_bool_iff in Hle.
    congruence.
  - intros H. destruct (Qle_bool y x) eqn:Hle; [|done].
    apply Qle_bool_iff in Hle. lra.
Qed.

(** The clamp [min(100.0, max(0.0, p))]. *)
Lemma clamp_cases (p : float) :
  (py_min (Finite 100) (py_max (Finite 0) p) = Finite 0
   /\ fltb (Finite 0) p = false)
  \/ (py_min (Finite 100) (py_max (Finite 0) p) = Finite 100
      /\ fltb (Finite 0) p = true /\ fltb p (Finite 100) = false)
  \/ (py_min (Finite 100) (py_max (Finite 0) p) = p
      /\ fltb (Finite 0) p = true /\ fltb p (Finite 100) = true).
Proof.
  unfold py_max. destruct (fltb (Finite 0) p) eqn:H0.
  - unfold py_min. destruct (fltb p (Finite 100)) eqn:H1; auto.
  - left. done.
Qed.

Lemma clamp_range (p v : float) :
  py_min (Finite 100) (py_max (Finite 0) p) = v ->
  exists q, v = Finite q /\ 0 <= q <= 100.
Proof.
  intros <-. destruct (clamp_cases p) as [[-> _]|[[-> _]|[-> [H0 H1]]]].
  - exists 0. split; [done | lra].
  - exists 100. split; [done | lra].
  - destruct p as [q| | |]; try done. exists q.
    apply fltb_Finite in H0, H1. split; [done | lra].
Qed.

Lemma clamp_mono (p1 p2 : float) :
  fleb p1 p2 = true ->
  fleb (py_min (Finite 100) (py_max (Finite 0) p1))
       (py_min (Finite 100) (py_max (Finite 0) p2)) = true.
Proof.
  intros H.
  destruct (clamp_cases p1) as [[-> A1]|[[-> [A1 B1]]|[-> [A1 B1]]]];
    destruct (clamp_cases p2) as [[-> A2]|[[-> [A2 B2]]|[-> [A2 B2]]]];
    try done;
    destruct p1 as [q1| | |], p2 as [q2| | |]; try done;
    rewrite ?fleb_Finite in *;
    repeat match goal with
    | H : fltb (Finite _) (Finite _) = true |- _ => apply fltb_Finite in H
    | H : fltb (Finite ?a) (Finite ?b) = false |- _ =>
        assert (b <= a)
          by (apply Qnot_lt_le; intros Hc; apply fltb_Finite in Hc; congruence);
        clear H
    end; lra.
Qed.

Lemma fmul_100_mono (a b : float) :
  fleb a b = true -> fleb (fmul a (Finite 100)) (fmul b (Finite 100)) = true.
Proof.
  intros H. destruct a as [x| | |], b as [y| | |]; try done.
  - apply fleb_Finite in H. cbn [fmul]. apply round64_mono. lra.
  - cbn. destruct (round64_cases (x * 100)) as [[-> _]|[[-> _]|[-> _]]]; done.
  - cbn. destruct (round64_cases (y * 100)) as [[-> _]|[[-> _]|[-> _]]]; done.
Qed.

Lemma fsub_1_mono (x y : Q) :
  x <= y -> fleb (fsub (Finite 1) (Finite y)) (fsub (Finite 1) (Finite x)) = true.
Proof. intros H. cbn [fsub]. apply round64_mono. lra. Qed.

(** [calculate_progress] past its two early returns. *)
Lemma calculate_progress_open (g b t : Z) :
  (1 < t)%Z -> (0 < b - g - 1)%Z ->
  calculate_progress g b t =
    match round64 (inject_Z (b - g - 1) / inject_Z t) with
    | Finite q =>
        Ok (py_min (Finite 100) (py_max (Finite 0)
              (fmul (fsub (Finite 1) (Finite q)) (Finite 100))))
    | _ => Raise OverflowError
    end.
Proof.
  intros Ht Hr. unfold calculate_progress, py_truediv.
  rewrite (proj2 (Z.leb_gt _ _)) by lia.
  rewrite (proj2 (Z.leb_gt _ _)) by lia.
  rewrite (proj2 (Z.eqb_neq _ _)) by lia.
  destruct (round64 _); reflexivity.
Qed.

Lemma calculate_progress_collapsed (g b t : Z) :
  (t <= 1 \/ b - g - 1 <= 0)%Z -> calculate_progress g b t = Ok (Finite 100).
Proof.
  intros H. unfold calculate_progress.
  destruct (Z.leb_spec t 1); [done|].
  destruct (Z.leb_spec (b - g - 1) 0); [done | lia].
Qed.

Lemma calculate_progress_range (g b t : Z) (v : float) :
  calculate_progress g b t = Ok v -> exists q, v = Finite q /\ 0 <= q <= 100.
Proof.
  intros H.
  destruct (Z_le_gt_dec t 1) as [Ht|Ht];
    [|destruct (Z_le_gt_dec (b - g - 1) 0) as [Hr|Hr]].
  - rewrite calculate_progress_collapsed in H by lia.
    exists 100. split; [congruence | lra].
  - rewrite calculate_progress_collapsed in H by lia.
    exists 100. split; [congruence | lra].
  - rewrite calculate_progress_open in H by lia.
    destruct (round64 _); try done. injection H as H. eapply clamp_range, H.
Qed.

Lemma calculate_progress_raises (g b t : Z) (e : exn) :
  calculate_progress g b t = Raise e -> e = OverflowError.
Proof.
  intros H.
  destruct (Z_le_gt_dec t 1) as [Ht|Ht];
    [|destruct (Z_le_gt_dec (b - g - 1) 0) as [Hr|Hr]].
  - rewrite calculate_progress_collapsed in H by lia. done.
  - rewrite calculate_progress_collapsed in H by lia. done.
  - rewrite calculate_progress_open in H by lia.
    destruct (round64 _); congruence.
Qed.

(** The quotient of a positive count by [total_tags]. *)
Lemma ratio_bounds (r t : Z) :
  (0 < r)%Z -> (0 < t)%Z ->
  let x := inject_Z r / inject_Z t in
  0 < x
  /\ ((r < t)%Z -> x <= 1 - / inject_Z t)
  /\ ((t <= r)%Z -> 1 <= x)
  /\ / inject_Z t <= x.
Proof.
  intros Hr Ht. cbn zeta.
  assert (HT : 0 < inject_Z t) by (rewrite Zlt_Qlt in Ht; exact Ht).
  assert (HR : inject_Z 1 <= inject_Z r) by (rewrite <- Zle_Qle; lia).
  assert (Hlt : (r < t)%Z -> inject_Z r + inject_Z 1 <= inject_Z t).
  { intros H. rewrite <- inject_Z_plus, <- Zle_Qle. lia. }
  assert (Hge : (t <= r)%Z -> inject_Z t <= inject_Z r).
  { intros H. rewrite <- Zle_Qle. lia. }
  change (inject_Z 1) with 1 in *.
  generalize dependent (inject_Z r). generalize dependent (inject_Z t).
  intros T HT R HR Hlt Hge.
  pose proof (Qinv_lt_0_compat _ HT) as Hu.
  assert (HTu : T * / T == 1) by (apply Qmult_inv_r; lra).
  unfold Qdiv. split; [|split; [|split]].
  - apply (Qmult_le_compat_r _ _ (/ T)) in HR; lra.
  - intros H. specialize (Hlt H).
    apply (Qmult_le_compat_r _ _ (/ T)) in Hlt; lra.
  - intros H. specialize (Hge H).
    apply (Qmult_le_compat_r _ _ (/ T)) in Hge; lra.
  - apply (Qmult_le_compat_r _ _ (/ T)) in HR; lra.
Qed.

Lemma ratio_step (r1 r2 t : Z) :
  (r1 < r2)%Z -> (0 < t)%Z ->
  / inject_Z t <= inject_Z r2 / inject_Z t - inject_Z r1 / inject_Z t.
Proof.
  intros Hr Ht.
  assert (HT : 0 < inject_Z t) by (rewrite Zlt_Qlt in Ht; exact Ht).
  assert (HR : inject_Z (r1 + 1) <= inject_Z r2) by (rewrite <- Zle_Qle; lia).
  rewrite inject_Z_plus in HR. change (inject_Z 1) with 1 in HR.
  generalize dependent (inject_Z r1). generalize dependent (inject_Z r2).
  generalize dependent (inject_Z t).
  intros T HT R2 R1 HR.
  pose proof (Qinv_lt_0_compat _ HT) as Hu.
  apply (Qmult_le_compat_r _ _ (/ T)) in HR; [|lra].
  unfold Qdiv. lra.
Qed.

Lemma inv_total_bound (t : Z) :
  (0 < t <= 2 ^ 51)%Z -> 2 ^ (-51) <= / inject_Z t.
Proof.
  intros [Ht Hle].
  assert (HT : 0 < inject_Z t) by (rewrite Zlt_Qlt in Ht; exact Ht).
  rewrite Zle_Qle in Hle.
  change (inject_Z (2 ^ 51)) with (2251799813685248 # 1) in Hle.
  change (2 ^ (-51)) with (1 # 2251799813685248).
  generalize dependent (inject_Z t). intros T Hle HT.
  apply Qle_shift_inv_l; [exact HT | lra].
Qed.

(** Three roundings to binary64, with operands of magnitude 1, 1 and 100,
    stay within 164 * 2^-53 of the exact value. *)
Lemma calculate_progress_error (g b t : Z) :
  (1 < t)%Z -> (0 < b - g - 1)%Z ->
  let x := inject_Z (b - g - 1) / inject_Z t in
  2 ^ (-51) <= x -> x <= 1 - 2 ^ (-51) ->
  exists p, calculate_progress g b t = Ok (Finite p)
    /\ - (164 * 2 ^ (-53)) <= p - (1 - x) * 100 <= 164 * 2 ^ (-53).
Proof.
  intros Ht Hr x Hx1 Hx2. rewrite calculate_progress_open by lia. fold x.
  (* the quotient *)
  destruct (round64_finite x 0) as (-> & Hq1 & Hq2);
    [lia | change (2 ^ 0) with 1; change (2 ^ (-51)) with (1 # 2251799813685248) in *; lra.. |].
  pose proof (round_Q_error x 0 ltac:(lia)) as Hqe.
  change (2 ^ 0) with 1 in *.
  change (2 ^ (0 - 54)) with (1 # 18014398509481984) in Hqe.
  change (2 ^ (-51)) with (1 # 2251799813685248) in *.
  change (2 ^ (-53)) with (1 # 9007199254740992) in *.
  specialize (Hqe ltac:(lra) ltac:(lra)).
  set (q := Qred (round_Q x)).
  assert (Hq : q == round_Q x) by apply Qred_correct.
  (* one minus the quotient *)
  cbn [fsub].
  destruct (round64_finite (1 - q) 0) as (-> & Hd1 & Hd2);
    [lia | change (2 ^ 0) with 1; lra.. |].
  pose proof (round_Q_error (1 - q) 0 ltac:(lia)) as Hde.
  change (2 ^ 0) with 1 in *.
  change (2 ^ (0 - 54)) with (1 # 18014398509481984) in Hde.
  specialize (Hde ltac:(lra) ltac:(lra)).
  set (d := Qred (round_Q (1 - q))).
  assert (Hd : d == round_Q (1 - q)) by apply Qred_correct.
  (* times one hundred *)
  cbn [fmul].
  destruct (round64_finite (d * 100) 7) as (-> & Hp1 & Hp2);
    [lia | change (2 ^ 7) with 128; lra.. |].
  pose proof (round_Q_error (d * 100) 7 ltac:(lia)) as Hpe.
  change (2 ^ 7) with 128 in *.
  change (2 ^ (7 - 54)) with (1 # 140737488355328) in Hpe.
  specialize (Hpe ltac:(lra) ltac:(lra)).
  set (p := Qred (round_Q (d * 100))).
  assert (Hp : p == round_Q (d * 100)) by apply Qred_correct.
  (* the clamp *)
  exists p.
  assert (Herr : - (164 * (1 # 9007199254740992)) <= p - (1 - x) * 100
                 <= 164 * (1 # 9007199254740992)) by lra.
  split; [|exact Herr].
  destruct (clamp_cases (Finite p)) as [[_ A]|[[_ [_ A]]|[-> _]]]; [| |done].
  - assert (0 < p) by lra. apply fltb_Finite in H. congruence.
  - assert (p < 100) by lra. apply fltb_Finite in H. congruence.
Qed.

Lemma ratio_mono (r1 r2 t : Z) :
  (r1 <= r2)%Z -> (0 < t)%Z ->
  inject_Z r1 / inject_Z t <= inject_Z r2 / inject_Z t.
Proof.
  intros Hr Ht. destruct (Z.eq_dec r1 r2) as [->|Hne]; [apply Qle_refl|].
  pose proof (ratio_step r1 r2 t ltac:(lia) Ht) as Hs.
  assert (HT : 0 < inject_Z t) by (rewrite Zlt_Qlt in Ht; exact Ht).
  pose proof (Qinv_lt_0_compat _ HT) as Hu.
  generalize dependent (inject_Z r1 / inject_Z t).
  generalize dependent (inject_Z r2 / inject_Z t).
  generalize dependent (/ inject_Z t).
  intros. lra.
Qed.

Lemma clamp_nonpos (p : float) :
  fleb p (Finite 0) = true ->
  py_min (Finite 100) (py_max (Finite 0) p) = Finite 0.
Proof.
  intros H. destruct (clamp_cases p) as [[-> _]|[[_ [A _]]|[_ [A _]]]];
    [done|..]; destruct p as [q| | |]; try done;
    apply fleb_Finite in H; apply fltb_Finite in A; lra.
Qed.

(** At or beyond [total_tags] the clamp answers 0, unless the quotient
    overflows. *)
Lemma calculate_progress_clamped (g b t : Z) :
  (1 < t)%Z -> (t <= b - g - 1)%Z ->
  calculate_progress g b t = Ok (Finite 0)
  \/ calculate_progress g b t = Raise OverflowError.
Proof.
  intros Ht Hr. rewrite calculate_progress_open by lia.
  destruct (ratio_bounds (b - g - 1) t ltac:(lia) ltac:(lia))
    as (_ & _ & Hx & _).
  specialize (Hx Hr). set (x := inject_Z (b - g - 1) / inject_Z t) in *.
  pose proof (round_Q_ge_pow2 x 0 ltac:(lia) Hx) as Hq.
  change (2 ^ 0) with 1 in Hq.
  destruct (round64_cases x) as [[-> _]|[[-> _]|[-> _]]]; auto.
  left. f_equal. apply clamp_nonpos.
  set (q := Qred (round_Q x)).
  assert (Hq' : q == round_Q x) by apply Qred_correct.
  assert (E : fmul (Finite 0) (Finite 100) = Finite 0)
    by (vm_compute; reflexivity).
  rewrite <- E. apply fmul_100_mono.
  assert (E0 : round64 0 = Finite 0) by (vm_compute; reflexivity).
  rewrite <- E0. cbn [fsub]. apply round64_mono. lra.
Qed.

(** The quotient does not overflow while the count is at most
    [2^1023 * total_tags]. *)
Lemma calculate_progress_returns (g b t : Z) :
  (b - g - 1 <= 2 ^ 1023 * t)%Z -> exists v, calculate_progress g b t = Ok v.
Proof.
  intros Hr.
  destruct (Z_le_gt_dec t 1) as [Ht|Ht];
    [|destruct (Z_le_gt_dec (b - g - 1) 0) as [Hr0|Hr0]].
  - rewrite calculate_progress_collapsed by lia. eauto.
  - rewrite calculate_progress_collapsed by lia. eauto.
  - rewrite calculate_progress_open by lia.
    destruct (ratio_bounds (b - g - 1) t ltac:(lia) ltac:(lia))
      as (Hx & _).
    assert (Hu : inject_Z (b - g - 1) / inject_Z t <= 2 ^ 1023).
    { apply Qle_shift_div_r.
      - change 0 with (inject_Z 0). rewrite <- Zlt_Qlt. lia.
      - rewrite pow2_Z by lia. rewrite <- inject_Z_mult, <- Zle_Qle. exact Hr. }
    set (x := inject_Z (b - g - 1) / inject_Z t) in *.
    pose proof (pow2_pos 1023).
    destruct (round64_finite x 1023) as (-> & _); [lia | lra | exact Hu |].
    eauto.
Qed.

(** Below [total_tags <= 2^51] the value is strictly inside (0, 100) and
    separates neighbouring counts. *)
Lemma calculate_progress_inside (g b t : Z) :
  (0 < b - g - 1 < t)%Z -> (t <= 2 ^ 51)%Z ->
  let x := inject_Z (b - g - 1) / inject_Z t in
  exists p, calculate_progress g b t = Ok (Finite p)
    /\ 0 < p < 100
    /\ - (164 * 2 ^ (-53)) <= p - (1 - x) * 100 <= 164 * 2 ^ (-53)
    /\ 2 ^ (-51) <= x <= 1 - 2 ^ (-51).
Proof.
  intros Hr Ht. cbn zeta.
  destruct (ratio_bounds (b - g - 1) t ltac:(lia) ltac:(lia))
    as (_ & Hx1 & _ & Hx2).
  specialize (Hx1 ltac:(lia)).
  pose proof (inv_total_bound t ltac:(lia)) as Hi.
  pose proof (calculate_progress_error g b t ltac:(lia) ltac:(lia)) as He.
  cbn zeta in He.
  change (2 ^ (-51)) with (1 # 2251799813685248) in *.
  change (2 ^ (-53)) with (1 # 9007199254740992) in *.
  generalize dependent (inject_Z (b - g - 1) / inject_Z t).
  generalize dependent (/ inject_Z t).
  intros u Hi x Hx1 Hx2 He.
  destruct He as (p & Hp & He); [lra | lra |].
  exists p. split; [exact Hp|]. repeat split; lra.
Qed.

End Progress.

Import BinarySearch.

Section ProgressClaim.
Import Float.

(** C5, as stated, fails in two ways.  With 5 tags in total, shrinking the
    strictly-between count from 7 to 6 leaves the progress at 0.0, by the
    clamp; and with [2^60] tags in total, shrinking the count from
    [2^59 + 1] to [2^59] leaves it at 50.0, since both quotients round to
    0.5.  In neither case does it increase, nor is it 100. *)
Lemma calculate_progress_not_strict :
  (calculate_progress 0 8 5 = Ok (Finite 0%Q)
   /\ calculate_progress 0 7 5 = Ok (Finite 0%Q))
  /\ (calculate_progress 0 (2 ^ 59 + 2) (2 ^ 60) = Ok (Finite 50%Q)
      /\ calculate_progress 0 (2 ^ 59 + 1) (2 ^ 60) = Ok (Finite 50%Q)).
Proof. vm_compute. done. Qed.

(** C5, amended.  [calculate_progress] returns exactly 100.0 whenever
    [total_tags <= 1] or the strictly-between count is at most 0; when the
    count is at least [total_tags > 1] it returns 0.0, by the clamp (or
    raises OverflowError, when the quotient is beyond the floats); for a
    fixed [total_tags] the returned value never decreases as the count
    shrinks; and for [total_tags <= 2^51] it strictly increases (or stays at
    100) as the count shrinks to any count below [total_tags]. *)
Theorem calculate_progress_spec (total_tags g1 b1 g2 b2 : Z) :
  (total_tags <= 1 \/ b1 - g1 - 1 <= 0 ->
   calculate_progress g1 b1 total_tags = Ok (Finite 100%Q))
  /\ (1 < total_tags -> total_tags <= b1 - g1 - 1 ->
      calculate_progress g1 b1 total_tags = Ok (Finite 0%Q)
      \/ calculate_progress g1 b1 total_tags = Raise OverflowError)
  /\ (b1 - g1 - 1 <= b2 - g2 - 1 ->
      forall v1 v2,
        calculate_progress g1 b1 total_tags = Ok v1 ->
        calculate_progress g2 b2 total_tags = Ok v2 ->
        fleb v2 v1 = true)
  /\ (b1 - g1 - 1 < b2 - g2 - 1 -> b1 - g1 - 1 < total_tags ->
      total_tags <= 2 ^ 51 ->
      exists v1,
        calculate_progress g1 b1 total_tags = Ok v1
        /\ forall v2,
             calculate_progress g2 b2 total_tags = Ok v2 ->
             fltb v2 v1 = true \/ (v1 = Finite 100%Q /\ v2 = Finite 100%Q)).
Proof.
  split; [apply calculate_progress_collapsed|].
  split; [apply calculate_progress_clamped|].
  destruct (Z.le_gt_cases total_tags 1) as [Ht|Ht].
  { rewrite !calculate_progress_collapsed by lia.
    split; [intros _ v1 v2 [= <-] [= <-]; done|].
    intros _ _ _. eexists. split; [done|]. intros v2 [= <-]. by right. }
  destruct (Z.le_gt_cases (b2 - g2 - 1) 0) as [Hr2|Hr2].
  { rewrite (calculate_progress_collapsed g2 b2) by lia.
    split; intros Hr.
    - rewrite calculate_progress_collapsed by lia.
      intros v1 v2 [= <-] [= <-]. done.
    - intros _ _. rewrite calculate_progress_collapsed by lia.
      eexists. split; [done|]. intros v2 [= <-]. by right. }
  destruct (Z.le_gt_cases (b1 - g1 - 1) 0) as [Hr1|Hr1].
  { rewrite (calculate_progress_collapsed g1 b1) by lia.
    split.
    - intros _ v1 v2 [= <-] H2.
      destruct (calculate_progress_range _ _ _ _ H2) as (q & -> & Hq).
      apply fleb_Finite. lra.
    - intros _ _ Ht51. eexists. split; [done|]. intros v2 H2. left.
      destruct (Z.le_gt_cases total_tags (b2 - g2 - 1)) as [Hc|Hc].
      + destruct (calculate_progress_clamped g2 b2 total_tags Ht Hc) as [E|E];
          rewrite E in H2; [|done].
        injection H2 as <-. done.
      + destruct (calculate_progress_inside g2 b2 total_tags
                    ltac:(lia) Ht51) as (p & E & Hp & _).
        rewrite E in H2. injection H2 as <-. apply fltb_Finite. lra. }
  split.
  - intros Hr v1 v2 H1 H2.
    rewrite calculate_progress_open in H1, H2 by lia.
    pose proof (ratio_mono _ _ total_tags Hr ltac:(lia)) as Hx.
    pose proof (round64_mono _ _ Hx) as Hq.
    destruct (round64 (inject_Z (b1 - g1 - 1) / _)) as [q1| | |]; try done.
    destruct (round64 (inject_Z (b2 - g2 - 1) / _)) as [q2| | |]; try done.
    injection H1 as <-. injection H2 as <-.
    apply clamp_mono, fmul_100_mono, fsub_1_mono. apply fleb_Finite, Hq.
  - intros Hr Hlt Ht51.
    destruct (calculate_progress_inside g1 b1 total_tags
                ltac:(lia) Ht51) as (p1 & E1 & Hp1 & He1 & Hx1).
    exists (Finite p1). split; [exact E1|]. intros v2 H2. left.
    destruct (Z.le_gt_cases total_tags (b2 - g2 - 1)) as [Hc|Hc].
    + destruct (calculate_progress_clamped g2 b2 total_tags Ht Hc) as [E|E];
        rewrite E in H2; [|done].
      injection H2 as <-. apply fltb_Finite. lra.
    + destruct (calculate_progress_inside g2 b2 total_tags
                  ltac:(lia) Ht51) as (p2 & E2 & Hp2 & He2 & Hx2).
      rewrite E2 in H2. injection H2 as <-. apply fltb_Finite.
      pose proof (ratio_step _ _ total_tags Hr ltac:(lia)) as Hs.
      pose proof (inv_total_bound total_tags ltac:(lia)) as Hi.
      change (2 ^ (-51))%Q with (1 # 2251799813685248)%Q in *.
      change (2 ^ (-53))%Q with (1 # 9007199254740992)%Q in *.
      generalize dependent (inject_Z (b1 - g1 - 1) / inject_Z total_tags)%Q.
      generalize dependent (inject_Z (b2 - g2 - 1) / inject_Z total_tags)%Q.
      generalize dependent (/ inject_Z total_tags)%Q.
      intros. lra.
Qed.

Lemma calculate_progress_spec_witness :
  (fltb (Finite (2251799813685247 # 281474976710656)%Q) (Finite 64%Q) = true
   /\ calculate_progress 0 24 25
      = Ok (Finite (2251799813685247 # 281474976710656)%Q)
   /\ calculate_progress 0 10 25 = Ok (Finite 64%Q))
  /\ calculate_progress 3 4 25 = Ok (Finite 100%Q).
Proof.
  destruct (calculate_progress_spec 25 0 10 0 24) as (_ & _ & _ & Hstrict).
  destruct (calculate_progress_spec 25 3 4 0 24) as (Hfull & _).
  split.
  - destruct (Hstrict ltac:(lia) ltac:(lia) ltac:(lia)) as (v1 & E1 & Hv).
    assert (E2 : calculate_progress 0 24 25
                 = Ok (Finite (2251799813685247 # 281474976710656)%Q))
      by (vm_compute; reflexivity).
    assert (E1' : calculate_progress 0 10 25 = Ok (Finite 64%Q))
      by (vm_compute; reflexivity).
    rewrite E1' in E1. injection E1 as <-.
    destruct (Hv _ E2) as [Hlt|[Habs _]]; [|discriminate Habs].
    split; [exact Hlt | split; [exact E2 | exact E1']].
  - apply Hfull. right. lia.
Defined.

End ProgressClaim.

Section Tokens.
Import Security.
Variables (settings : Settings) (now : Z).

Lemma jwt_decode_well_signed claims :
  jwt_decode (Signed (jwt_algorithm settings) (secret_key settings) claims)
    (secret_key settings) [jwt_algorithm settings] now
  = match exp claims with
    | Some e => if e <? now then Raise JWTError else Ok claims
    | None => Ok claims
    end.
Proof.
  unfold jwt_decode.
  rewrite bool_decide_eq_true_2 by (by apply list_elem_of_singleton).
  rewrite bool_decide_eq_true_2 by done. done.
Qed.

Lemma jwt_decode_ok tok key algorithms claims :
  jwt_decode tok key algorithms now = Ok claims ->
  (exists alg, tok = Signed alg key claims /\ alg ∈ algorithms)
  /\ (forall e, exp claims = Some e -> now <= e).
Proof.
  destruct tok as [text|alg k c]; simpl; [done|].
  case_bool_decide; [|done]. case_bool_decide; [|done]. simpl. subst k.
  destruct (exp c) as [e|] eqn:He; [destruct (Z.ltb_spec e now)|];
    intros Hd; simplify_eq; (split; [by exists alg|]);
    intros e' He'; rewrite He in He'; simplify_eq; lia.
Qed.

Lemma jwt_decode_raises tok key algorithms e :
  jwt_decode tok key algorithms now = Raise e -> e = JWTError.
Proof.
  destruct tok as [text|alg k c]; simpl; [congruence|].
  repeat case_bool_decide; simpl; try congruence.
  destruct (exp c) as [x|]; [destruct (x <? now)|]; congruence.
Qed.
End Tokens.

Import Security.

(** C6.  [verify_token] never raises; it returns the invalid result when
    the token is not signed under the configured key and algorithm, when it
    is expired, when its type claim differs from the requested type, or when
    it has no subject; and for a token signed under the configured key,
    unexpired, of the requested type and with a subject it returns the token
    data with that subject, the user id and the scope list. *)
Theorem verify_token_spec (settings : Settings) (now : Z) (tok : token)
    (token_type : string) :
  (exists r, verify_token settings now tok token_type = Ok r)
  /\ (~ well_signed settings tok ->
      verify_token settings now tok token_type = Ok None)
  /\ (forall alg key claims,
        tok = Signed alg key claims ->
        (exists e, exp claims = Some e /\ e < now)
        \/ type claims <> Some token_type
        \/ sub claims = None ->
        verify_token settings now tok token_type = Ok None)
  /\ (forall claims username,
        tok = Signed (jwt_algorithm settings) (secret_key settings) claims ->
        (forall e, exp claims = Some e -> now <= e) ->
        type claims = Some token_type ->
        sub claims = Some username ->
        verify_token settings now tok token_type
        = Ok (Some (mkTokenData (Some username) (user_id claims)
                                (default [] (scopes claims))))).
Proof.
  unfold verify_token.
  destruct (jwt_decode tok (secret_key settings) [jwt_algorithm settings] now)
    as [payload|e] eqn:Hdec.
  - apply jwt_decode_ok in Hdec as [(alg & -> & Halg) Hfresh].
    apply list_elem_of_singleton in Halg as ->.
    split; [|split; [|split]].
    + case_bool_decide; simpl; [|eauto]. destruct (sub payload); eauto.
    + intros Hns. destruct Hns. by exists payload.
    + intros ? ? claims [= <- <- <-] Hbad.
      case_bool_decide as Hty; simpl; [|done].
      destruct Hbad as [(e & He & Hlt)|[Hbad|Hbad]]; [|done|by rewrite Hbad].
      specialize (Hfresh e He). lia.
    + intros claims username [= <-] _ Hty Hsub.
      rewrite bool_decide_eq_true_2 by done. simpl. by rewrite Hsub.
  - apply jwt_decode_raises in Hdec as Hj. subst e.
    split; [eauto|]. split; [done|]. split; [done|].
    intros claims username -> Hexp _ _. exfalso.
    rewrite jwt_decode_well_signed in Hdec.
    destruct (exp claims) as [e|] eqn:He; [|done].
    specialize (Hexp e eq_refl). destruct (Z.ltb_spec e now); [lia|done].
Qed.

Lemma verify_token_spec_witness :
  let tok :=
    create_access_token Sample.settings 1000 (Sample.claims "alice") None in
  verify_token Sample.settings 1500 tok "access"
  = Ok (Some (mkTokenData (Some "alice") (Some "user-1") ["read"; "write"]))
  /\ verify_token Sample.settings 1500 tok "refresh" = Ok None
  /\ verify_token Sample.settings 9999 tok "access" = Ok None.
Proof.
  cbn zeta.
  pose (claims := mkClaims (Some "alice") (Some "user-1")
                    (Some ["read"; "write"]) (Some 2800) (Some "access")).
  split; [|split].
  - destruct (verify_token_spec Sample.settings 1500
                (Signed "HS256" "secret" claims) "access")
      as (_ & _ & _ & Hvalid).
    apply (Hvalid claims "alice" eq_refl); [|reflexivity|reflexivity].
    intros e He. injection He as <-. lia.
  - destruct (verify_token_spec Sample.settings 1500
                (Signed "HS256" "secret" claims) "refresh")
      as (_ & _ & Hbad & _).
    apply (Hbad "HS256" "secret" claims eq_refl).
    right. left. discriminate.
  - destruct (verify_token_spec Sample.settings 9999
                (Signed "HS256" "secret" claims) "access")
      as (_ & _ & Hbad & _).
    apply (Hbad "HS256" "secret" claims eq_refl).
    left. exists 2800. split; [reflexivity|lia].
Defined.

Import Dependencies Models.

(** C7, as stated, fails: a valid access token of an inactive account is
    answered with status 400, "Inactive user", and no header; it is not a
    401. *)
Lemma inactive_user_is_a_bad_request :
  let tok :=
    create_access_token Sample.settings 1000 (Sample.claims "alice") None in
  let r := get_current_user Sample.settings 1000 [] tok
             (Sample.db false BuildStatus.PENDING) in
  r = Raise (HTTPException 400 "Inactive user" [])
  /\ (forall detail headers, r <> Raise (HTTPException 401 detail headers)).
Proof.
  cbn zeta. split; [reflexivity|].
  intros detail headers H. discriminate H.
Qed.

(** C7, amended.  [get_current_user] answers an invalid token and a token
    whose user no longer exists with status 401 and a [WWW-Authenticate]
    challenge header; it answers a token that resolves to an inactive
    account with status 400, "Inactive user", without a header. *)
Theorem get_current_user_rejections (settings : Settings) (now : Z)
    (security_scopes : list string) (tok : token) (db : Db) :
  (verify_token settings now tok "access" = Ok None ->
   get_current_user settings now security_scopes tok db
   = Raise (HTTPException 401 "Could not validate credentials"
              [("WWW-Authenticate", authenticate_value security_scopes)]))
  /\ (forall token_data,
        verify_token settings now tok "access" = Ok (Some token_data) ->
        (List.find (fun u => bool_decide (Some (User.username u)
                                          = Security.username token_data))
                   (users db) = None ->
         get_current_user settings now security_scopes tok db
         = Raise (HTTPException 401 "Could not validate credentials"
                    [("WWW-Authenticate",
                      authenticate_value security_scopes)]))
        /\ (forall user,
              List.find (fun u => bool_decide (Some (User.username u)
                                               = Security.username token_data))
                        (users db) = Some user ->
              User.is_active user = false ->
              get_current_user settings now security_scopes tok db
              = Raise (HTTPException 400 "Inactive user" []))).
Proof.
  unfold get_current_user. split.
  - intros ->. done.
  - intros token_data ->. cbn [mbind result_bind]. split.
    + intros ->. done.
    + intros user -> ->. done.
Qed.

Lemma get_current_user_rejections_witness :
  let tok :=
    create_access_token Sample.settings 1000 (Sample.claims "alice") None in
  get_current_user Sample.settings 1500 ["read"] tok
    (Sample.db false BuildStatus.PENDING)
  = Raise (HTTPException 400 "Inactive user" [])
  /\ get_current_user Sample.settings 1500 ["read"] (Malformed "garbage")
       (Sample.db false BuildStatus.PENDING)
     = Raise (HTTPException 401 "Could not validate credentials"
                [("WWW-Authenticate", authenticate_value ["read"])]).
Proof.
  cbn zeta. split.
  - destruct (get_current_user_rejections Sample.settings 1500 ["read"]
                (create_access_token Sample.settings 1000
                   (Sample.claims "alice") None)
                (Sample.db false BuildStatus.PENDING)) as [_ Hknown].
    destruct (Hknown (mkTokenData (Some "alice") (Some "user-1")
                        ["read"; "write"]) eq_refl) as [_ Hinactive].
    apply (Hinactive (Sample.alice false)); reflexivity.
  - destruct (get_current_user_rejections Sample.settings 1500 ["read"]
                (Malformed "garbage")
                (Sample.db false BuildStatus.PENDING)) as [Hinvalid _].
    apply Hinvalid. reflexivity.
Defined.

Import TasksApi Spec.

(** C2, the code at an accepted request.  For every select-candidates
    request that passes the handler's checks (owned active task, 3 to 5
    indices) the [TaskIteration] the handler constructs has
    [search_range_start = search_range_end = 0], which violates
    [check_range_valid]; the INSERT is refused and the request ends in an
    [IntegrityError], the database unchanged. *)
Theorem select_candidates_violates_check_range_valid (db : Db)
    (task_id : uuid) (selection : CandidateSelection) (user : User.t)
    (new_iteration_id : uuid) (now : Z)
    (Haccepted : accepted_selection db task_id selection user) :
  (exists task,
     owned_task db task_id (User.id user) = Some task
     /\ let iteration :=
          new_iteration task_id task selection new_iteration_id in
        TaskIteration.search_range_start iteration = 0
        /\ TaskIteration.search_range_end iteration = 0
        /\ TaskIteration.check_range_valid iteration = false)
  /\ select_candidates_for_testing task_id selection user new_iteration_id
       now db
     = (db, Raise (IntegrityError "check_range_valid")).
Proof.
  destruct Haccepted as (task & Htask & Hactive & Hlen).
  split; [by exists task|].
  unfold select_candidates_for_testing. rewrite Htask, Hactive.
  rewrite bool_decide_eq_true_2 by done. cbn [negb].
  destruct (Z.ltb_spec (Z.of_nat (length (candidate_indices selection))) 3);
    [lia|].
  destruct (Z.ltb_spec 5 (Z.of_nat (length (candidate_indices selection))));
    [lia|].
  done.
Qed.

Lemma select_candidates_violates_check_range_valid_witness :
  select_candidates_for_testing "task-1" (mkCandidateSelection [0; 1; 2])
    (Sample.alice true) "iteration-1" 7 (Sample.db true BuildStatus.PENDING)
  = (Sample.db true BuildStatus.PENDING,
     Raise (IntegrityError "check_range_valid")).
Proof.
  apply select_candidates_violates_check_range_valid.
  exists Sample.task. split; [reflexivity|]. split; [reflexivity|].
  cbn. lia.
Defined.

Section Queries.
Context {A : Type}.

Lemma filter_bool_Prop (f : A -> bool) (P : A -> Prop)
    `{!forall x, Decision (P x)} (l : list A) :
  (forall x, f x = true <-> P x) -> List.filter f l = filter P l.
Proof.
  intros Hf. induction l as [|x l IH]; [done|].
  simpl. rewrite filter_cons, IH.
  destruct (f x) eqn:Hx; destruct (decide (P x)) as [HP|HP]; try done.
  - destruct HP. by apply Hf.
  - apply Hf in HP. congruence.
Qed.

Lemma find_elem_of (f : A -> bool) (l : list A) x :
  List.find f l = Some x -> x ∈ l /\ f x = true.
Proof.
  intros H. apply find_some in H as [Hin Hf]. by rewrite list_elem_of_In.
Qed.


Lemma find_head_filter (f : A -> bool) (l : list A) :
  List.find f l = head (List.filter f l).
Proof.
  induction l as [|x l IH]; [done|]. simpl. by destruct (f x).
Qed.

Lemma find_fmap_stable (f : A -> bool) (g : A -> A) (l : list A) :
  (forall x, f (g x) = f x) -> List.find f (g <$> l) = g <$> List.find f l.
Proof.
  intros Hg. induction l as [|x l IH]; [done|].
  rewrite fmap_cons. simpl. rewrite Hg. by destruct (f x).
Qed.

Lemma NoDup_fmap_eq {B} (key : A -> B) (l : list A) x y :
  NoDup (key <$> l) -> x ∈ l -> y ∈ l -> key x = key y -> x = y.
Proof.
  induction l as [|z l IH]; intros Hnd Hx Hy Hk; [by apply elem_of_nil in Hx|].
  rewrite fmap_cons in Hnd. apply NoDup_cons in Hnd as [Hz Hnd].
  apply elem_of_cons in Hx as [->|Hx]; apply elem_of_cons in Hy as [->|Hy].
  - done.
  - destruct Hz. rewrite Hk. by apply list_elem_of_fmap_2.
  - destruct Hz. rewrite <- Hk. by apply list_elem_of_fmap_2.
  - by apply IH.
Qed.
End Queries.

Import Models TasksApi Spec BinarySearch.




Section Rows.
Context {A : Type}.

Lemma filter_fmap_stable (P : A -> Prop) `{!forall x, Decision (P x)}
    (g : A -> A) (l : list A) :
  (forall x, P (g x) <-> P x) -> filter P (g <$> l) = g <$> filter P l.
Proof.
  intros Hg. induction l as [|x l IH]; [done|].
  rewrite fmap_cons, !filter_cons, IH.
  destruct (decide (P (g x))) as [H1|H1], (decide (P x)) as [H2|H2];
    try done; rewrite Hg in H1; done.
Qed.
End Rows.

Import Models BuildsApi Spec.

Lemma owned_build_job_id db build_id user job :
  owned_build_job db build_id user = Some job -> BuildJob.id job = build_id.
Proof.
  intros H. apply find_elem_of in H as [_ H].
  apply andb_true_iff in H as [H _]. by apply bool_decide_eq_true in H.
Qed.

Lemma find_feedback db build_id :
  List.find (fun f => bool_decide (UserFeedback.build_job_id f = build_id))
            (Models.feedback db)
  = head (feedback_for db build_id).
Proof.
  rewrite find_head_filter. unfold feedback_for. f_equal.
  apply filter_bool_Prop. intros f. apply bool_decide_eq_true.
Qed.

(** One submission leaves exactly one row for the build job, carrying the
    submitted verdict, provided there was at most one before. *)
Lemma submit_build_feedback_once build_id fb user new_id db :
  is_Some (owned_build_job db build_id (User.id user)) ->
  (length (feedback_for db build_id) <= 1)%nat ->
  let out := submit_build_feedback build_id fb user new_id db in
  owned_build_job out.1 build_id (User.id user)
  = owned_build_job db build_id (User.id user)
  /\ exists row,
       feedback_for out.1 build_id = [row]
       /\ UserFeedback.feedback_type row = feedback_type fb
       /\ UserFeedback.notes row = notes fb
       /\ out.2 = Ok row.
Proof.
  intros [job Hjob] Hlen. cbn zeta. unfold submit_build_feedback.
  rewrite Hjob, find_feedback.
  destruct (feedback_for db build_id) as [|e rest] eqn:Hrows; cbn [head].
  - split; [done|]. eexists.
    split; [|split; [|split; [|reflexivity]]]; [|done|done].
    unfold feedback_for, insert_feedback in *.
    cbn [fst Models.feedback with_feedback].
    rewrite filter_app, Hrows, filter_cons_True; [done|].
    cbn. by eapply owned_build_job_id.
  - destruct rest; [|simpl in Hlen; lia].
    split; [done|]. eexists.
    split; [|split; [|split; [|reflexivity]]]; [|done|done].
    unfold feedback_for, update_rows in *.
    cbn [fst Models.feedback with_feedback].
    rewrite filter_fmap_stable.
    + rewrite Hrows. rewrite fmap_cons, bool_decide_eq_true_2 by done. done.
    + intros f. by case_bool_decide.
Qed.

(** C8.  Two feedback submissions for the same build job by an owner of
    its task, from a state with at most one feedback row for that job (which
    every route preserves), leave exactly one row for the job, and the row
    has the type and notes of the second submission. *)
Theorem feedback_upsert (build_id : uuid) (first second : BuildFeedbackRequest)
    (user : User.t) (id1 id2 : uuid) (db : Db)
    (Howned : is_Some (owned_build_job db build_id (User.id user)))
    (Hinv : (length (feedback_for db build_id) <= 1)%nat) :
  let db1 := (submit_build_feedback build_id first user id1 db).1 in
  let out := submit_build_feedback build_id second user id2 db1 in
  exists row,
    feedback_for out.1 build_id = [row]
    /\ UserFeedback.feedback_type row = feedback_type second
    /\ UserFeedback.notes row = notes second
    /\ out.2 = Ok row.
Proof.
  cbn zeta.
  destruct (submit_build_feedback_once build_id first user id1 db Howned Hinv)
    as (Hsame & row1 & Hrows1 & _).
  apply submit_build_feedback_once.
  - by rewrite Hsame.
  - by rewrite Hrows1.
Qed.

Lemma feedback_upsert_witness :
  let db := Sample.db true BuildStatus.SUCCESS in
  let db1 :=
    (submit_build_feedback "build-1"
       (mkBuildFeedbackRequest FeedbackType.WORKING (Some "fine"))
       (Sample.alice true) "feedback-1" db).1 in
  let out :=
    submit_build_feedback "build-1"
      (mkBuildFeedbackRequest FeedbackType.BROKEN None)
      (Sample.alice true) "feedback-2" db1 in
  exists row,
    feedback_for out.1 "build-1" = [row]
    /\ UserFeedback.feedback_type row = FeedbackType.BROKEN
    /\ UserFeedback.notes row = None.
Proof.
  cbn zeta.
  destruct (feedback_upsert "build-1"
              (mkBuildFeedbackRequest FeedbackType.WORKING (Some "fine"))
              (mkBuildFeedbackRequest FeedbackType.BROKEN None)
              (Sample.alice true) "feedback-1" "feedback-2"
              (Sample.db true BuildStatus.SUCCESS))
    as (row & Hrows & Hty & Hnotes & _).
  - exists (Sample.build_job BuildStatus.SUCCESS). reflexivity.
  - cbn. lia.
  - exists row. split; [exact Hrows|]. split; [exact Hty|exact Hnotes].
Defined.

Section FeedbackInvariant.
Import Models TasksApi BuildsApi Api Spec.

Lemma feedback_for_cascade (gone : UserFeedback.t -> bool) b
    (l : list UserFeedback.t) :
  (length (filter (fun f => UserFeedback.build_job_id f = b)
             (List.filter (fun r => negb (gone r)) l))
   <= length (filter (fun f => UserFeedback.build_job_id f = b) l))%nat.
Proof.
  induction l as [|f l IH]; [done|].
  cbn [List.filter]. destruct (negb _).
  - rewrite !filter_cons. destruct (decide _); simpl; lia.
  - rewrite filter_cons. destruct (decide _); simpl; lia.
Qed.

Lemma submit_build_feedback_other build_id fb user new_id db b :
  b <> build_id ->
  length (feedback_for (submit_build_feedback build_id fb user new_id db).1 b)
  = length (feedback_for db b).
Proof.
  intros Hne. unfold submit_build_feedback.
  destruct (owned_build_job db build_id (User.id user)) as [job|] eqn:Hjob;
    [|done].
  destruct (List.find _ _) as [e|]; cbn [fst].
  - unfold feedback_for, update_rows. cbn [Models.feedback with_feedback].
    rewrite filter_fmap_stable, length_fmap; [done|].
    intros f. by case_bool_decide.
  - unfold feedback_for, insert_feedback. cbn [Models.feedback with_feedback].
    rewrite filter_app, filter_cons_False, filter_nil, app_nil_r; [done|].
    cbn. apply owned_build_job_id in Hjob. congruence.
Qed.

Variables (world : World) (current_user : User.t) (now : Z).

(** "At most one feedback row per build job" is kept by every route. *)
Lemma handle_keeps_feedback_unique req db b :
  (length (feedback_for db b) <= 1)%nat ->
  (length (feedback_for (handle world current_user now req db) b) <= 1)%nat.
Proof.
  intros Hinv.
  destruct req as [ | | | |pid| | | | | | | |tid| | |bid fb new_id| ];
    cbn [handle];
    try (match goal with
         | |- context [submit_build_feedback] => fail 1
         | |- context [delete_task] => fail 1
         | |- context [ProjectsApi.delete_project] => fail 1
         | _ => idtac
         end;
         unfold AuthApi.register_user, AuthApi.change_password,
           ProjectsApi.create_project, ProjectsApi.update_project,
           ProjectsApi.import_tags,
           create_task, insert_task, get_binary_search_candidates,
           candidates_step, select_candidates_for_testing, insert_iteration,
           update_task, pause_task, resume_task, trigger_builds,
           BuildsApi.get_build_status, refresh_status, cancel_build;
         repeat case_match; simplify_eq; exact Hinv).
  - unfold ProjectsApi.delete_project. case_match; [|done]. cbn [fst].
    etrans; [apply feedback_for_cascade|done].
  - unfold delete_task. case_match; [|done]. cbn [fst].
    etrans; [apply feedback_for_cascade|done].
  - destruct (decide (b = bid)) as [->|Hne].
    + destruct (owned_build_job db bid (User.id current_user))
        as [job|] eqn:Hjob.
      * destruct (submit_build_feedback_once bid fb current_user new_id db)
          as (_ & row & -> & _); [by rewrite Hjob|done|done].
      * unfold submit_build_feedback. by rewrite Hjob.
    + by rewrite submit_build_feedback_other.
Qed.
End FeedbackInvariant.

(** Hence it holds in every state reached by requests from a state where
    it holds, such as an empty feedback table. *)
Lemma run_keeps_feedback_unique (calls : list Api.call) : forall db b,
  (length (Spec.feedback_for db b) <= 1)%nat ->
  (length (Spec.feedback_for (Api.run calls db) b) <= 1)%nat.
Proof.
  induction calls as [|[[[world user] now] req] calls IH]; intros db b Hinv;
    [exact Hinv|].
  apply IH. by apply handle_keeps_feedback_unique.
Qed.

Lemma owned_build_job_update db build_id user job
    (g : BuildJob.t -> BuildJob.t) :
  (forall r, BuildJob.id (g r) = BuildJob.id r
             /\ BuildJob.task_id (g r) = BuildJob.task_id r) ->
  owned_build_job db build_id user = Some job ->
  owned_build_job
    (with_build_jobs db
       (update_rows BuildJob.id (BuildJob.id job) g (build_jobs db)))
    build_id user
  = Some (g job).
Proof.
  intros Hg Hjob. unfold owned_build_job, update_rows in *.
  cbn [build_jobs tasks with_build_jobs].
  rewrite find_fmap_stable.
  - rewrite Hjob. cbn. rewrite bool_decide_eq_true_2 by done. done.
  - intros r. cbn beta.
    destruct (bool_decide (BuildJob.id r = BuildJob.id job)); [|done].
    destruct (Hg r) as [-> ->]. done.
Qed.

(** C9.  Cancelling an owned build job: when it is pending or running, the
    record ends with status [cancelled] and a completion timestamp, whatever
    the build service does (no configuration, no external id, a failing or
    raising call); when it is already success, failed or cancelled, the
    response reports that status and the database is unchanged. *)
Theorem cancel_build_spec (create_service : BuildServices.Factory)
    (build_id : uuid) (user : User.t) (now : Z) (db : Db) (job : BuildJob.t)
    (Hjob : owned_build_job db build_id (User.id user) = Some job) :
  let out := cancel_build create_service build_id user now db in
  (BuildJob.status job ∈ [BuildStatus.PENDING; BuildStatus.RUNNING] ->
   exists job' response,
     out.2 = Ok response
     /\ status response = BuildStatus.CANCELLED
     /\ owned_build_job out.1 build_id (User.id user) = Some job'
     /\ BuildJob.status job' = BuildStatus.CANCELLED
     /\ is_Some (BuildJob.completed_at job')
     /\ Forall (fun r => BuildJob.id r = BuildJob.id job ->
                         BuildJob.status r = BuildStatus.CANCELLED
                         /\ is_Some (BuildJob.completed_at r))
               (build_jobs out.1))
  /\ (BuildJob.status job
      ∈ [BuildStatus.SUCCESS; BuildStatus.FAILED; BuildStatus.CANCELLED] ->
      out = (db, Ok (mkCancelResponse "Build is already completed" None
                       (BuildJob.status job)))).
Proof.
  cbn zeta. unfold cancel_build. rewrite Hjob. split; intros Hst.
  - rewrite bool_decide_eq_false_2.
    2:{ intros Hterm. apply (bool_decide_pack _) in Hst, Hterm.
        destruct (BuildJob.status job);
          (by vm_compute in Hst) || (by vm_compute in Hterm). }
    match goal with |- context [update_rows _ _ ?f _] => set (g := f) end.
    assert (forall r, BuildJob.status (g r) = BuildStatus.CANCELLED
                      /\ is_Some (BuildJob.completed_at (g r))
                      /\ BuildJob.id (g r) = BuildJob.id r
                      /\ BuildJob.task_id (g r) = BuildJob.task_id r) as Hg.
    { intros r. unfold g. cbn.
      destruct (BuildJob.completed_at r) eqn:Hc; cbn; rewrite ?Hc; eauto. }
    exists (g job). eexists. split; [reflexivity|]. split; [done|].
    cbn [fst]. split; [apply owned_build_job_update; [|done]|].
    { intros r. by destruct (Hg r) as (_ & _ & ? & ?). }
    destruct (Hg job) as (? & ? & _). split; [done|]. split; [done|].
    cbn [build_jobs with_build_jobs]. unfold update_rows.
    apply Forall_fmap, Forall_forall. intros r _ Hr. cbn in Hr.
    destruct (decide (BuildJob.id r = BuildJob.id job)) as [Heq|Hne].
    + rewrite bool_decide_eq_true_2 by done. by destruct (Hg r) as (? & ? & _).
    + rewrite bool_decide_eq_false_2 in Hr |- * by done. done.
  - rewrite bool_decide_eq_true_2 by done. done.
Qed.

Lemma cancel_build_spec_witness :
  let out := cancel_build Sample.failing_service "build-1" (Sample.alice true)
               99 (Sample.db true BuildStatus.RUNNING) in
  exists job',
    owned_build_job out.1 "build-1" "user-1" = Some job'
    /\ BuildJob.status job' = BuildStatus.CANCELLED
    /\ is_Some (BuildJob.completed_at job').
Proof.
  cbn zeta.
  destruct (cancel_build_spec Sample.failing_service "build-1"
              (Sample.alice true) 99 (Sample.db true BuildStatus.RUNNING)
              (Sample.build_job BuildStatus.RUNNING) eq_refl) as [Hopen _].
  destruct Hopen as (job' & response & _ & _ & Hjob & Hst & Hdone & _).
  - apply elem_of_cons. right. apply elem_of_cons. left. reflexivity.
  - exists job'. split; [exact Hjob|]. split; [exact Hst|exact Hdone].
Defined.

Section SessionFrame.
Import Models TasksApi BuildsApi Api Spec.






Variables (world : World) (current_user : User.t) (now : Z).

End SessionFrame.


Section SearchFrame.
Import Models TasksApi BuildsApi Api Spec.










Variables (world : World) (current_user : User.t) (now : Z).


End SearchFrame.


Import Models TasksApi BuildsApi Api.





(** * Further properties of the code *)

(** ** The search engine *)

Section SortFacts.
Context {A : Type} (key : A -> Z).
Import BinarySearch.

Lemma insert_by_perm x (l : list A) : insert_by key x l ≡ₚ x :: l.
Proof.
  induction l as [|y l IH]; [done|]. simpl.
  destruct (key x <=? key y); [done|]. rewrite IH. apply Permutation_swap.
Qed.

Lemma sort_by_perm (l : list A) : sort_by key l ≡ₚ l.
Proof.
  induction l as [|x l IH]; [done|].
  unfold sort_by in *. simpl. by rewrite insert_by_perm, IH.
Qed.

Lemma insert_by_sorted x (l : list A) :
  StronglySorted Z.le (key <$> l) ->
  StronglySorted Z.le (key <$> insert_by key x l).
Proof.
  induction l as [|y l IH]; intros Hs; [repeat constructor|].
  simpl. rewrite fmap_cons in Hs. apply StronglySorted_inv in Hs as [Hs Hy].
  destruct (Z.leb_spec (key x) (key y)).
  - rewrite !fmap_cons. constructor; [by constructor|].
    constructor; [done|]. eapply Forall_impl; [exact Hy|]. simpl. lia.
  - rewrite fmap_cons. constructor; [by apply IH|].
    rewrite (insert_by_perm x l), fmap_cons. constructor; [lia|done].
Qed.

Lemma sort_by_ascending (l : list A) :
  StronglySorted Z.le (key <$> sort_by key l).
Proof.
  induction l as [|x l IH]; [constructor|].
  unfold sort_by in *. simpl. by apply insert_by_sorted.
Qed.

Lemma insert_by_stable x (l : list A) k :
  filter (fun y => key y = k) (insert_by key x l)
  = filter (fun y => key y = k) (x :: l).
Proof.
  induction l as [|y l IH]; [done|]. simpl.
  destruct (Z.leb_spec (key x) (key y)); [done|].
  rewrite filter_cons, IH, !filter_cons.
  destruct (decide (key y = k)), (decide (key x = k)); try done. lia.
Qed.

Lemma sort_by_stable (l : list A) k :
  filter (fun y => key y = k) (sort_by key l) = filter (fun y => key y = k) l.
Proof.
  induction l as [|x l IH]; [done|].
  unfold sort_by in *. simpl. rewrite insert_by_stable, !filter_cons, IH. done.
Qed.
End SortFacts.

Section FindIndex.
Import BinarySearch.

Lemma find_index_from_Some l tag_id : forall k i,
  find_index_from l tag_id k = Some i ->
  k <= i < k + Z.of_nat (length l)
  /\ (exists tag, l !! Z.to_nat (i - k) = Some tag /\ Tag.id tag = tag_id)
  /\ (forall j tag, (j < Z.to_nat (i - k))%nat -> l !! j = Some tag ->
                    Tag.id tag <> tag_id).
Proof.
  induction l as [|x l IH]; intros k i Hfind; [done|].
  simpl in Hfind. case_bool_decide as Hx.
  - injection Hfind as <-. rewrite Z.sub_diag. simpl.
    split; [lia|]. split; [by exists x|]. intros j tag Hj. lia.
  - apply IH in Hfind as (Hi & (tag & Htag & Hid) & Hbefore).
    simpl length. split; [lia|].
    replace (Z.to_nat (i - k)) with (S (Z.to_nat (i - (k + 1)))) by lia.
    split; [by exists tag|].
    intros [|j] tag' Hj Hl; simpl in Hl; [congruence|].
    eapply Hbefore; [|done]. lia.
Qed.

Lemma find_index_from_None l tag_id k :
  find_index_from l tag_id k = None <->
  forall tag, tag ∈ l -> Tag.id tag <> tag_id.
Proof.
  revert k. induction l as [|x l IH]; intros k; simpl.
  - split; [|done]. intros _ tag Hin. by apply elem_of_nil in Hin.
  - case_bool_decide as Hx.
    + split; [done|]. intros Hall. exfalso. eapply Hall; [left|done].
    + rewrite IH. split.
      * intros Hall tag Hin. apply elem_of_cons in Hin as [->|Hin]; auto.
      * intros Hall tag Hin. apply Hall. by right.
Qed.

Lemma find_index_from_unique l : forall k n tag,
  NoDup (Tag.id <$> l) -> l !! n = Some tag ->
  find_index_from l (Tag.id tag) k = Some (k + Z.of_nat n).
Proof.
  induction l as [|x l IH]; intros k n tag Hnd Hl; [done|].
  rewrite fmap_cons in Hnd. apply NoDup_cons in Hnd as [Hx Hnd].
  destruct n as [|n]; simpl in Hl |- *.
  - injection Hl as ->. rewrite bool_decide_eq_true_2 by done.
    f_equal. lia.
  - rewrite bool_decide_eq_false_2.
    + rewrite (IH (k + 1) n tag) by done. f_equal. lia.
    + intros Heq. apply Hx. rewrite Heq.
      apply list_elem_of_fmap_2. by eapply list_elem_of_lookup_2.
Qed.

Lemma py_getitem_nonneg {A} (l : list A) i x :
  0 <= i -> py_getitem l i = Ok x -> l !! Z.to_nat i = Some x.
Proof.
  intros Hi. unfold py_getitem.
  destruct (Z.ltb_spec i 0); [lia|].
  destruct (_ && _); [|done].
  destruct (l !! Z.to_nat i); congruence.
Qed.

Lemma py_getitem_lookup {A} (l : list A) (n : nat) x :
  l !! n = Some x -> py_getitem l (Z.of_nat n) = Ok x.
Proof.
  intros Hl. unfold py_getitem.
  pose proof (lookup_lt_Some _ _ _ Hl).
  destruct (Z.ltb_spec (Z.of_nat n) 0); [lia|].
  destruct (Z.leb_spec 0 (Z.of_nat n)); [|lia].
  destruct (Z.ltb_spec (Z.of_nat n) (Z.of_nat (length l))); [|lia].
  simpl. by rewrite Nat2Z.id, Hl.
Qed.
End FindIndex.

(** X1.  [find_tag_index(tag_id)] returns the first index whose tag has the
    given id: when it returns an index, the index is within the list, the
    tag read there with [tags[i]] has the id, and no tag at a smaller index
    has it; it returns [None] exactly when no tag of the list has the id. *)
Theorem find_tag_index_first (self : BinarySearch.BinarySearchEngine)
    (tag_id : string) :
  match BinarySearch.find_tag_index self tag_id with
  | Some i =>
      0 <= i < Z.of_nat (length (BinarySearch.tags self))
      /\ (exists tag, py_getitem (BinarySearch.tags self) i = Ok tag
                      /\ Tag.id tag = tag_id)
      /\ (forall j tag, 0 <= j < i ->
                        py_getitem (BinarySearch.tags self) j = Ok tag ->
                        Tag.id tag <> tag_id)
  | None => forall tag, tag ∈ BinarySearch.tags self -> Tag.id tag <> tag_id
  end.
Proof.
  unfold BinarySearch.find_tag_index.
  destruct (BinarySearch.find_index_from _ _ _) as [i|] eqn:Hfind.
  - apply find_index_from_Some in Hfind as (Hi & (tag & Htag & Hid) & Hbefore).
    rewrite Z.sub_0_r in *. split; [lia|]. split.
    + exists tag. split; [|done].
      rewrite <- (Z2Nat.id i) by lia. by apply py_getitem_lookup.
    + intros j tag' Hj Hget. apply py_getitem_nonneg in Hget; [|lia].
      eapply Hbefore; [|done]. lia.
  - exact (proj1 (find_index_from_None _ _ _) Hfind).
Qed.

Lemma find_tag_index_first_witness :
  BinarySearch.find_tag_index Sample.engine "6" = Some 6
  /\ exists tag, py_getitem (BinarySearch.tags Sample.engine) 6 = Ok tag
                 /\ Tag.id tag = "6".
Proof.
  pose proof (find_tag_index_first Sample.engine "6") as H.
  change (BinarySearch.find_tag_index Sample.engine "6") with (Some 6) in H.
  split; [reflexivity|]. exact (proj1 (proj2 H)).
Defined.

(** X2.  The engine's constructor sorts the tags by [sequence_number or 0]:
    the engine holds the same tags, in ascending order of that key, and tags
    with equal keys (among them all tags without a sequence number and
    those numbered 0) keep the order in which they were passed. *)
Theorem init_sorts_tags (tags0 : list Tag.t) :
  let key := fun x => BinarySearch.seq_or_0 (Tag.sequence_number x) in
  let self := BinarySearch.init tags0 in
  BinarySearch.tags self ≡ₚ tags0
  /\ StronglySorted Z.le (key <$> BinarySearch.tags self)
  /\ forall k, filter (fun x => key x = k) (BinarySearch.tags self)
               = filter (fun x => key x = k) tags0.
Proof.
  cbn zeta. simpl. split; [apply sort_by_perm|].
  split; [apply sort_by_ascending|]. intros k. apply sort_by_stable.
Qed.

Section TagMap.
Import BinarySearch.

Lemma tag_map_lookup (l : list Tag.t) : forall (m : gmap string TagInfo.t) k,
  foldl (fun m tag => <[Tag.id tag := tag_info tag]> m) m l !! k
  = match last (filter (fun x => Tag.id x = k) l) with
    | Some x => Some (tag_info x)
    | None => m !! k
    end.
Proof.
  induction l as [|x l IH]; intros m k; [done|].
  cbn [foldl]. rewrite IH, filter_cons.
  destruct (decide (Tag.id x = k)) as [Hx|Hx].
  - rewrite last_cons. destruct (last _); [done|].
    by rewrite Hx, lookup_insert_eq.
  - destruct (last _); [done|]. by rewrite lookup_insert_ne.
Qed.

Lemma last_elem_of {A} (l : list A) x : last l = Some x -> x ∈ l.
Proof.
  intros H. apply last_Some in H as [l' ->]. apply elem_of_app. right. left.
Qed.

Lemma tag_map_Some (l : list Tag.t) k info :
  foldl (fun m tag => <[Tag.id tag := tag_info tag]> m)
        (∅ : gmap string TagInfo.t) l !! k = Some info ->
  exists tag, tag ∈ l /\ Tag.id tag = k /\ info = tag_info tag.
Proof.
  rewrite tag_map_lookup.
  destruct (last _) as [x|] eqn:Hlast; [|by rewrite lookup_empty].
  intros [= <-]. apply last_elem_of, list_elem_of_filter in Hlast as [Hid Hin].
  eauto.
Qed.

Lemma tag_map_None (l : list Tag.t) k :
  foldl (fun m tag => <[Tag.id tag := tag_info tag]> m)
        (∅ : gmap string TagInfo.t) l !! k = None ->
  forall tag, tag ∈ l -> Tag.id tag <> k.
Proof.
  rewrite tag_map_lookup.
  destruct (last _) as [x|] eqn:Hlast; [done|]. intros _ tag Hin Hid.
  apply last_None in Hlast.
  assert (tag ∈ filter (fun x => Tag.id x = k) l) as Hf
    by (by apply list_elem_of_filter).
  rewrite Hlast in Hf. by apply elem_of_nil in Hf.
Qed.
End TagMap.

(** X3.  For an engine built by the constructor, [get_tag_info(tag_id)]
    returns the [TagInfo] of a tag of the list with that id, and [None]
    exactly when no tag has the id; it finds a tag exactly when
    [find_tag_index] finds an index, and when tag ids are unique the info
    returned is that of the tag at the index [find_tag_index] returns. *)
Theorem get_tag_info_init (tags0 : list Tag.t) (tag_id : string) :
  let self := BinarySearch.init tags0 in
  match BinarySearch.get_tag_info self tag_id with
  | Some info =>
      TagInfo.id info = tag_id
      /\ exists tag, tag ∈ tags0 /\ Tag.id tag = tag_id
                     /\ info = BinarySearch.tag_info tag
  | None => forall tag, tag ∈ tags0 -> Tag.id tag <> tag_id
  end
  /\ (is_Some (BinarySearch.get_tag_info self tag_id)
      <-> is_Some (BinarySearch.find_tag_index self tag_id))
  /\ (NoDup (Tag.id <$> tags0) ->
      forall i, BinarySearch.find_tag_index self tag_id = Some i ->
        exists tag,
          py_getitem (BinarySearch.tags self) i = Ok tag
          /\ BinarySearch.get_tag_info self tag_id
             = Some (BinarySearch.tag_info tag)).
Proof.
  cbn zeta. unfold BinarySearch.get_tag_info, BinarySearch.find_tag_index.
  simpl.
  set (sorted := BinarySearch.sort_by _ tags0).
  assert (sorted ≡ₚ tags0) as Hperm by apply sort_by_perm.
  split; [|split].
  - destruct (foldl _ _ _ !! tag_id) as [info|] eqn:Hmap.
    + apply tag_map_Some in Hmap as (tag & Hin & Hid & ->).
      split; [done|]. exists tag. by rewrite <- Hperm.
    + intros tag Hin. eapply tag_map_None; [done|]. by rewrite Hperm.
  - split.
    + intros [info Hmap]. apply tag_map_Some in Hmap as (tag & Hin & Hid & _).
      destruct (BinarySearch.find_index_from sorted tag_id 0) eqn:Hfind;
        [done|].
      destruct (proj1 (find_index_from_None _ _ _) Hfind tag Hin Hid).
    + intros [i Hfind].
      apply find_index_from_Some in Hfind as (_ & (tag & Htag & Hid) & _).
      destruct (foldl _ _ _ !! tag_id) eqn:Hmap; [done|].
      destruct (tag_map_None _ _ Hmap tag); [|done].
      by eapply list_elem_of_lookup_2.
  - intros Hnd i Hfind.
    apply find_index_from_Some in Hfind as (Hi & (tag & Htag & Hid) & _).
    rewrite Z.sub_0_r in Htag. exists tag. split.
    + rewrite <- (Z2Nat.id i) by lia. by apply py_getitem_lookup.
    + destruct (foldl _ _ _ !! tag_id) as [info|] eqn:Hmap.
      * apply tag_map_Some in Hmap as (tag' & Hin & Hid' & ->).
        f_equal. f_equal.
        apply (NoDup_fmap_eq Tag.id sorted); [by rewrite Hperm| done | |congruence].
        by eapply list_elem_of_lookup_2.
      * destruct (tag_map_None _ _ Hmap tag); [|done].
        by eapply list_elem_of_lookup_2.
Qed.

Lemma get_tag_info_init_witness :
  exists tag,
    py_getitem (BinarySearch.tags Sample.engine) 6 = Ok tag
    /\ BinarySearch.get_tag_info Sample.engine "6"
       = Some (BinarySearch.tag_info tag).
Proof.
  destruct (get_tag_info_init Sample.tags25 "6") as (_ & _ & H).
  apply (H ltac:(by apply (bool_decide_unpack _)) 6). reflexivity.
Defined.

Section Feedback.
Import BinarySearch.

Lemma foldl_permutation {A B} (f : B -> A -> B) (l l' : list A) :
  (forall b x y, f (f b x) y = f (f b y) x) ->
  l ≡ₚ l' -> forall b, foldl f b l = foldl f b l'.
Proof.
  intros Hf. induction 1 as [|x l l' _ IH|x y l|l l' l'' _ IH1 _ IH2];
    intros b; cbn [foldl]; [done|done|by rewrite Hf|].
  by rewrite IH1.
Qed.

Lemma dict_update_lookup_ne (items : list (string * string)) :
  forall (d : gmap string string) k,
  k ∉ items.*1 -> dict_update d items !! k = d !! k.
Proof.
  unfold dict_update.
  induction items as [|[k0 v0] items IH]; intros d k Hk; [done|].
  cbn [foldl]. rewrite fmap_cons in Hk. apply not_elem_of_cons in Hk as [? ?].
  rewrite IH by done. simpl. by rewrite lookup_insert_ne.
Qed.

Lemma dict_update_lookup (items : list (string * string)) :
  forall (d : gmap string string) k v,
  NoDup items.*1 -> (k, v) ∈ items -> dict_update d items !! k = Some v.
Proof.
  induction items as [|[k0 v0] items IH]; intros d k v Hnd Hin.
  { by apply elem_of_nil in Hin. }
  rewrite fmap_cons in Hnd. apply NoDup_cons in Hnd as [Hk0 Hnd].
  apply elem_of_cons in Hin as [[= -> ->]|Hin].
  - transitivity ((<[k0:=v0]> d) !! k0).
    + by apply (dict_update_lookup_ne items (<[k0:=v0]> d)).
    + by rewrite lookup_insert_eq.
  - by apply (IH (<[k0:=v0]> d)).
Qed.
End Feedback.

(** X4.  The bounds [update_range] returns do not depend on the order in
    which the feedback dictionary enumerates its entries. *)
Theorem update_range_order_independent (self : BinarySearch.BinarySearchEngine)
    (state : BinarySearchState.t) (feedback feedback' : list (string * string))
    (Hperm : feedback ≡ₚ feedback') :
  (BinarySearch.update_range self state feedback).1
  = (BinarySearch.update_range self state feedback').1.
Proof.
  unfold BinarySearch.update_range. simpl. f_equal.
  - apply foldl_permutation; [|done].
    intros b [t1 v1] [t2 v2].
    repeat case_bool_decide; repeat case_match; lia.
  - apply foldl_permutation; [|done].
    intros b [t1 v1] [t2 v2].
    repeat case_bool_decide; repeat case_match; lia.
Qed.

Lemma update_range_order_independent_witness :
  (BinarySearch.update_range Sample.engine (BinarySearchState.mk 0 24 1 ∅ 25)
     [("6", "working"); ("13", "broken")]).1
  = (BinarySearch.update_range Sample.engine (BinarySearchState.mk 0 24 1 ∅ 25)
       [("13", "broken"); ("6", "working")]).1.
Proof.
  apply update_range_order_independent. apply Permutation_swap.
Defined.

(** X5.  [update_range] records the feedback in the state's [tested_tags]:
    afterwards every entry of the feedback dictionary is found there with
    its verdict, and the entry of every other tag is what it was. *)
Theorem update_range_records_feedback (self : BinarySearch.BinarySearchEngine)
    (state : BinarySearchState.t) (feedback : list (string * string))
    (Hdict : NoDup feedback.*1) :
  let tested :=
    BinarySearchState.tested_tags
      (BinarySearch.update_range self state feedback).2 in
  (forall tag_id verdict, (tag_id, verdict) ∈ feedback ->
     tested !! tag_id = Some verdict)
  /\ (forall tag_id, tag_id ∉ feedback.*1 ->
        tested !! tag_id = BinarySearchState.tested_tags state !! tag_id)
  /\ BinarySearchState.good_index
       (BinarySearch.update_range self state feedback).2
     = BinarySearchState.good_index state
  /\ BinarySearchState.bad_index
       (BinarySearch.update_range self state feedback).2
     = BinarySearchState.bad_index state.
Proof.
  cbn zeta. simpl. split; [|split; [|done]].
  - intros tag_id verdict Hin. by apply dict_update_lookup.
  - intros tag_id Hin. by apply dict_update_lookup_ne.
Qed.

Lemma update_range_records_feedback_witness :
  BinarySearchState.tested_tags
    (BinarySearch.update_range Sample.engine
       (BinarySearchState.mk 0 24 1 {["4" := "working"]} 25)
       [("6", "working"); ("13", "broken")]).2 !! "13" = Some "broken".
Proof.
  apply (update_range_records_feedback Sample.engine
           (BinarySearchState.mk 0 24 1 {["4" := "working"]} 25)
           [("6", "working"); ("13", "broken")]).
  - by apply (bool_decide_unpack _).
  - right. left.
Defined.

Section EngineOutcomes.
Import BinarySearch.
Variable self : BinarySearchEngine.

Lemma py_getitem_Raise {A} (l : list A) i e :
  py_getitem l i = Raise e ->
  e = IndexError /\ ~ (- Z.of_nat (length l) <= i < Z.of_nat (length l)).
Proof.
  intros Hget. split.
  - unfold py_getitem in Hget. repeat case_match; congruence.
  - intros Hi. destruct (py_getitem_valid l i Hi) as [x Hx]. congruence.
Qed.

Lemma append_candidate_cases i cands :
  (exists c, append_candidate self i cands = Ok (cands ++ [c])
             /\ SearchCandidate.position c = i /\ candidate_at self c)
  \/ (append_candidate self i cands = Raise IndexError
      /\ ~ addressable self i).
Proof.
  unfold append_candidate.
  destruct (py_getitem (tags self) i) as [tag|e] eqn:Hget.
  - left. exists (SearchCandidate.mk i (tag_info tag) false).
    simpl. repeat split. exists tag. done.
  - right. apply py_getitem_Raise in Hget as [-> Hi]. done.
Qed.

Lemma enumeration_loop_cases n : forall a cands,
  (exists cs,
     for_in (seqZ a (Z.of_nat n))
       (fun i candidates => Next <$> append_candidate self i candidates) cands
     = Ok (cands ++ cs)
     /\ SearchCandidate.position <$> cs = seqZ a (Z.of_nat n)
     /\ Forall (candidate_at self) cs)
  \/ (for_in (seqZ a (Z.of_nat n))
        (fun i candidates => Next <$> append_candidate self i candidates) cands
      = Raise IndexError
      /\ exists i, a <= i < a + Z.of_nat n /\ ~ addressable self i).
Proof.
  induction n as [|n IH]; intros a cands.
  - left. exists []. simpl. rewrite app_nil_r. done.
  - rewrite seqZ_cons by lia.
    replace (Z.pred (Z.of_nat (S n))) with (Z.of_nat n) by lia.
    cbn [for_in].
    destruct (append_candidate_cases a cands)
      as [(c & Hc & Hpos & Hat)|[Hc Hna]]; rewrite Hc; cbn [fmap result_fmap].
    + destruct (IH (Z.succ a) (cands ++ [c]))
        as [(cs & Hcs & Hmap & Hall)|(Hcs & i & Hi & Hna)].
      * left. exists (c :: cs). rewrite Hcs, <- app_assoc.
        split; [done|]. split; [by rewrite fmap_cons, Hpos, Hmap|].
        by constructor.
      * right. split; [done|]. exists i. split; [lia|done].
    + right. split; [done|]. exists a. split; [lia|done].
Qed.

Variables good_index bad_index : Z.
Hypothesis Hrange : 12 <= bad_index - good_index.

Lemma division_loop_cases n : forall a cands,
  1 <= a -> a + Z.of_nat n <= 11 ->
  Forall (fun c => SearchCandidate.position c
                   < division_position good_index bad_index a) cands ->
  let loop :=
    for_in (seqZ a (Z.of_nat n))
      (fun i candidates =>
         let position :=
           good_index
           + py_int (inject_Z (bad_index - good_index) / 11 * inject_Z i)%Q in
         if (position <? bad_index) && (good_index <? position) then
           if negb (has_position position candidates) then
             Next <$> append_candidate self position candidates
           else Ok (Next candidates)
         else Ok (Next candidates)) cands in
  (exists cs,
     loop = Ok (cands ++ cs)
     /\ SearchCandidate.position <$> cs
        = division_position good_index bad_index <$> seqZ a (Z.of_nat n)
     /\ Forall (candidate_at self) cs)
  \/ (loop = Raise IndexError
      /\ exists i, good_index < i < bad_index /\ ~ addressable self i).
Proof.
  cbv zeta.
  match goal with |- context [for_in _ ?f _] => set (body := f) end.
  induction n as [|n IH]; intros a cands Ha Hn Hbelow.
  - left. exists []. simpl. rewrite app_nil_r. done.
  - rewrite seqZ_cons by lia.
    replace (Z.pred (Z.of_nat (S n))) with (Z.of_nat n) by lia.
    pose proof (division_position_bounds good_index bad_index Hrange a
                  ltac:(lia)) as Hb.
    rewrite for_in_cons. unfold body at 1 3. cbv beta zeta.
    rewrite py_int_interval by lia.
    fold (division_position good_index bad_index a).
    destruct (Z.ltb_spec (division_position good_index bad_index a)
                bad_index); [|lia].
    destruct (Z.ltb_spec good_index
                (division_position good_index bad_index a)); [|lia].
    rewrite has_position_below by done. cbn [andb negb].
    destruct (append_candidate_cases
                (division_position good_index bad_index a) cands)
      as [(c & Hc & Hpos & Hat)|[Hc Hna]]; rewrite Hc; cbn [fmap result_fmap].
    + destruct (IH (Z.succ a) (cands ++ [c]))
        as [(cs & Hcs & Hmap & Hall)|(Hcs & i & Hi & Hna)].
      { lia. } { lia. }
      { pose proof (division_position_step good_index bad_index Hrange a
                      ltac:(lia)) as Hstep.
        replace (Z.succ a) with (a + 1) by lia.
        apply Forall_app. split.
        - eapply Forall_impl; [exact Hbelow|]. simpl. intros; lia.
        - repeat constructor. lia. }
      * left. exists (c :: cs). rewrite Hcs, <- app_assoc.
        split; [done|]. split; [by rewrite !fmap_cons, Hpos, Hmap|].
        by constructor.
      * right. split; [done|]. by exists i.
    + right. split; [done|]. by exists (division_position good_index bad_index a).
Qed.
End EngineOutcomes.

Section CandidateOutcomes.
Import BinarySearch.

(** Every outcome of [generate_candidates]. *)
Lemma generate_candidates_cases (self : BinarySearchEngine)
    (good_index bad_index : Z) :
  (bad_index <= good_index
   /\ generate_candidates self good_index bad_index
      = Raise (ValueError "Bad index must be greater than good index"))
  \/ (good_index < bad_index
      /\ generate_candidates self good_index bad_index = Raise IndexError
      /\ exists i, good_index < i < bad_index /\ ~ addressable self i)
  \/ (good_index < bad_index
      /\ exists cs,
           generate_candidates self good_index bad_index = Ok cs
           /\ Z.of_nat (length cs) = Z.min 10 (bad_index - good_index - 1)
           /\ StronglySorted Z.lt (SearchCandidate.position <$> cs)
           /\ Forall (fun c => good_index < SearchCandidate.position c
                               < bad_index /\ candidate_at self c) cs).
Proof.
  unfold generate_candidates.
  destruct (Z.leb_spec bad_index good_index) as [Hle|Hlt]; [by left|].
  right. cbv zeta.
  destruct (Z.leb_spec (bad_index - good_index - 1) 10) as [Hsmall|Hlarge].
  - set (n := Z.to_nat (bad_index - good_index - 1)).
    unfold range.
    replace (bad_index - (good_index + 1)) with (Z.of_nat n) by lia.
    destruct (enumeration_loop_cases self n (good_index + 1) [])
      as [(cs & Hloop & Hpos & Hat)|(Hloop & i & Hi & Hna)]; rewrite Hloop.
    + right. split; [done|]. exists cs. split; [done|].
      assert (length cs = n) as Hlen.
      { rewrite <- (length_fmap SearchCandidate.position), Hpos, length_seqZ.
        lia. }
      split; [lia|]. split; [rewrite Hpos; apply seqZ_sorted|].
      apply Forall_forall. intros c Hc. split.
      * assert (SearchCandidate.position c ∈ seqZ (good_index + 1) (Z.of_nat n))
          as Hin by (rewrite <- Hpos; by apply list_elem_of_fmap_2).
        apply elem_of_seqZ in Hin. lia.
      * rewrite Forall_forall in Hat. by apply Hat.
    + left. split; [done|]. split; [done|]. exists i. split; [lia|done].
  - change (range 1 11) with (seqZ 1 (Z.of_nat 10)).
    destruct (division_loop_cases self good_index bad_index ltac:(lia)
                10 1 []) as [(cs & Hloop & Hpos & Hat)|(Hloop & Hna)];
      [lia | lia | done | |]; cbv zeta in Hloop; rewrite Hloop;
      cbn [mbind result_bind app].
    + pose proof (division_positions_sorted good_index bad_index ltac:(lia)
                    10 1 ltac:(lia)) as Hsorted.
      rewrite <- Hpos in Hsorted.
      assert (length cs = 10%nat) as Hlen.
      { rewrite <- (length_fmap SearchCandidate.position), Hpos, length_fmap.
        done. }
      right. split; [done|]. exists cs.
      rewrite sort_by_sorted by done. rewrite Hlen.
      split; [done|]. split; [lia|]. split; [done|].
      apply Forall_forall. intros c Hc. split.
      * assert (SearchCandidate.position c
                ∈ division_position good_index bad_index
                    <$> seqZ 1 (Z.of_nat 10))
          as Hin by (rewrite <- Hpos; by apply list_elem_of_fmap_2).
        apply list_elem_of_fmap in Hin as (i & -> & Hi).
        apply elem_of_seqZ in Hi.
        apply division_position_bounds; lia.
      * rewrite Forall_forall in Hat. by apply Hat.
    + left. done.
Qed.
End CandidateOutcomes.

(** X6.  Whatever [generate_candidates] returns, for any engine and any two
    indices (negative ones included): the good index is below the bad
    index, the number of candidates is the smaller of 10 and the number of
    indices strictly between the two, the positions are strictly
    increasing and strictly between the two indices, and every candidate
    carries the tag found at its position, not yet selected. *)
Theorem generate_candidates_sound (self : BinarySearch.BinarySearchEngine)
    (good_index bad_index : Z) (cs : list SearchCandidate.t)
    (Hcs : BinarySearch.generate_candidates self good_index bad_index = Ok cs) :
  good_index < bad_index
  /\ Z.of_nat (length cs) = Z.min 10 (bad_index - good_index - 1)
  /\ StronglySorted Z.lt (SearchCandidate.position <$> cs)
  /\ Forall (fun c => good_index < SearchCandidate.position c < bad_index
                      /\ BinarySearch.candidate_at self c) cs.
Proof.
  destruct (generate_candidates_cases self good_index bad_index)
    as [[_ H]|[(_ & H & _)|(Hlt & cs' & H & Hrest)]]; [congruence..|].
  rewrite Hcs in H. injection H as <-. done.
Qed.

Lemma generate_candidates_sound_witness :
  exists cs,
    BinarySearch.generate_candidates Sample.engine (-20) (-3) = Ok cs
    /\ Z.of_nat (length cs) = 10
    /\ Forall (fun c => -20 < SearchCandidate.position c < -3
                        /\ BinarySearch.candidate_at Sample.engine c) cs.
Proof.
  destruct (BinarySearch.generate_candidates Sample.engine (-20) (-3))
    as [cs|e] eqn:Hcs; [|by vm_compute in Hcs].
  exists cs. split; [done|].
  destruct (generate_candidates_sound Sample.engine (-20) (-3) cs Hcs)
    as (_ & Hlen & _ & Hall).
  split; [exact Hlen | exact Hall].
Defined.

(** X7.  The failures of [generate_candidates] for indices less than 2^48
    apart, where the step [(bad_index - good_index) / 11.0] is far from
    the limits of the floats and [int(good_index + i * step)] is the
    integer part of the exact value.  There are two only: the [ValueError]
    "Bad index must be greater than good index", exactly when
    [bad_index <= good_index], and an [IndexError], which happens only
    when some index strictly between the two does not address a tag of the
    engine's list. *)
Theorem generate_candidates_errors (self : BinarySearch.BinarySearchEngine)
    (good_index bad_index : Z) (Hgap : bad_index - good_index < 2 ^ 48) :
  (bad_index <= good_index <->
   BinarySearch.generate_candidates self good_index bad_index
   = Raise (ValueError "Bad index must be greater than good index"))
  /\ forall e,
       BinarySearch.generate_candidates self good_index bad_index = Raise e ->
       e = ValueError "Bad index must be greater than good index"
       \/ (e = IndexError
           /\ exists i, good_index < i < bad_index
                        /\ ~ BinarySearch.addressable self i).
Proof.
  destruct (generate_candidates_cases self good_index bad_index)
    as [[Hle H]|[(Hlt & H & Hna)|(Hlt & cs' & H & _)]]; rewrite H.
  - split; [done|]. intros e [= <-]. by left.
  - split; [split; [lia|done]|]. intros e [= <-]. by right.
  - split; [split; [lia|done]|]. done.
Qed.

Lemma generate_candidates_errors_witness :
  exists i, 0 < i < 40 /\ ~ BinarySearch.addressable Sample.engine i.
Proof.
  destruct (generate_candidates_errors Sample.engine 0 40 ltac:(lia))
    as [_ H].
  destruct (H IndexError) as [Hv|[_ Hi]];
    [by vm_compute | discriminate Hv | exact Hi].
Defined.

(** X8.  The engine names a culprit exactly when it has nothing left to
    propose: whenever [generate_candidates] returns, its list is non-empty
    if and only if [is_complete] is false, which is when
    [get_problematic_tag] returns [None]; and when the list is empty
    [get_problematic_tag] returns the tag at the bad index (or raises the
    [IndexError] of that lookup). *)
Theorem candidates_or_culprit (self : BinarySearch.BinarySearchEngine)
    (good_index bad_index : Z) (cs : list SearchCandidate.t)
    (Hcs : BinarySearch.generate_candidates self good_index bad_index = Ok cs) :
  (cs <> [] <-> BinarySearch.is_complete good_index bad_index = false)
  /\ (cs <> [] <->
      BinarySearch.get_problematic_tag self good_index bad_index = Ok None)
  /\ (cs = [] ->
      BinarySearch.get_problematic_tag self good_index bad_index
      = (fun tag => Some (BinarySearch.tag_info tag))
          <$> py_getitem (BinarySearch.tags self) bad_index).
Proof.
  destruct (generate_candidates_cases self good_index bad_index)
    as [[_ H]|[(_ & H & _)|(Hlt & cs' & H & Hlen & _)]]; [congruence..|].
  rewrite Hcs in H. injection H as <-.
  unfold BinarySearch.get_problematic_tag, BinarySearch.is_complete.
  assert (cs <> [] <-> bad_index - good_index <> 1) as Hne.
  { destruct cs; simpl in Hlen; split; intros H; try done; lia. }
  destruct (Z.eqb_spec (bad_index - good_index) 1) as [Hone|Hmany].
  - split; [|split].
    + rewrite Hne. done.
    + rewrite Hne. split; [done|].
      destruct (py_getitem _ _); done.
    + intros _. by destruct (py_getitem _ _).
  - split; [by rewrite Hne|]. split; [by rewrite Hne|].
    intros ->. by destruct Hne as [_ []].
Qed.

Lemma candidates_or_culprit_witness :
  BinarySearch.get_problematic_tag Sample.engine 12 13
  = (fun tag => Some (BinarySearch.tag_info tag))
      <$> py_getitem (BinarySearch.tags Sample.engine) 13.
Proof.
  apply (candidates_or_culprit Sample.engine 12 13 []); reflexivity.
Defined.

(** X9.  Feedback on a proposed candidate narrows the search.  For an
    engine whose tag ids are unique and a state with a non-negative good
    index: marking any candidate returned by [generate_candidates]
    "working" moves the good index to that candidate's position and leaves
    the bad index, marking it "broken" moves the bad index there and
    leaves the good index; the position is strictly between the old
    bounds, so the range shrinks and stays in order. *)
Theorem feedback_on_candidate_narrows (self : BinarySearch.BinarySearchEngine)
    (state : BinarySearchState.t) (cs : list SearchCandidate.t)
    (c : SearchCandidate.t)
    (Hids : NoDup (Tag.id <$> BinarySearch.tags self))
    (Hgood : 0 <= BinarySearchState.good_index state)
    (Hcs : BinarySearch.generate_candidates self
             (BinarySearchState.good_index state)
             (BinarySearchState.bad_index state) = Ok cs)
    (Hc : c ∈ cs) :
  let tag_id := TagInfo.id (SearchCandidate.tag c) in
  BinarySearchState.good_index state < SearchCandidate.position c
    < BinarySearchState.bad_index state
  /\ (BinarySearch.update_range self state [(tag_id, "working")]).1
     = (SearchCandidate.position c, BinarySearchState.bad_index state)
  /\ (BinarySearch.update_range self state [(tag_id, "broken")]).1
     = (BinarySearchState.good_index state, SearchCandidate.position c).
Proof.
  cbn zeta.
  destruct (generate_candidates_cases self
              (BinarySearchState.good_index state)
              (BinarySearchState.bad_index state))
    as [[_ H]|[(_ & H & _)|(_ & cs' & H & _ & _ & Hall)]]; [congruence..|].
  rewrite Hcs in H. injection H as <-.
  rewrite Forall_forall in Hall.
  destruct (Hall c Hc) as (Hpos & tag & Hget & Htag & _).
  split; [done|].
  apply py_getitem_nonneg in Hget; [|lia].
  assert (BinarySearch.find_tag_index self (TagInfo.id (SearchCandidate.tag c))
          = Some (SearchCandidate.position c)) as Hfind.
  { rewrite Htag. simpl. unfold BinarySearch.find_tag_index.
    rewrite (find_index_from_unique _ 0 _ tag Hids Hget). f_equal. lia. }
  unfold BinarySearch.update_range. simpl. rewrite Hfind.
  split; f_equal; lia.
Qed.

Lemma feedback_on_candidate_narrows_witness :
  (BinarySearch.update_range Sample.engine (BinarySearchState.mk 0 24 1 ∅ 25)
     [("13", "working")]).1 = (13, 24)
  /\ (BinarySearch.update_range Sample.engine
        (BinarySearchState.mk 0 24 1 ∅ 25) [("13", "broken")]).1 = (0, 13).
Proof.
  destruct (BinarySearch.generate_candidates Sample.engine 0 24)
    as [cs|e] eqn:Hcs; [|by vm_compute in Hcs].
  pose (c := SearchCandidate.mk 13 (BinarySearch.tag_info (Sample.tag 13))
                                false).
  assert (c ∈ cs) as Hc.
  { vm_compute in Hcs. injection Hcs as <-. do 5 right. left. }
  exact (proj2 (feedback_on_candidate_narrows Sample.engine
                  (BinarySearchState.mk 0 24 1 ∅ 25) cs c
                  ltac:(by apply (bool_decide_unpack _)) ltac:(simpl; lia)
                  Hcs Hc)).
Defined.

(** X10.  Feedback that is consistent keeps the range a range: when the
    good index is below the bad index, every tag marked "working" lies
    below the bad index and below every tag marked "broken", and every tag
    marked "broken" lies above the good index, the bounds [update_range]
    returns are in order, [new_good < new_bad], so the next
    [generate_candidates] call is not refused with the [ValueError]. *)
Theorem update_range_keeps_order (self : BinarySearch.BinarySearchEngine)
    (state : BinarySearchState.t) (feedback : list (string * string))
    (Hrange : BinarySearchState.good_index state
              < BinarySearchState.bad_index state)
    (Hworking : forall tag_id i, (tag_id, "working") ∈ feedback ->
        BinarySearch.find_tag_index self tag_id = Some i ->
        i < BinarySearchState.bad_index state)
    (Hbroken : forall tag_id i, (tag_id, "broken") ∈ feedback ->
        BinarySearch.find_tag_index self tag_id = Some i ->
        BinarySearchState.good_index state < i)
    (Hconsistent : forall w b i j,
        (w, "working") ∈ feedback -> (b, "broken") ∈ feedback ->
        BinarySearch.find_tag_index self w = Some i ->
        BinarySearch.find_tag_index self b = Some j -> i < j) :
  let new_good := (BinarySearch.update_range self state feedback).1.1 in
  let new_bad := (BinarySearch.update_range self state feedback).1.2 in
  new_good < new_bad
  /\ BinarySearch.generate_candidates self new_good new_bad
     <> Raise (ValueError "Bad index must be greater than good index").
Proof.
  cbn zeta. unfold BinarySearch.update_range. cbn [fst snd].
  pose proof (raise_good_fold self feedback
                (BinarySearchState.good_index state)) as Hg.
  pose proof (lower_bad_fold self feedback
                (BinarySearchState.bad_index state)) as Hb.
  cbn zeta in Hg, Hb.
  match type of Hg with _ <= ?r /\ _ => set (new_good := r) in * end.
  match type of Hb with ?r <= _ /\ _ => set (new_bad := r) in * end.
  destruct Hg as (_ & Hg & _), Hb as (_ & Hb & _).
  assert (new_good < new_bad) as Hlt.
  { destruct Hg as [->|(w & Hw & Hwi)], Hb as [->|(b & Hb & Hbj)].
    - done.
    - by eapply Hbroken.
    - by eapply Hworking.
    - by eapply Hconsistent. }
  split; [done|].
  destruct (generate_candidates_cases self new_good new_bad)
    as [[Hle H]|[(_ & H & _)|(_ & cs' & H & _)]]; [lia|by rewrite H..].
Qed.

Lemma update_range_keeps_order_witness :
  (BinarySearch.update_range Sample.engine (BinarySearchState.mk 0 24 1 ∅ 25)
     [("6", "working"); ("13", "broken")]).1.1
  < (BinarySearch.update_range Sample.engine (BinarySearchState.mk 0 24 1 ∅ 25)
       [("6", "working"); ("13", "broken")]).1.2.
Proof.
  refine (proj1 (update_range_keeps_order Sample.engine
                   (BinarySearchState.mk 0 24 1 ∅ 25)
                   [("6", "working"); ("13", "broken")] _ _ _ _)).
  - simpl. lia.
  - intros tag_id i Hin.
    apply elem_of_cons in Hin as [[= ->]|Hin].
    + intros [= <-]. simpl. lia.
    + apply list_elem_of_singleton in Hin. discriminate Hin.
  - intros tag_id i Hin.
    apply elem_of_cons in Hin as [Hin|Hin]; [discriminate Hin|].
    apply list_elem_of_singleton in Hin as [= ->].
    intros [= <-]. simpl. lia.
  - intros w b i j Hw Hb.
    apply elem_of_cons in Hw as [[= ->]|Hw];
      [|apply list_elem_of_singleton in Hw; discriminate Hw].
    apply elem_of_cons in Hb as [Hb|Hb]; [discriminate Hb|].
    apply list_elem_of_singleton in Hb as [= ->].
    intros [= <-] [= <-]. lia.
Defined.

(** X11.  Contradictory feedback is not detected by [update_range]: when
    the feedback marks a tag "working" at an index at or above that of a
    tag it marks "broken", the returned bounds are crossed,
    [new_bad <= new_good], and calling [generate_candidates] on them raises
    the [ValueError]. *)
Theorem update_range_crossed (self : BinarySearch.BinarySearchEngine)
    (state : BinarySearchState.t) (feedback : list (string * string))
    (w b : string) (i j : Z)
    (Hw : (w, "working") ∈ feedback) (Hb : (b, "broken") ∈ feedback)
    (Hi : BinarySearch.find_tag_index self w = Some i)
    (Hj : BinarySearch.find_tag_index self b = Some j)
    (Hcross : j <= i) :
  let new_good := (BinarySearch.update_range self state feedback).1.1 in
  let new_bad := (BinarySearch.update_range self state feedback).1.2 in
  new_bad <= new_good
  /\ BinarySearch.generate_candidates self new_good new_bad
     = Raise (ValueError "Bad index must be greater than good index").
Proof.
  cbn zeta. unfold BinarySearch.update_range. cbn [fst snd].
  match goal with
  | |- ?nb <= ?ng /\ _ => set (new_bad := nb); set (new_good := ng)
  end.
  assert (i <= new_good) as Hgi.
  { subst new_good. clear Hb new_bad.
    generalize (BinarySearchState.good_index state).
    induction feedback as [|[t v] rest IH]; intros acc;
      [by apply elem_of_nil in Hw|].
    cbn [foldl]. apply elem_of_cons in Hw as [[= <- <-]|Hw].
    - rewrite bool_decide_eq_true_2 by done. rewrite Hi.
      pose proof (raise_good_fold self rest (Z.max acc i)) as (H & _).
      cbn zeta in H. lia.
    - by apply IH. }
  assert (new_bad <= j) as Hbj.
  { subst new_bad. clear Hw Hgi new_good.
    generalize (BinarySearchState.bad_index state).
    induction feedback as [|[t v] rest IH]; intros acc;
      [by apply elem_of_nil in Hb|].
    cbn [foldl]. apply elem_of_cons in Hb as [[= <- <-]|Hb].
    - rewrite bool_decide_eq_true_2 by done. rewrite Hj.
      pose proof (lower_bad_fold self rest (Z.min acc j)) as (H & _).
      cbn zeta in H. lia.
    - by apply IH. }
  split; [lia|]. unfold BinarySearch.generate_candidates.
  destruct (Z.leb_spec new_bad new_good); [done|lia].
Qed.

Lemma update_range_crossed_witness :
  BinarySearch.generate_candidates Sample.engine
    (BinarySearch.update_range Sample.engine
       (BinarySearchState.mk 0 24 1 ∅ 25)
       [("13", "working"); ("6", "broken")]).1.1
    (BinarySearch.update_range Sample.engine
       (BinarySearchState.mk 0 24 1 ∅ 25)
       [("13", "working"); ("6", "broken")]).1.2
  = Raise (ValueError "Bad index must be greater than good index").
Proof.
  refine (proj2 (update_range_crossed Sample.engine
                   (BinarySearchState.mk 0 24 1 ∅ 25)
                   [("13", "working"); ("6", "broken")] "13" "6" 13 6
                   _ _ _ _ _)).
  - left.
  - right. left.
  - reflexivity.
  - reflexivity.
  - lia.
Defined.

(** X12.  [calculate_progress] answers with a percentage or an overflow:
    a returned value is a finite float between 0 and 100, the only
    exception raised is OverflowError, and the call returns whenever the
    strictly-between count is at most [2^1023 * total_tags]. *)
Theorem calculate_progress_percentage (good_index bad_index total_tags : Z) :
  (forall v, BinarySearch.calculate_progress good_index bad_index total_tags = Ok v ->
     exists q, v = Float.Finite q /\ (0 <= q <= 100)%Q)
  /\ (forall e, BinarySearch.calculate_progress good_index bad_index total_tags = Raise e ->
       e = OverflowError
       /\ 2 ^ 1023 * total_tags < bad_index - good_index - 1)
  /\ (bad_index - good_index - 1 <= 2 ^ 1023 * total_tags ->
      exists v, BinarySearch.calculate_progress good_index bad_index total_tags = Ok v).
Proof.
  split; [apply calculate_progress_range|].
  split; [|apply calculate_progress_returns].
  intros e H. split; [eapply calculate_progress_raises, H|].
  destruct (Z.le_gt_cases (bad_index - good_index - 1) (2 ^ 1023 * total_tags))
    as [Hle|Hgt]; [|lia].
  destruct (calculate_progress_returns _ _ _ Hle) as [v Hv]. congruence.
Qed.

(** ** Tokens and the guards of the routes *)

Section TokenFacts.
Import Security.

Lemma verify_token_signed (settings : Settings) (now : Z) (name : string)
    (uid : option string) (sc : option (list string)) (e : Z)
    (ty expected : string) :
  verify_token settings now
    (Signed (jwt_algorithm settings) (secret_key settings)
            (mkClaims (Some name) uid sc (Some e) (Some ty))) expected
  = Ok (if bool_decide (now <= e) && bool_decide (ty = expected)
        then Some (mkTokenData (Some name) uid (default [] sc))
        else None).
Proof.
  unfold verify_token, jwt_decode. cbn [exp].
  rewrite bool_decide_eq_true_2 by apply list_elem_of_singleton, eq_refl.
  rewrite bool_decide_eq_true_2 by done. cbn [negb].
  destruct (Z.ltb_spec e now).
  - rewrite (bool_decide_eq_false_2 (now <= e)) by lia. done.
  - rewrite (bool_decide_eq_true_2 (now <= e)) by lia. cbn [type sub andb].
    case_bool_decide as Hty.
    + injection Hty as ->. by rewrite bool_decide_eq_true_2.
    + rewrite bool_decide_eq_false_2 by congruence. done.
Qed.

Lemma verify_token_other_key (settings other : Settings) (now : Z)
    (alg : string) (claims : Claims) (expected : string) :
  secret_key other <> secret_key settings ->
  verify_token other now (Signed alg (secret_key settings) claims) expected
  = Ok None.
Proof.
  intros Hkey. unfold verify_token, jwt_decode.
  destruct (negb (bool_decide (alg ∈ _))); [done|].
  rewrite bool_decide_eq_false_2 by congruence. done.
Qed.

Lemma verify_token_one_type (settings : Settings) (now : Z) (tok : token)
    (ty ty' : string) token_data :
  verify_token settings now tok ty = Ok (Some token_data) ->
  ty' <> ty -> verify_token settings now tok ty' = Ok None.
Proof.
  unfold verify_token. destruct (jwt_decode _ _ _ _) as [payload|[]]; try done.
  case_bool_decide as Hty; [|done]. intros _ Hne.
  rewrite bool_decide_eq_false_2 by congruence. done.
Qed.
End TokenFacts.

(** X13.  Tokens issued by [create_access_token] and
    [create_refresh_token] (with the default lifetime or a non-zero
    [expires_delta]; the data names a subject) are accepted by
    [verify_token] for their own type until they expire, with the subject,
    user id and scopes they were issued for; they are rejected after
    expiry, for the other type, and under any other secret key. *)
Theorem issued_tokens_verify (settings : Security.Settings) (now now' : Z)
    (data : Security.Claims) (name : string) (expires_delta : option Z)
    (Hsub : Security.sub data = Some name)
    (Hdelta : expires_delta <> Some 0) :
  let access := Security.create_access_token settings now data expires_delta in
  let refresh :=
    Security.create_refresh_token settings now data expires_delta in
  let access_life :=
    default (60 * Security.access_token_expire_minutes settings)
            expires_delta in
  let refresh_life :=
    default (86400 * Security.refresh_token_expire_days settings)
            expires_delta in
  let token_data :=
    Security.mkTokenData (Some name) (Security.user_id data)
                         (default [] (Security.scopes data)) in
  Security.verify_token settings now' access "access"
  = Ok (if bool_decide (now' <= now + access_life) then Some token_data
        else None)
  /\ Security.verify_token settings now' refresh "refresh"
     = Ok (if bool_decide (now' <= now + refresh_life) then Some token_data
           else None)
  /\ Security.verify_token settings now' access "refresh" = Ok None
  /\ Security.verify_token settings now' refresh "access" = Ok None
  /\ forall other,
       Security.secret_key other <> Security.secret_key settings ->
       Security.verify_token other now' access "access" = Ok None
       /\ Security.verify_token other now' refresh "refresh" = Ok None.
Proof.
  cbn zeta. unfold Security.create_access_token, Security.create_refresh_token,
    Security.jwt_encode. rewrite Hsub.
  rewrite !verify_token_signed.
  assert (forall d,
            match expires_delta with
            | Some d' => if negb (d' =? 0) then now + d' else now + d
            | None => now + d
            end = now + default d expires_delta) as Hexp.
  { intros d. destruct expires_delta as [d'|]; [|done].
    destruct (Z.eqb_spec d' 0) as [->|]; done. }
  rewrite !Hexp.
  rewrite !(bool_decide_eq_true_2 (_ = _)) by done.
  rewrite !(bool_decide_eq_false_2 (_ = _)) by done.
  rewrite !andb_true_r, !andb_false_r.
  repeat split; try done; by apply verify_token_other_key.
Qed.

Lemma issued_tokens_verify_witness :
  Security.verify_token Sample.settings 1800
    (Security.create_access_token Sample.settings 0 (Sample.claims "alice")
       None) "access"
  = Ok (Some (Security.mkTokenData (Some "alice") (Some "user-1")
                                   ["read"; "write"]))
  /\ Security.verify_token Sample.settings 1801
       (Security.create_access_token Sample.settings 0 (Sample.claims "alice")
          None) "access"
     = Ok None.
Proof.
  split.
  - exact (proj1 (issued_tokens_verify Sample.settings 0 1800
                    (Sample.claims "alice") "alice" None eq_refl
                    ltac:(discriminate))).
  - exact (proj1 (issued_tokens_verify Sample.settings 0 1801
                    (Sample.claims "alice") "alice" None eq_refl
                    ltac:(discriminate))).
Defined.

(** X14.  The response of [create_token_response] is of type "bearer";
    its access token is accepted as an access token, for the given
    username, user id and scopes ([scopes or []]), exactly during the
    [expires_in] seconds the response announces; its refresh token is
    accepted as a refresh token for the configured number of days and never
    as an access token. *)
Theorem token_response_lifetime (settings : Security.Settings) (now now' : Z)
    (user_id username : string) (scopes : option (list string)) :
  let response :=
    Security.create_token_response settings now user_id username scopes in
  let token_data :=
    Security.mkTokenData (Some username) (Some user_id) (default [] scopes) in
  Security.token_type response = "bearer"
  /\ Security.verify_token settings now' (Security.access_token response)
       "access"
     = Ok (if bool_decide (now' <= now + Security.expires_in response)
           then Some token_data else None)
  /\ Security.verify_token settings now' (Security.access_token response)
       "refresh" = Ok None
  /\ exists refresh,
       Security.refresh_token response = Some refresh
       /\ Security.verify_token settings now' refresh "refresh"
          = Ok (if bool_decide
                     (now' <= now + 86400
                                    * Security.refresh_token_expire_days
                                        settings)
                then Some token_data else None)
       /\ Security.verify_token settings now' refresh "access" = Ok None.
Proof.
  cbn zeta. unfold Security.create_token_response,
    Security.create_access_token, Security.create_refresh_token,
    Security.jwt_encode.
  cbn [Security.token_type Security.access_token Security.refresh_token
       Security.expires_in Security.sub Security.user_id Security.scopes].
  assert (forall (c : bool) (x : Z), (if c then x else x) = x) as Hsame
    by (by intros []).
  rewrite !Hsame.
  split; [done|]. rewrite !verify_token_signed.
  rewrite !(bool_decide_eq_true_2 (_ = _)) by done.
  rewrite !(bool_decide_eq_false_2 (_ = _)) by done.
  rewrite !andb_true_r, !andb_false_r.
  replace (Security.access_token_expire_minutes settings * 60)
    with (60 * Security.access_token_expire_minutes settings) by lia.
  split; [done|]. split; [done|]. eexists. split; [done|].
  rewrite !verify_token_signed.
  rewrite !(bool_decide_eq_true_2 (_ = _)) by done.
  rewrite !(bool_decide_eq_false_2 (_ = _)) by done.
  rewrite !andb_true_r, !andb_false_r. done.
Qed.

Section Guards.
Import Security Dependencies Models.

Lemma check_scopes_cases (required granted : list string) (challenge : string) :
  (Forall (fun scope => scope ∈ granted) required
   /\ check_scopes required granted challenge = Ok tt)
  \/ (~ Forall (fun scope => scope ∈ granted) required
      /\ check_scopes required granted challenge
         = Raise (HTTPException 403 "Not enough permissions"
                    [("WWW-Authenticate", challenge)])).
Proof.
  induction required as [|scope rest IH]; simpl.
  - left. done.
  - case_bool_decide as Hin; simpl.
    + destruct IH as [[Hall ->]|[Hnot ->]].
      * left. split; [by constructor|done].
      * right. split; [|done]. intros Hall. apply Hnot.
        by apply Forall_cons in Hall as [_ ?].
    + right. split; [|done]. intros Hall.
      by apply Forall_cons in Hall as [? _].
Qed.
End Guards.

(** X15.  [get_current_user] lets a request through exactly when its token
    is a valid access token, the token's subject is the username of a
    stored user, that user is active and the token grants every scope the
    route requires; the user returned is that user.  When only a required
    scope is missing the answer is 403 "Not enough permissions" with the
    challenge header.  A user it returns always passes
    [get_current_active_user]. *)
Theorem get_current_user_accepts (settings : Security.Settings) (now : Z)
    (security_scopes : list string) (tok : Security.token) (db : Models.Db) :
  (forall user,
     Dependencies.get_current_user settings now security_scopes tok db
     = Ok user
     <-> exists token_data,
           Security.verify_token settings now tok "access"
           = Ok (Some token_data)
           /\ List.find
                (fun u => bool_decide (Some (User.username u)
                                       = Security.username token_data))
                (Models.users db) = Some user
           /\ User.is_active user = true
           /\ Forall (fun scope => scope ∈ Security.td_scopes token_data)
                     security_scopes)
  /\ (forall token_data user,
        Security.verify_token settings now tok "access" = Ok (Some token_data)
        -> List.find
             (fun u => bool_decide (Some (User.username u)
                                    = Security.username token_data))
             (Models.users db) = Some user
        -> User.is_active user = true
        -> ~ Forall (fun scope => scope ∈ Security.td_scopes token_data)
                    security_scopes
        -> Dependencies.get_current_user settings now security_scopes tok db
           = Raise (HTTPException 403 "Not enough permissions"
                      [("WWW-Authenticate",
                        Dependencies.authenticate_value security_scopes)]))
  /\ (forall user,
        Dependencies.get_current_user settings now security_scopes tok db
        = Ok user ->
        Dependencies.get_current_active_user user = Ok user).
Proof.
  unfold Dependencies.get_current_user, Dependencies.get_current_active_user.
  destruct (Security.verify_token settings now tok "access")
    as [[token_data|]|e] eqn:Htok; cbn [mbind result_bind].
  2: { split; [|split]; [|done..]. intros user. split; [done|].
       by intros (? & ? & _). }
  2: { split; [|split]; [|done..]. intros user. split; [done|].
       by intros (? & ? & _). }
  destruct (List.find _ (Models.users db)) as [found|] eqn:Hfind.
  2: { split; [|split]; [| |done].
       - intros user. split; [done|].
         intros (td & [= <-] & Hf & _). congruence.
       - intros td user [= <-]. congruence. }
  destruct (User.is_active found) eqn:Hactive; cbn [negb].
  2: { split; [|split]; [| |done].
       - intros user. split; [done|].
         intros (td & [= <-] & Hf & Ha & _). congruence.
       - intros td user [= <-]. congruence. }
  destruct (check_scopes_cases security_scopes
              (Security.td_scopes token_data)
              (Dependencies.authenticate_value security_scopes))
    as [[Hall ->]|[Hnot ->]]; cbn [mbind result_bind].
  - split; [|split].
    + intros user. split.
      * intros [= <-]. by exists token_data.
      * intros (td & [= <-] & Hf & _). congruence.
    + intros td user [= <-] _ _ Hnot. done.
    + intros user [= <-]. by rewrite Hactive.
  - split; [|split]; [| |done].
    + intros user. split; [done|].
      intros (td & [= <-] & _ & _ & Hall). done.
    + intros td user [= <-] _ _ _. done.
Qed.

Lemma get_current_user_accepts_witness :
  Dependencies.get_current_user Sample.settings 10 ["admin"]
    (Security.create_access_token Sample.settings 0 (Sample.claims "alice")
       None)
    (Sample.db true BuildStatus.PENDING)
  = Raise (HTTPException 403 "Not enough permissions"
             [("WWW-Authenticate",
               Dependencies.authenticate_value ["admin"])]).
Proof.
  refine (proj1 (proj2 (get_current_user_accepts Sample.settings 10 ["admin"]
                          (Security.create_access_token Sample.settings 0
                             (Sample.claims "alice") None)
                          (Sample.db true BuildStatus.PENDING)))
            (Security.mkTokenData (Some "alice") (Some "user-1")
                                  ["read"; "write"])
            (Sample.alice true) eq_refl eq_refl eq_refl _).
  intros Hall. apply Forall_cons in Hall as [Hin _].
  by apply (bool_decide_pack _) in Hin.
Defined.

(** X16.  The lenient guards.  For a request that carries a token,
    [get_current_user_optional] returns the user that [get_current_user]
    accepts when no scope is required, and [None] whenever
    [get_current_user] rejects the request; without a token it returns
    [None].  [verify_websocket_token] answers [(False, None)] for every
    token, also for one that [get_current_user] accepts: its session
    lookup [next(get_database())] raises TypeError, which the enclosing
    [except Exception] turns into the refusal. *)
Theorem lenient_guards_agree (settings : Security.Settings) (now : Z)
    (tok : Security.token) (db : Models.Db) :
  Dependencies.get_current_user_optional settings now (Some tok) db
  = match Dependencies.get_current_user settings now [] tok db with
    | Ok user => Some user
    | Raise _ => None
    end
  /\ Dependencies.get_current_user_optional settings now None db = None
  /\ WebSocket.verify_websocket_token settings now tok db = (false, None).
Proof.
  unfold Dependencies.get_current_user_optional,
    WebSocket.verify_websocket_token, Dependencies.get_current_user.
  destruct (Security.verify_token settings now tok "access")
    as [[token_data|]|e]; cbn [mbind result_bind]; [|done..].
  split; [|done].
  destruct (List.find _ _) as [user|]; [|done].
  destruct (User.is_active user); done.
Qed.

Section Login.
Import Security Dependencies Models.

Lemma find_unique {A B} `{EqDecision B} (key : A -> B) (l : list A) x :
  NoDup (key <$> l) -> x ∈ l ->
  List.find (fun y => bool_decide (key y = key x)) l = Some x.
Proof.
  induction l as [|y l IH]; intros Hnd Hin; [by apply elem_of_nil in Hin|].
  rewrite fmap_cons in Hnd. apply NoDup_cons in Hnd as [Hy Hnd]. simpl.
  apply elem_of_cons in Hin as [->|Hin].
  - by rewrite bool_decide_eq_true_2.
  - rewrite bool_decide_eq_false_2; [by apply IH|].
    intros Heq. apply Hy. rewrite Heq. by apply list_elem_of_fmap_2.
Qed.

Lemma find_ext {A} (f g : A -> bool) (l : list A) :
  (forall x, f x = g x) -> List.find f l = List.find g l.
Proof.
  intros Hfg. induction l as [|x l IH]; [done|]. simpl.
  by rewrite Hfg, IH.
Qed.

Lemma find_user_by_name (db : Db) (user : User.t) :
  NoDup (User.username <$> users db) -> user ∈ users db ->
  List.find (fun u => bool_decide (Some (User.username u)
                                   = Some (User.username user)))
            (users db) = Some user.
Proof.
  intros Hnd Hin. rewrite <- (find_unique User.username _ _ Hnd Hin).
  apply find_ext. intros u. apply bool_decide_ext. split; congruence.
Qed.

Lemma token_response_access (settings : Settings) (now now' : Z)
    (uid name : string) (sc : option (list string)) :
  let response := create_token_response settings now uid name sc in
  verify_token settings now' (access_token response) "access"
  = Ok (if bool_decide (now' <= now + expires_in response)
        then Some (mkTokenData (Some name) (Some uid) (default [] sc))
        else None).
Proof.
  cbn zeta. unfold create_token_response, create_access_token, jwt_encode.
  cbn [access_token expires_in sub user_id scopes].
  assert (forall (c : bool) (x : Z), (if c then x else x) = x) as Hsame
    by (by intros []).
  rewrite Hsame, verify_token_signed.
  rewrite (bool_decide_eq_true_2 (_ = _)) by done. rewrite andb_true_r.
  by replace (access_token_expire_minutes settings * 60)
    with (60 * access_token_expire_minutes settings) by lia.
Qed.
End Login.

(** X17.  A token obtained from [POST /auth/login] opens the guarded
    routes.  When usernames are unique and the login succeeds, then until
    the announced [expires_in] seconds have passed [get_current_user]
    accepts the access token for every route that requires only scopes the
    login form asked for (["read", "write"] when it asked for none), and
    the user it returns is a stored, active user whose username or email
    is the submitted name and whose password hash verifies the submitted
    password. *)
Theorem login_token_is_accepted (settings : Security.Settings)
    (pwd_context : AuthApi.CryptContext) (now now' : Z)
    (form_data : AuthApi.LoginForm) (db : Models.Db)
    (response : Security.Token) (security_scopes : list string)
    (Hnames : NoDup (User.username <$> Models.users db))
    (Hlogin : AuthApi.login settings pwd_context now form_data db
              = Ok response)
    (Hfresh : now' <= now + Security.expires_in response)
    (Hscopes : Forall
                 (fun scope =>
                    scope ∈ match AuthApi.form_scopes form_data with
                            | [] => ["read"; "write"]
                            | scopes => scopes
                            end) security_scopes) :
  exists user,
    user ∈ Models.users db
    /\ (User.username user = AuthApi.form_username form_data
        \/ User.email user = AuthApi.form_username form_data)
    /\ AuthApi.verify pwd_context (AuthApi.form_password form_data)
         (User.password_hash user) = true
    /\ User.is_active user = true
    /\ Dependencies.get_current_user settings now' security_scopes
         (Security.access_token response) db = Ok user.
Proof.
  unfold AuthApi.login in Hlogin.
  destruct (List.find _ _) as [user|] eqn:Hfind; [|done].
  apply find_elem_of in Hfind as [Hin Hname].
  destruct (AuthApi.verify _ _ _) eqn:Hpwd; [|done].
  destruct (User.is_active user) eqn:Hactive; [|done].
  cbn [negb] in Hlogin. injection Hlogin as <-.
  exists user. split; [done|]. split.
  { apply orb_true_iff in Hname as [H|H]; apply bool_decide_eq_true in H;
      auto. }
  split; [done|]. split; [done|].
  unfold Dependencies.get_current_user.
  rewrite token_response_access.
  rewrite bool_decide_eq_true_2 by done. cbn [mbind result_bind].
  cbn [Security.username]. rewrite find_user_by_name by done.
  rewrite Hactive. cbn [negb Security.td_scopes default].
  match goal with
  | |- context [Dependencies.check_scopes _ ?g ?c] =>
      destruct (check_scopes_cases security_scopes g c)
        as [[_ ->]|[Hnot _]]; [done|]
  end.
  destruct Hnot. exact Hscopes.
Qed.

Lemma login_token_is_accepted_witness :
  exists user,
    Dependencies.get_current_user Sample.settings 1800 ["write"]
      (Security.access_token
         (Security.create_token_response Sample.settings 0 "user-1" "alice"
            (Some ["read"; "write"])))
      (Models.with_users (Sample.db true BuildStatus.PENDING)
         [User.mk "user-1" "alice@example.org" "alice" "hashed:secret" true])
    = Ok user.
Proof.
  destruct (login_token_is_accepted Sample.settings
              (Api.pwd_context Sample.world) 0 1800
              (AuthApi.mkLoginForm "alice@example.org" "secret" [])
              (Models.with_users (Sample.db true BuildStatus.PENDING)
                 [User.mk "user-1" "alice@example.org" "alice" "hashed:secret"
                          true])
              (Security.create_token_response Sample.settings 0 "user-1"
                 "alice" (Some ["read"; "write"]))
              ["write"])
    as (user & _ & _ & _ & _ & Hguard).
  - by apply (bool_decide_unpack _).
  - reflexivity.
  - simpl. lia.
  - repeat constructor.
  - exists user. exact Hguard.
Defined.

(** X18.  [POST /auth/refresh] accepts refresh tokens only.  A token that
    is valid as an access token is answered with 401 "Invalid refresh
    token".  A valid refresh token whose subject is a stored, active user
    is answered with a new token pair whose access token verifies, for the
    announced [expires_in] seconds, to that user's name and id and to the
    scopes of the refresh token.  Nothing else is answered with tokens. *)
Theorem refresh_token_rotates (settings : Security.Settings) (now now' : Z)
    (tok : Security.token) (db : Models.Db) :
  (forall token_data,
     Security.verify_token settings now tok "access" = Ok (Some token_data) ->
     AuthApi.refresh_token settings now tok db
     = Raise (AuthApi.unauthorized "Invalid refresh token"))
  /\ (forall token_data user,
        Security.verify_token settings now tok "refresh"
        = Ok (Some token_data) ->
        List.find (fun u => bool_decide (Some (User.username u)
                                         = Security.username token_data))
                  (Models.users db) = Some user ->
        User.is_active user = true ->
        exists response,
          AuthApi.refresh_token settings now tok db = Ok response
          /\ Security.verify_token settings now'
               (Security.access_token response) "access"
             = Ok (if bool_decide
                        (now' <= now + Security.expires_in response)
                   then Some (Security.mkTokenData
                                (Some (User.username user))
                                (Some (User.id user))
                                (Security.td_scopes token_data))
                   else None))
  /\ (forall response,
        AuthApi.refresh_token settings now tok db = Ok response ->
        exists token_data user,
          Security.verify_token settings now tok "refresh"
          = Ok (Some token_data)
          /\ user ∈ Models.users db
          /\ Some (User.username user) = Security.username token_data
          /\ User.is_active user = true).
Proof.
  split; [|split].
  - intros token_data Htok. unfold AuthApi.refresh_token.
    rewrite (verify_token_one_type _ _ _ _ "refresh" _ Htok) by done. done.
  - intros token_data user Htok Hfind Hactive.
    unfold AuthApi.refresh_token. rewrite Htok. cbn [mbind result_bind].
    rewrite Hfind, Hactive. cbn [negb]. eexists. split; [done|].
    by rewrite token_response_access.
  - intros response. unfold AuthApi.refresh_token.
    destruct (Security.verify_token settings now tok "refresh")
      as [[token_data|]|e]; cbn [mbind result_bind]; [|done..].
    destruct (List.find _ _) as [user|] eqn:Hfind; [|done].
    destruct (User.is_active user) eqn:Hactive; [|done].
    intros _. exists token_data, user.
    apply find_elem_of in Hfind as [Hin Hname].
    apply bool_decide_eq_true in Hname. done.
Qed.

Lemma refresh_token_rotates_witness :
  AuthApi.refresh_token Sample.settings 10
    (Security.create_access_token Sample.settings 0 (Sample.claims "alice")
       None)
    (Sample.db true BuildStatus.PENDING)
  = Raise (AuthApi.unauthorized "Invalid refresh token").
Proof.
  exact (proj1 (refresh_token_rotates Sample.settings 10 10
                  (Security.create_access_token Sample.settings 0
                     (Sample.claims "alice") None)
                  (Sample.db true BuildStatus.PENDING))
           (Security.mkTokenData (Some "alice") (Some "user-1")
                                 ["read"; "write"]) eq_refl).
Defined.

(** ** Invariants of the routes *)

Section RouteFacts.
Import Models.

Lemma fmap_update_rows_stable {R B} (key : R -> uuid) (pk : uuid)
    (f : R -> R) (g : R -> B) (rows : list R) :
  (forall r, g (f r) = g r) -> g <$> update_rows key pk f rows = g <$> rows.
Proof.
  intros Hg. unfold update_rows. rewrite <- list_fmap_compose.
  apply list_fmap_ext. intros i r _. simpl. by case_bool_decide.
Qed.

Lemma find_None_Forall {A} (f : A -> bool) (l : list A) :
  List.find f l = None -> Forall (fun x => f x = false) l.
Proof.
  intros H. apply Forall_forall. intros x Hin.
  apply (find_none f l H). by apply list_elem_of_In.
Qed.
End RouteFacts.

Section UsersInvariant.
Import Models TasksApi BuildsApi Api Spec.
Variables (world : World) (current_user : User.t) (now : Z).

Lemma handle_keeps_users_unique req db :
  users_unique db -> users_unique (handle world current_user now req db).
Proof.
  intros Hinv.
  destruct req as [user_data new_id|current new| | | | | | | | | | | | | | | ];
    cbn [handle];
    try (match goal with
         | |- context [AuthApi.register_user] => fail 1
         | |- context [AuthApi.change_password] => fail 1
         | _ => idtac
         end;
         unfold ProjectsApi.create_project, ProjectsApi.update_project,
           ProjectsApi.delete_project, ProjectsApi.import_tags,
           create_task, insert_task, get_binary_search_candidates,
           candidates_step, select_candidates_for_testing, insert_iteration,
           update_task, pause_task, resume_task, delete_task, trigger_builds,
           BuildsApi.get_build_status, refresh_status, submit_build_feedback,
           cancel_build;
         repeat case_match; simplify_eq; exact Hinv).
  - unfold AuthApi.register_user.
    destruct (List.find _ _) as [existing|] eqn:Hfind.
    { by destruct (bool_decide _). }
    apply find_None_Forall in Hfind. rewrite Forall_forall in Hfind.
    destruct Hinv as [Hnames Hemails]. unfold users_unique.
    cbn [fst users with_users]. rewrite !fmap_app. cbn [fmap list_fmap].
    split; apply NoDup_app; (split; [done|]);
      (split; [|apply NoDup_singleton]);
      intros x Hx Hnew; apply list_elem_of_singleton in Hnew;
      apply list_elem_of_fmap in Hx as (u & -> & Hu);
      specialize (Hfind u Hu); apply orb_false_iff in Hfind as [He Hn];
      apply bool_decide_eq_false in He, Hn; done.
  - unfold AuthApi.change_password.
    destruct (negb _); [done|]. destruct (_ <? _)%nat; [done|].
    destruct Hinv as [Hnames Hemails]. unfold users_unique.
    cbn [fst users with_users].
    by rewrite !fmap_update_rows_stable.
Qed.
End UsersInvariant.

(** X19.  Usernames and email addresses stay unique.  A state in which no
    two users share a username or an email address is followed, after any
    sequence of requests to the writing routes, by such a state: the
    check of [POST /auth/register] refuses a taken name or address, and no
    other route changes either column. *)
Theorem run_keeps_users_unique (calls : list Api.call) (db : Models.Db)
    (Hunique : Spec.users_unique db) :
  Spec.users_unique (Api.run calls db).
Proof.
  revert db Hunique. unfold Api.run.
  induction calls as [|[[[world user] now] req] calls IH]; intros db Hinv;
    [done|].
  cbn [foldl]. apply IH. by apply handle_keeps_users_unique.
Qed.

Lemma run_keeps_users_unique_witness :
  Spec.users_unique
    (Api.run
       [(Sample.world, Sample.alice true, 1,
         Api.RegisterUser
           (AuthApi.mkUserCreate "bob@example.org" "bob" "password") "user-2");
        (Sample.world, Sample.alice true, 2,
         Api.RegisterUser
           (AuthApi.mkUserCreate "bob@example.org" "robert" "password")
           "user-3")]
       (Sample.db true BuildStatus.PENDING)).
Proof.
  apply run_keeps_users_unique.
  split; by apply (bool_decide_unpack _).
Defined.

Section RefsInvariant.
Import Models TasksApi BuildsApi Api Spec.

Lemma task_refs_ok_ext (db db' : Db) :
  LocalizationTask.id <$> tasks db' = LocalizationTask.id <$> tasks db ->
  iterations db' = iterations db ->
  sessions db' = sessions db ->
  (fun r => (BuildJob.task_id r, BuildJob.iteration_id r, BuildJob.id r))
    <$> build_jobs db'
  = (fun r => (BuildJob.task_id r, BuildJob.iteration_id r, BuildJob.id r))
      <$> build_jobs db ->
  (fun r => (UserFeedback.task_id r, UserFeedback.iteration_id r,
             UserFeedback.build_job_id r)) <$> feedback db'
  = (fun r => (UserFeedback.task_id r, UserFeedback.iteration_id r,
               UserFeedback.build_job_id r)) <$> feedback db ->
  task_refs_ok db -> task_refs_ok db'.
Proof.
  intros Ht Hi Hs Hj Hf (H1 & H2 & H3 & H4). unfold task_refs_ok.
  cbv zeta in *. rewrite Ht, Hi, Hs.
  assert (BuildJob.id <$> build_jobs db' = BuildJob.id <$> build_jobs db)
    as Hids.
  { apply (f_equal (fmap snd)) in Hj.
    by rewrite <- !list_fmap_compose in Hj. }
  rewrite Hids. split; [done|]. split; [done|]. split.
  - apply (Forall_fmap
             (fun r => (BuildJob.task_id r, BuildJob.iteration_id r,
                        BuildJob.id r))
             (fun k => k.1.1 ∈ LocalizationTask.id <$> tasks db
                       /\ k.1.2 ∈ TaskIteration.id <$> iterations db)).
    rewrite Hj. by apply Forall_fmap.
  - apply (Forall_fmap
             (fun r => (UserFeedback.task_id r, UserFeedback.iteration_id r,
                        UserFeedback.build_job_id r))
             (fun k => k.1.1 ∈ LocalizationTask.id <$> tasks db
                       /\ k.1.2 ∈ TaskIteration.id <$> iterations db
                       /\ k.2 ∈ BuildJob.id <$> build_jobs db)).
    rewrite Hf. by apply Forall_fmap.
Qed.

Lemma filter_elem_of {A} (f : A -> bool) (l : list A) x :
  x ∈ List.filter f l <-> x ∈ l /\ f x = true.
Proof. rewrite !list_elem_of_In. apply filter_In. Qed.

Lemma Forall_list_filter {A} (P : A -> Prop) (f : A -> bool) (l : list A) :
  (forall x, x ∈ l -> f x = true -> P x) -> Forall P (List.filter f l).
Proof.
  intros H. apply Forall_forall. intros x Hx.
  apply filter_elem_of in Hx as [Hin Hf]. auto.
Qed.

(** The cascade of a deletion keeps the references intact. *)
Lemma cascade_tasks_refs_ok (gone : uuid -> bool) (db : Db) :
  task_refs_ok db -> task_refs_ok (cascade_tasks gone db).
Proof.
  intros (H1 & H2 & H3 & H4). unfold task_refs_ok, cascade_tasks.
  cbv zeta in *. cbn [tasks iterations sessions build_jobs feedback].
  rewrite Forall_forall in H1. rewrite Forall_forall in H2.
  rewrite Forall_forall in H3. rewrite Forall_forall in H4.
  assert (forall i, i ∈ LocalizationTask.id <$> tasks db -> gone i = false ->
            i ∈ LocalizationTask.id
                <$> List.filter
                      (fun r => negb (gone (LocalizationTask.id r)))
                      (tasks db)) as Htask.
  { intros i Hi Hg. apply list_elem_of_fmap in Hi as (t & -> & Ht).
    apply list_elem_of_fmap_2, filter_elem_of. by rewrite Hg. }
  assert (forall i, i ∈ TaskIteration.id <$> iterations db ->
            i ∉ TaskIteration.id
                <$> List.filter (fun r => gone (TaskIteration.task_id r))
                                (iterations db) ->
            i ∈ TaskIteration.id
                <$> List.filter
                      (fun r => negb (gone (TaskIteration.task_id r)))
                      (iterations db)) as Hiter.
  { intros i Hi Hg. apply list_elem_of_fmap in Hi as (t & -> & Ht).
    apply list_elem_of_fmap_2, filter_elem_of. split; [done|].
    destruct (gone (TaskIteration.task_id t)) eqn:Hgt; [|done].
    destruct Hg. apply list_elem_of_fmap_2, filter_elem_of. done. }
  split; [|split; [|split]]; apply Forall_list_filter.
  - intros r Hr Hg. apply negb_true_iff in Hg. apply Htask; auto.
  - intros r Hr Hg. apply negb_true_iff in Hg. apply Htask; auto.
  - intros r Hr Hg. apply negb_true_iff, orb_false_iff in Hg as [Hg Hit].
    apply bool_decide_eq_false in Hit.
    destruct (H3 r Hr). split; [apply Htask|apply Hiter]; auto.
  - intros r Hr Hg.
    apply negb_true_iff, orb_false_iff in Hg as [Hg Hjob].
    apply orb_false_iff in Hg as [Hg Hit].
    apply bool_decide_eq_false in Hit, Hjob.
    destruct (H4 r Hr) as (? & ? & Hj).
    split; [apply Htask; auto|]. split; [apply Hiter; auto|].
    apply list_elem_of_fmap in Hj as (j & Hjid & Hj).
    rewrite Hjid. apply list_elem_of_fmap_2, filter_elem_of. split; [done|].
    match goal with |- negb ?b = true => destruct b eqn:Hgone end; [|done].
    destruct Hjob. rewrite Hjid.
    apply list_elem_of_fmap_2, filter_elem_of. done.
Qed.

Lemma owned_task_elem_of db task_id user task :
  owned_task db task_id user = Some task ->
  task ∈ tasks db /\ LocalizationTask.id task = task_id
  /\ LocalizationTask.user_id task = user.
Proof.
  intros H. apply find_elem_of in H as [Hin Hf].
  apply andb_true_iff in Hf as [H1 H2].
  apply bool_decide_eq_true in H1, H2. done.
Qed.

Lemma owned_build_job_elem_of db build_id user job :
  owned_build_job db build_id user = Some job ->
  job ∈ build_jobs db /\ BuildJob.id job = build_id.
Proof.
  intros H. apply find_elem_of in H as [Hin Hf].
  apply andb_true_iff in Hf as [H1 _].
  apply bool_decide_eq_true in H1. done.
Qed.

Lemma task_refs_ok_update_task pk t f db :
  (forall r, LocalizationTask.id (f r) = LocalizationTask.id r) ->
  task_refs_ok db -> task_refs_ok (update_task_row pk t f db).
Proof.
  intros Hf. apply task_refs_ok_ext; try done.
  cbn [tasks update_task_row with_tasks].
  apply fmap_update_rows_stable. intros r. apply Hf.
Qed.

Lemma task_refs_ok_session s db :
  TaskSession.task_id s ∈ LocalizationTask.id <$> tasks db ->
  task_refs_ok db -> task_refs_ok (insert_session s db).
Proof.
  intros Hs (H1 & H2 & H3 & H4). unfold task_refs_ok, insert_session.
  cbv zeta in *. cbn [tasks iterations sessions build_jobs feedback
                      with_sessions].
  split; [done|]. split; [|done].
  apply Forall_app. split; [done|]. by constructor.
Qed.

Lemma task_refs_ok_update_jobs pk f db :
  (forall r, BuildJob.task_id (f r) = BuildJob.task_id r
             /\ BuildJob.iteration_id (f r) = BuildJob.iteration_id r
             /\ BuildJob.id (f r) = BuildJob.id r) ->
  task_refs_ok db ->
  task_refs_ok (with_build_jobs db (update_rows BuildJob.id pk f
                                      (build_jobs db))).
Proof.
  intros Hf. apply task_refs_ok_ext; try done.
  cbn [build_jobs with_build_jobs].
  apply fmap_update_rows_stable. intros r.
  destruct (Hf r) as (-> & -> & ->). done.
Qed.

Variables (world : World) (current_user : User.t) (now : Z).

(** Every route keeps the references below the tasks intact. *)
Lemma handle_keeps_task_refs req db :
  task_refs_ok db -> task_refs_ok (handle world current_user now req db).
Proof.
  intros Hinv.
  destruct req as [ | | | |pid| |task_data new_task_id new_session_id
                   |tid new_session_id|tid selection new_id|tid task_update
                   |tid|tid|tid|request new_ids|bid|bid fb new_id|bid];
    cbn [handle].
  - unfold AuthApi.register_user. repeat case_match; exact Hinv.
  - unfold AuthApi.change_password. repeat case_match; exact Hinv.
  - unfold ProjectsApi.create_project. repeat case_match; exact Hinv.
  - unfold ProjectsApi.update_project. repeat case_match; exact Hinv.
  - unfold ProjectsApi.delete_project. case_match; [|done]. cbn [fst].
    apply (cascade_tasks_refs_ok _ db Hinv).
  - unfold ProjectsApi.import_tags. repeat case_match; exact Hinv.
  - unfold create_task.
    destruct (owned_project db _ _); [|done].
    destruct (branch_of_project db _ _); [|done]. cbv zeta.
    destruct (tag_by_name db (good_tag_name task_data) _ _); [|done].
    destruct (tag_by_name db (bad_tag_name task_data) _ _); [|done].
    destruct (_ <=? _); [done|].
    destruct (ordering_bound _); [|done].
    destruct (ordering_bound _); [|done]. unfold insert_task.
    destruct (LocalizationTask.check_different_tags _); [|done]. cbn [fst].
    destruct Hinv as (H1 & H2 & H3 & H4).
    unfold task_refs_ok, insert_session. cbv zeta in *.
    cbn [tasks iterations sessions build_jobs feedback with_sessions
         with_tasks].
    rewrite fmap_app. cbn [fmap list_fmap LocalizationTask.id].
    repeat split.
    + eapply Forall_impl; [exact H1|]. simpl. intros r Hr.
      apply elem_of_app. by left.
    + apply Forall_app. split.
      * eapply Forall_impl; [exact H2|]. simpl. intros r Hr.
        apply elem_of_app. by left.
      * constructor; [|done]. apply elem_of_app. right. simpl. left.
    + eapply Forall_impl; [exact H3|]. simpl. intros r [Hr ?]. split; [|done].
      apply elem_of_app. by left.
    + eapply Forall_impl; [exact H4|]. simpl. intros r (Hr & ? & ?).
      split; [|done]. apply elem_of_app. by left.
  - unfold get_binary_search_candidates.
    destruct (owned_task db tid (User.id current_user)) as [task|] eqn:Htask;
      [|done].
    apply owned_task_elem_of in Htask as (Hin & Hid & _).
    assert (tid ∈ LocalizationTask.id <$> tasks db) as Htid.
    { rewrite <- Hid. by apply list_elem_of_fmap_2. }
    destruct (negb _); [done|].
    destruct (tag_by_id db _) as [good|]; [|done].
    destruct (ordering_bound _); [|done].
    destruct (tag_by_id db _) as [bad|]; [|done].
    destruct (ordering_bound _); [|done].
    cbv zeta. destruct (_ <? 3); [done|].
    assert (forall db0 g b tags0, task_refs_ok db0 ->
              task_refs_ok (candidates_step tags0 task g b now db0).1)
      as Hstep.
    { intros db0 g b tags0 Hdb0. unfold candidates_step.
      destruct g as [g|]; [|done]. destruct b as [b|]; [|done].
      destruct (BinarySearch.is_complete g b); [|done].
      destruct (py_getitem tags0 b); [|done]. cbn [fst].
      by apply task_refs_ok_update_task. }
    destruct (session_of_task db tid); apply Hstep; [done|].
    by apply task_refs_ok_session.
  - unfold select_candidates_for_testing, insert_iteration, new_iteration.
    repeat case_match; simplify_eq; try exact Hinv.
  - unfold update_task. case_match; [|done]. cbn [fst].
    by apply task_refs_ok_update_task.
  - unfold pause_task. repeat case_match; try done. cbn [fst].
    by apply task_refs_ok_update_task.
  - unfold resume_task. repeat case_match; try done. cbn [fst].
    by apply task_refs_ok_update_task.
  - unfold delete_task. case_match; [|done]. cbn [fst].
    by apply cascade_tasks_refs_ok.
  - unfold trigger_builds.
    destruct (owned_task db _ _) as [task|] eqn:Htask; [|done].
    apply owned_task_elem_of in Htask as (Hin & Hid & _).
    destruct (negb _); [done|].
    destruct (List.find _ (iterations db)) as [iteration|] eqn:Hit; [|done].
    apply find_elem_of in Hit as [Hitin Hit].
    apply andb_true_iff in Hit as [Hit _]. apply bool_decide_eq_true in Hit.
    destruct (active_build_service db _); [|done].
    cbv zeta. destruct (negb _); [done|].
    destruct (create_service world _ _) as [service|]; [|done].
    cbn [fst]. destruct Hinv as (H1 & H2 & H3 & H4).
    unfold task_refs_ok, insert_build_jobs. cbv zeta in *.
    cbn [tasks iterations sessions build_jobs feedback with_build_jobs].
    split; [done|]. split; [done|]. split.
    + apply Forall_app. split; [done|].
      apply Forall_forall. intros job Hjob.
      apply list_elem_of_lookup in Hjob as [i Hjob].
      rewrite list_lookup_imap in Hjob.
      destruct (_ !! i) as [tag|]; [|done]. injection Hjob as <-.
      unfold trigger_one. case_match; cbn [BuildJob.task_id
                                            BuildJob.iteration_id].
      * split; [rewrite <- Hid|rewrite <- Hit]; by apply list_elem_of_fmap_2.
      * split; [rewrite <- Hid|rewrite <- Hit]; by apply list_elem_of_fmap_2.
    + eapply Forall_impl; [exact H4|]. simpl. intros r (? & ? & Hr).
      split; [done|]. split; [done|]. rewrite fmap_app.
      apply elem_of_app. by left.
  - unfold BuildsApi.get_build_status.
    destruct (owned_build_job db bid _) as [job|]; [|done].
    assert (task_refs_ok
              (if truthy (BuildJob.external_build_id job)
                  && bool_decide (BuildJob.status job
                                  ∈ [BuildStatus.PENDING; BuildStatus.RUNNING])
               then refresh_status (create_service world) job now db else db))
      as Hdb'.
    { destruct (_ && _); [|done]. unfold refresh_status.
      repeat case_match; try done;
        (apply task_refs_ok_update_jobs; [|done]);
        intros r; cbv zeta; by destruct (terminal _). }
    cbv zeta. by destruct (owned_build_job _ bid _).
  - unfold submit_build_feedback.
    destruct (owned_build_job db bid _) as [job|] eqn:Hjob; [|done].
    apply owned_build_job_elem_of in Hjob as [Hjin Hjid].
    destruct (List.find _ _) as [existing|]; cbn [fst].
    + revert Hinv. apply task_refs_ok_ext; try done.
      cbn [feedback with_feedback]. by apply fmap_update_rows_stable.
    + destruct Hinv as (H1 & H2 & H3 & H4).
      unfold task_refs_ok, insert_feedback. cbv zeta in *.
      cbn [tasks iterations sessions build_jobs feedback with_feedback].
      split; [done|]. split; [done|]. split; [done|].
      apply Forall_app. split; [done|]. constructor; [|done].
      cbn [UserFeedback.task_id UserFeedback.iteration_id
           UserFeedback.build_job_id].
      rewrite Forall_forall in H3. destruct (H3 job Hjin).
      split; [done|]. split; [done|]. by apply list_elem_of_fmap_2.
  - unfold cancel_build.
    destruct (owned_build_job db bid _) as [job|]; [|done].
    destruct (bool_decide _); [done|]. cbn [fst].
    apply task_refs_ok_update_jobs; [|done].
    intros r. simpl. by case_match.
Qed.
End RefsInvariant.

(** X20.  No request leaves an orphan below the tasks.  When every
    iteration and session belongs to a stored task, every build job to a
    stored task and iteration, and every feedback row to a stored task,
    iteration and build job, the same holds after any sequence of requests
    to the writing routes: rows are inserted under rows that exist, and
    the two deleting routes remove everything that hangs on what they
    remove. *)
Theorem run_keeps_task_refs (calls : list Api.call) (db : Models.Db)
    (Hrefs : Spec.task_refs_ok db) :
  Spec.task_refs_ok (Api.run calls db).
Proof.
  revert db Hrefs. unfold Api.run.
  induction calls as [|[[[world user] now] req] calls IH]; intros db Hinv;
    [done|].
  cbn [foldl]. apply IH. by apply handle_keeps_task_refs.
Qed.

Lemma run_keeps_task_refs_witness :
  Spec.task_refs_ok
    (Api.run
       [(Sample.world, Sample.alice true, 1, Api.PauseTask "task-1");
        (Sample.world, Sample.alice true, 2, Api.DeleteTask "task-1")]
       (Models.with_build_jobs (Sample.db true BuildStatus.PENDING) [])).
Proof.
  apply run_keeps_task_refs.
  unfold Spec.task_refs_ok. simpl. repeat split; repeat constructor.
Defined.

Section TaskRows.
Import Models TasksApi BuildsApi Api Spec.

Lemma update_task_row_elem pk t f db task row :
  tasks_primary_key db -> task ∈ tasks db -> LocalizationTask.id task = pk ->
  row ∈ tasks (update_task_row pk t f db) ->
  (row ∈ tasks db /\ LocalizationTask.id row <> pk)
  \/ row = LocalizationTask.with_updated_at t (f task).
Proof.
  intros Hpk Hin Hid Hrow. unfold update_task_row, update_rows in Hrow.
  cbn [tasks with_tasks] in Hrow.
  apply list_elem_of_fmap in Hrow as (r & -> & Hr).
  case_bool_decide as Hr_id; [right|by left].
  by rewrite (NoDup_fmap_eq LocalizationTask.id (tasks db) r task Hpk Hr Hin)
    by congruence.
Qed.

Variables (world : World) (current_user : User.t) (now : Z).

Lemma handle_task_rows req db row :
  tasks_primary_key db ->
  row ∈ tasks (handle world current_user now req db) ->
  (exists old,
     old ∈ tasks db
     /\ LocalizationTask.id old = LocalizationTask.id row
     /\ LocalizationTask.user_id old = LocalizationTask.user_id row
     /\ status_step (LocalizationTask.status old) (LocalizationTask.status row)
     /\ (LocalizationTask.user_id old <> User.id current_user -> row = old))
  \/ (exists task_data new_task_id new_session_id,
        req = CreateTask task_data new_task_id new_session_id
        /\ LocalizationTask.id row = new_task_id
        /\ LocalizationTask.user_id row = User.id current_user
        /\ LocalizationTask.status row = TaskStatus.ACTIVE).
Proof.
  intros Hpk.
  assert (row ∈ tasks db ->
          exists old,
            old ∈ tasks db
            /\ LocalizationTask.id old = LocalizationTask.id row
            /\ LocalizationTask.user_id old = LocalizationTask.user_id row
            /\ status_step (LocalizationTask.status old)
                           (LocalizationTask.status row)
            /\ (LocalizationTask.user_id old <> User.id current_user ->
                row = old)) as Hsame.
  { intros Hrow. exists row. repeat split; try done. by left. }
  assert (forall pk f task,
            owned_task db pk (User.id current_user) = Some task ->
            (LocalizationTask.id (f task) = LocalizationTask.id task
             /\ LocalizationTask.user_id (f task)
                = LocalizationTask.user_id task
             /\ status_step (LocalizationTask.status task)
                            (LocalizationTask.status (f task))) ->
            row ∈ tasks (update_task_row (LocalizationTask.id task) now f db) ->
            exists old,
              old ∈ tasks db
              /\ LocalizationTask.id old = LocalizationTask.id row
              /\ LocalizationTask.user_id old = LocalizationTask.user_id row
              /\ status_step (LocalizationTask.status old)
                             (LocalizationTask.status row)
              /\ (LocalizationTask.user_id old <> User.id current_user ->
                  row = old)) as Hupdate.
  { intros pk f task Htask (Hfid & Hfuser & Hfstatus) Hrow.
    apply owned_task_elem_of in Htask as (Hin & Hid & Huser).
    apply (update_task_row_elem _ _ _ _ task) in Hrow as [[Hrow _]| ->];
      [by apply Hsame|exists task|done..].
    split; [done|]. split; [by rewrite <- Hfid|].
    split; [by rewrite <- Hfuser|]. split; [done|]. by intros []. }
  destruct req as [ | | | |pid| |task_data new_task_id new_session_id
                   |tid new_session_id|tid selection new_id|tid task_update
                   |tid|tid|tid|request new_ids|bid|bid fb new_id|bid];
    cbn [handle].
  - unfold AuthApi.register_user. repeat case_match; by left; apply Hsame.
  - unfold AuthApi.change_password. repeat case_match; by left; apply Hsame.
  - unfold ProjectsApi.create_project. repeat case_match; by left; apply Hsame.
  - unfold ProjectsApi.update_project. repeat case_match; by left; apply Hsame.
  - unfold ProjectsApi.delete_project. intros Hrow. left. apply Hsame.
    revert Hrow. case_match; [|done]. cbn [fst]. simpl.
    intros Hrow. by apply filter_elem_of in Hrow as [? _].
  - unfold ProjectsApi.import_tags. repeat case_match; by left; apply Hsame.
  - unfold create_task.
    destruct (owned_project db _ _); [|by left; apply Hsame].
    destruct (branch_of_project db _ _); [|by left; apply Hsame]. cbv zeta.
    destruct (tag_by_name db (good_tag_name task_data) _ _);
      [|by left; apply Hsame].
    destruct (tag_by_name db (bad_tag_name task_data) _ _);
      [|by left; apply Hsame].
    destruct (_ <=? _); [by left; apply Hsame|].
    destruct (ordering_bound _); [|by left; apply Hsame].
    destruct (ordering_bound _); [|by left; apply Hsame]. unfold insert_task.
    destruct (LocalizationTask.check_different_tags _);
      [|by left; apply Hsame].
    cbn [fst insert_session tasks with_sessions with_tasks].
    intros Hrow. apply elem_of_app in Hrow as [Hrow|Hrow];
      [by left; apply Hsame|].
    apply list_elem_of_singleton in Hrow as ->. right.
    by exists task_data, new_task_id, new_session_id.
  - unfold get_binary_search_candidates.
    destruct (owned_task db tid (User.id current_user)) as [task|] eqn:Htask;
      [|by left; apply Hsame].
    case_bool_decide as Hactive; [|by left; apply Hsame]. cbn [negb].
    destruct (tag_by_id db _) as [good|]; [|by left; apply Hsame].
    destruct (ordering_bound _); [|by left; apply Hsame].
    destruct (tag_by_id db _) as [bad|]; [|by left; apply Hsame].
    destruct (ordering_bound _); [|by left; apply Hsame].
    cbv zeta. destruct (_ <? 3); [by left; apply Hsame|].
    assert (forall db0 g b tags0, tasks db0 = tasks db ->
              row ∈ tasks (candidates_step tags0 task g b now db0).1 ->
              row ∈ tasks db
              \/ exists x,
                   row ∈ tasks (update_task_row (LocalizationTask.id task) now
                     (fun r =>
                        LocalizationTask.with_final_problematic_tag_id x
                          (LocalizationTask.with_status TaskStatus.COMPLETED
                             r)) db)) as Hstep.
    { intros db0 g b tags0 Hdb0. unfold candidates_step.
      destruct g as [g|]; [|by cbn [fst]; rewrite Hdb0; left].
      destruct b as [b|]; [|by cbn [fst]; rewrite Hdb0; left].
      destruct (BinarySearch.is_complete g b);
        [|by cbn [fst]; rewrite Hdb0; left].
      destruct (py_getitem tags0 b) as [x|];
        [|by cbn [fst]; rewrite Hdb0; left].
      cbn [fst]. unfold update_task_row. cbn [tasks with_tasks].
      rewrite Hdb0. intros Hrow. right. by exists (Some (Tag.id x)). }
    intros Hrow. left.
    assert (row ∈ tasks db
            \/ exists f,
                 (LocalizationTask.id (f task) = LocalizationTask.id task
                  /\ LocalizationTask.user_id (f task)
                     = LocalizationTask.user_id task
                  /\ status_step (LocalizationTask.status task)
                                 (LocalizationTask.status (f task)))
                 /\ row ∈ tasks (update_task_row (LocalizationTask.id task)
                                   now f db)) as [Hold|(f & Hf & Hnew)].
    { destruct (session_of_task db tid);
        apply Hstep in Hrow as [?|[x Hnew]]; try done; try by left.
      - right. eexists. split; [|exact Hnew]. simpl.
        split; [done|]. split; [done|]. rewrite Hactive. right. left. auto.
      - right. eexists. split; [|exact Hnew]. simpl.
        split; [done|]. split; [done|]. rewrite Hactive. right. left. auto. }
    + by apply Hsame.
    + by eapply Hupdate.
  - unfold select_candidates_for_testing, insert_iteration, new_iteration.
    repeat case_match; simplify_eq; by left; apply Hsame.
  - unfold update_task.
    destruct (owned_task db tid (User.id current_user)) as [task|] eqn:Htask;
      [|by left; apply Hsame].
    cbn [fst]. intros Hrow. left. eapply Hupdate; [done| |done].
    simpl. repeat split. by left.
  - unfold pause_task.
    destruct (owned_task db tid (User.id current_user)) as [task|] eqn:Htask;
      [|by left; apply Hsame].
    case_bool_decide as Hactive; [|by left; apply Hsame].
    cbn [negb fst]. intros Hrow. left. eapply Hupdate; [done| |done].
    simpl. rewrite Hactive. repeat split. right. left. auto.
  - unfold resume_task.
    destruct (owned_task db tid (User.id current_user)) as [task|] eqn:Htask;
      [|by left; apply Hsame].
    case_bool_decide as Hpaused; [|by left; apply Hsame].
    cbn [negb fst]. intros Hrow. left. eapply Hupdate; [done| |done].
    simpl. rewrite Hpaused. repeat split. right. right. auto.
  - unfold delete_task. intros Hrow. left. apply Hsame.
    revert Hrow. case_match; [|done]. cbn [fst]. simpl.
    intros Hrow. by apply filter_elem_of in Hrow as [? _].
  - unfold trigger_builds. repeat case_match; by left; apply Hsame.
  - unfold BuildsApi.get_build_status, refresh_status.
    repeat case_match; by left; apply Hsame.
  - unfold submit_build_feedback. repeat case_match; by left; apply Hsame.
  - unfold cancel_build. repeat case_match; by left; apply Hsame.
Qed.
End TaskRows.

(** X21.  The life of a task row.  When task ids are unique, every task
    row found after a request to a writing route is either the row created
    by that request -- a [POST /tasks/] of the caller, with status
    active -- or a row that was there before with the same id and owner,
    whose status is unchanged or went from active to paused, from active
    to completed or from paused to active.  So a completed or failed task
    never changes its status again; and the rows of tasks that belong to
    other users than the caller are left exactly as they were. *)
Theorem task_rows_change_lawfully (world : Api.World) (current_user : User.t)
    (now : Z) (req : Api.request) (db : Models.Db) (row : LocalizationTask.t)
    (Hpk : Spec.tasks_primary_key db)
    (Hrow : row ∈ Models.tasks (Api.handle world current_user now req db)) :
  (exists old,
     old ∈ Models.tasks db
     /\ LocalizationTask.id old = LocalizationTask.id row
     /\ LocalizationTask.user_id old = LocalizationTask.user_id row
     /\ Spec.status_step (LocalizationTask.status old)
                         (LocalizationTask.status row)
     /\ (LocalizationTask.user_id old <> User.id current_user -> row = old)
     /\ (LocalizationTask.status old = TaskStatus.COMPLETED
         \/ LocalizationTask.status old = TaskStatus.FAILED ->
         LocalizationTask.status row = LocalizationTask.status old))
  \/ (exists task_data new_task_id new_session_id,
        req = Api.CreateTask task_data new_task_id new_session_id
        /\ LocalizationTask.id row = new_task_id
        /\ LocalizationTask.user_id row = User.id current_user
        /\ LocalizationTask.status row = TaskStatus.ACTIVE).
Proof.
  destruct (handle_task_rows world current_user now req db row Hpk Hrow)
    as [(old & Hin & Hid & Huser & Hstep & Hother)|Hnew]; [left|by right].
  exists old. repeat split; try done.
  intros Hend. destruct Hstep as [?|[[? _]|[? _]]]; [done|..];
    destruct Hend; congruence.
Qed.

Lemma task_rows_change_lawfully_witness :
  exists old,
    old ∈ Models.tasks (Sample.db true BuildStatus.PENDING)
    /\ Spec.status_step (LocalizationTask.status old) TaskStatus.PAUSED.
Proof.
  destruct (task_rows_change_lawfully Sample.world (Sample.alice true) 7
              (Api.PauseTask "task-1") (Sample.db true BuildStatus.PENDING)
              (LocalizationTask.with_updated_at 7
                 (LocalizationTask.with_status TaskStatus.PAUSED Sample.task)))
    as [(old & Hin & _ & _ & Hstep & _)|(? & ? & ? & Hreq & _)].
  - by apply (bool_decide_unpack _).
  - left.
  - exists old. split; [exact Hin | exact Hstep].
  - discriminate Hreq.
Defined.

(** ** The build routes *)

Section BuildRows.
Import Models TasksApi BuildsApi Api Spec.


Lemma terminal_not_pollable st :
  terminal st = true ->
  bool_decide (st ∈ [BuildStatus.PENDING; BuildStatus.RUNNING]) = false.
Proof. by destruct st. Qed.


Variables (world : World) (current_user : User.t) (now : Z).

End BuildRows.



Section BuildStatusFacts.
Import Models BuildsApi Spec.

Lemma get_build_status_quiet create_service build_id user now db job :
  owned_build_job db build_id (User.id user) = Some job ->
  truthy (BuildJob.external_build_id job)
  && bool_decide (BuildJob.status job
                  ∈ [BuildStatus.PENDING; BuildStatus.RUNNING]) = false ->
  get_build_status create_service build_id user now db
  = (db, Ok (mkBuildJobResponse job
               (Tag.name <$> tag_by_id db (BuildJob.tag_id job)))).
Proof.
  intros Hjob Hquiet. unfold get_build_status.
  rewrite Hjob. cbv zeta. rewrite Hquiet. by rewrite Hjob.
Qed.
End BuildStatusFacts.

(** X23.  Polling settles.  Once [GET /builds/{build_id}] has answered
    with a build job whose status is success, failed or cancelled, every
    later call for that build by that user gives the same answer and
    leaves the database as it is, without regard to the build services.
    The same holds from the start for a job without an external build id:
    it is never polled. *)
Theorem get_build_status_settles (create_service : BuildServices.Factory)
    (build_id : uuid) (user : User.t) (now : Z) (db : Models.Db) :
  (forall db1 response,
     BuildsApi.get_build_status create_service build_id user now db
     = (db1, Ok response) ->
     BuildJob.status (BuildsApi.job response)
     ∈ [BuildStatus.SUCCESS; BuildStatus.FAILED; BuildStatus.CANCELLED] ->
     forall create_service' now',
       BuildsApi.get_build_status create_service' build_id user now' db1
       = (db1, Ok response))
  /\ (forall job,
        Models.owned_build_job db build_id (User.id user) = Some job ->
        BuildsApi.truthy (BuildJob.external_build_id job) = false ->
        BuildsApi.get_build_status create_service build_id user now db
        = (db, Ok (BuildsApi.mkBuildJobResponse job
                     (Tag.name <$> Models.tag_by_id db
                                     (BuildJob.tag_id job))))).
Proof.
  split.
  - intros db1 response Hcall Hterm create_service' now'.
    unfold BuildsApi.get_build_status in Hcall.
    destruct (Models.owned_build_job db build_id _) as [job|]; [|done].
    cbv zeta in Hcall.
    match type of Hcall with
    | context [Models.owned_build_job ?d _ _] => set (db' := d) in *
    end.
    destruct (Models.owned_build_job db' build_id _) as [job'|] eqn:Hjob';
      [|done].
    injection Hcall as <- <-. cbn [BuildsApi.job] in Hterm.
    apply get_build_status_quiet; [done|].
    rewrite terminal_not_pollable; [apply andb_false_r|].
    unfold BuildsApi.terminal. by rewrite bool_decide_eq_true_2.
  - intros job Hjob Hid. apply get_build_status_quiet; [done|].
    by rewrite Hid.
Qed.

Lemma get_build_status_settles_witness :
  BuildsApi.get_build_status Sample.failing_service "build-1"
    (Sample.alice true) 8 (Sample.db true BuildStatus.SUCCESS)
  = BuildsApi.get_build_status
      (fun _ _ => Raise (ServiceError "no service")) "build-1"
      (Sample.alice true) 3 (Sample.db true BuildStatus.SUCCESS).
Proof.
  destruct (BuildsApi.get_build_status
              (fun _ _ => Raise (ServiceError "no service")) "build-1"
              (Sample.alice true) 3 (Sample.db true BuildStatus.SUCCESS))
    as [db1 [response|e]] eqn:Hcall; [|by vm_compute in Hcall].
  assert (db1 = Sample.db true BuildStatus.SUCCESS) as Hdb
    by (vm_compute in Hcall; by injection Hcall as <- _).
  rewrite <- Hdb at 1.
  refine (proj1 (get_build_status_settles
                   (fun _ _ => Raise (ServiceError "no service")) "build-1"
                   (Sample.alice true) 3 (Sample.db true BuildStatus.SUCCESS))
            db1 response Hcall _ Sample.failing_service 8).
  vm_compute in Hcall. injection Hcall as _ <-. left.
Defined.

(** X24.  Cancelling is final and repeatable.  After
    [POST /builds/{build_id}/cancel] has answered for an owned build, a
    second cancel answers "Build is already completed" with a finished
    status and changes nothing, and [GET /builds/{build_id}] reports a
    finished job and changes nothing, whatever the build services do. *)
Theorem cancel_build_is_final (create_service : BuildServices.Factory)
    (build_id : uuid) (user : User.t) (now : Z) (db db1 : Models.Db)
    (response : BuildsApi.CancelResponse)
    (Hcancel : BuildsApi.cancel_build create_service build_id user now db
               = (db1, Ok response)) :
  forall create_service' now',
    (BuildsApi.cancel_build create_service' build_id user now' db1
     = (db1, Ok (BuildsApi.mkCancelResponse "Build is already completed" None
                   (BuildsApi.status response))))
    /\ BuildsApi.status response
       ∈ [BuildStatus.SUCCESS; BuildStatus.FAILED; BuildStatus.CANCELLED]
    /\ exists job,
         BuildJob.status job = BuildsApi.status response
         /\ BuildsApi.get_build_status create_service' build_id user now' db1
            = (db1, Ok (BuildsApi.mkBuildJobResponse job
                          (Tag.name <$> Models.tag_by_id db1
                                          (BuildJob.tag_id job)))).
Proof.
  intros create_service' now'. unfold BuildsApi.cancel_build in Hcancel.
  destruct (Models.owned_build_job db build_id _) as [job|] eqn:Hjob; [|done].
  case_bool_decide as Hdone.
  - injection Hcancel as <- <-. cbn [BuildsApi.status].
    split; [|split; [done|]].
    + unfold BuildsApi.cancel_build. rewrite Hjob.
      by rewrite bool_decide_eq_true_2.
    + exists job. split; [done|]. apply get_build_status_quiet; [done|].
      rewrite terminal_not_pollable; [apply andb_false_r|].
      unfold BuildsApi.terminal. by rewrite bool_decide_eq_true_2.
  - cbv zeta in Hcancel. injection Hcancel as <- <-. cbn [BuildsApi.status].
    match goal with
    | |- context [Models.update_rows _ _ ?f _] => set (g := f) in *
    end.
    assert (Models.owned_build_job
              (Models.with_build_jobs db
                 (Models.update_rows BuildJob.id (BuildJob.id job) g
                    (Models.build_jobs db)))
              build_id (User.id user) = Some (g job)) as Hjob'.
    { apply owned_build_job_update; [|done].
      intros r. subst g. simpl. by case_match. }
    assert (BuildJob.status (g job) = BuildStatus.CANCELLED) as Hst
      by (subst g; simpl; by case_match).
    split; [|split].
    + unfold BuildsApi.cancel_build. rewrite Hjob', Hst. done.
    + do 2 right. left.
    + exists (g job). split; [done|]. apply get_build_status_quiet; [done|].
      rewrite Hst. apply andb_false_r.
Qed.

Lemma cancel_build_is_final_witness :
  exists response db1,
    BuildsApi.cancel_build Sample.failing_service "build-1" (Sample.alice true)
      9 db1
    = (db1, Ok response)
    /\ BuildsApi.message response = "Build is already completed".
Proof.
  destruct (BuildsApi.cancel_build Sample.failing_service "build-1"
              (Sample.alice true) 5 (Sample.db true BuildStatus.RUNNING))
    as [db1 [response|e]] eqn:Hcancel; [|by vm_compute in Hcancel].
  eexists _, db1. split.
  - exact (proj1 (cancel_build_is_final Sample.failing_service "build-1"
                    (Sample.alice true) 5 (Sample.db true BuildStatus.RUNNING)
                    db1 response Hcancel Sample.failing_service 9)).
  - reflexivity.
Defined.

Section TriggerFacts.
Import Models BuildsApi Spec.

Lemma NoDup_fmap_list_filter {A B} (f : A -> B) (p : A -> bool) (l : list A) :
  NoDup (f <$> l) -> NoDup (f <$> List.filter p l).
Proof.
  induction l as [|x l IH]; [done|]. rewrite fmap_cons.
  intros Hnd. apply NoDup_cons in Hnd as [Hx Hnd]. simpl.
  destruct (p x); [|by apply IH]. rewrite fmap_cons.
  apply NoDup_cons. split; [|by apply IH].
  intros Hin. apply Hx. apply list_elem_of_fmap in Hin as (y & -> & Hy).
  apply filter_elem_of in Hy as [Hy _]. by apply list_elem_of_fmap_2.
Qed.

Lemma trigger_one_fields service request names now new_id tag :
  let job := trigger_one service request names now new_id tag in
  BuildJob.id job = new_id
  /\ BuildJob.task_id job = task_id request
  /\ BuildJob.iteration_id job = iteration_id request
  /\ BuildJob.tag_id job = Tag.id tag
  /\ BuildJob.build_service job = build_service request
  /\ BuildJob.created_at job = now
  /\ BuildJob.completed_at job = None.
Proof. cbn zeta. unfold trigger_one. by case_match. Qed.

Lemma trigger_one_failing service request names now new_id tag :
  (forall project branch name params,
     exists e, BuildServices.trigger_build service project branch name params
               = Raise e) ->
  let job := trigger_one service request names now new_id tag in
  BuildJob.status job = BuildStatus.FAILED
  /\ BuildJob.external_build_id job = None
  /\ BuildJob.build_url job = None.
Proof.
  intros Hfail. cbn zeta. unfold trigger_one.
  destruct names as [[project branch]|e]; cbn [mbind result_bind]; [|done].
  by destruct (Hfail project branch (Tag.name tag)
                 (default [] (build_parameters request))) as [e ->].
Qed.
End TriggerFacts.

(** X25.  An accepted [POST /builds/trigger] records exactly one build
    job per requested tag.  When tag ids are unique and the request is
    answered with jobs, the requested tag ids are pairwise distinct, the
    jobs' tag ids are the requested ids (each once), every job belongs to
    the task, iteration and build service of the request, and the jobs are
    appended to the table, nothing else being changed.  A build service
    whose every trigger call raises does not fail the request: each job is
    then recorded as failed, without external build id or URL. *)
Theorem trigger_builds_one_job_per_tag (create_service : BuildServices.Factory)
    (request : BuildsApi.BuildTriggerRequest) (user : User.t)
    (new_ids : nat -> uuid) (now : Z) (db db1 : Models.Db)
    (jobs : list BuildJob.t)
    (Hpk : Spec.tags_primary_key db)
    (Hcall : BuildsApi.trigger_builds create_service request user new_ids now
               db = (db1, Ok jobs)) :
  db1 = Models.with_build_jobs db (Models.build_jobs db ++ jobs)
  /\ NoDup (BuildsApi.tag_ids request)
  /\ BuildJob.tag_id <$> jobs ≡ₚ BuildsApi.tag_ids request
  /\ Forall (fun job =>
               BuildJob.task_id job = BuildsApi.task_id request
               /\ BuildJob.iteration_id job = BuildsApi.iteration_id request
               /\ BuildJob.build_service job = BuildsApi.build_service request
               /\ BuildJob.created_at job = now
               /\ BuildJob.completed_at job = None) jobs
  /\ ((forall config service,
         create_service (BuildsApi.build_service request) config = Ok service
         -> forall project branch name params,
              exists e, BuildServices.trigger_build service project branch
                          name params = Raise e) ->
      Forall (fun job =>
                BuildJob.status job = BuildStatus.FAILED
                /\ BuildJob.external_build_id job = None
                /\ BuildJob.build_url job = None) jobs).
Proof.
  unfold BuildsApi.trigger_builds in Hcall.
  destruct (Models.owned_task db _ _) as [task|]; [|done].
  destruct (negb _); [done|].
  destruct (List.find _ (Models.iterations db)); [|done].
  destruct (Models.active_build_service db _) as [config|]; [|done].
  cbv zeta in Hcall.
  match type of Hcall with
  | context [length (List.filter ?p _)] => set (pred := p) in *
  end.
  set (tags := List.filter pred (Models.tags db)) in *.
  destruct (Nat.eqb_spec (length tags) (length (BuildsApi.tag_ids request)))
    as [Hlen|]; [|done]. cbn [negb] in Hcall.
  destruct (create_service _ _) as [service|] eqn:Hservice; [|done].
  injection Hcall as <- <-.
  assert (BuildJob.tag_id
            <$> imap (fun i tag =>
                        BuildsApi.trigger_one service request
                          (BuildsApi.task_names db task) now (new_ids i) tag)
                     tags
          = Tag.id <$> tags) as Hids.
  { rewrite fmap_imap. rewrite <- (imap_const Tag.id).
    apply imap_ext. intros i tag _. simpl.
    apply trigger_one_fields. }
  assert (Tag.id <$> tags ≡ₚ BuildsApi.tag_ids request) as Hperm.
  { apply submseteq_length_Permutation.
    - apply NoDup_submseteq.
      + by apply NoDup_fmap_list_filter.
      + intros i Hi. apply list_elem_of_fmap in Hi as (tag & -> & Htag).
        apply filter_elem_of in Htag as [_ Htag]. subst pred. simpl in Htag.
        apply andb_true_iff in Htag as [Htag _].
        apply andb_true_iff in Htag as [Htag _].
        by apply bool_decide_eq_true in Htag.
    - rewrite length_fmap. lia. }
  split; [done|]. split.
  { rewrite <- Hperm. by apply NoDup_fmap_list_filter. }
  split; [by rewrite Hids|]. split.
  - apply Forall_forall. intros job Hjob.
    apply list_elem_of_lookup in Hjob as [i Hjob].
    rewrite list_lookup_imap in Hjob.
    destruct (tags !! i) as [tag|]; [|done]. injection Hjob as <-.
    destruct (trigger_one_fields service request
                (BuildsApi.task_names db task) now (new_ids i) tag)
      as (_ & ? & ? & _ & ? & ? & ?). done.
  - intros Hfail. apply Forall_forall. intros job Hjob.
    apply list_elem_of_lookup in Hjob as [i Hjob].
    rewrite list_lookup_imap in Hjob.
    destruct (tags !! i) as [tag|]; [|done]. injection Hjob as <-.
    apply trigger_one_failing. by eapply Hfail.
Qed.

Lemma trigger_builds_one_job_per_tag_witness :
  exists db1 jobs,
    BuildsApi.trigger_builds Sample.failing_service
      (BuildsApi.mkBuildTriggerRequest "task-1" "iteration-1" ["3"; "7"]
         "jenkins" None)
      (Sample.alice true) (fun i => pretty i) 4
      (Models.with_iterations (Sample.db true BuildStatus.PENDING)
         [TaskIteration.mk "iteration-1" "task-1" 1 0 24 [] None None])
    = (db1, Ok jobs)
    /\ BuildJob.tag_id <$> jobs ≡ₚ ["3"; "7"].
Proof.
  destruct (BuildsApi.trigger_builds Sample.failing_service
              (BuildsApi.mkBuildTriggerRequest "task-1" "iteration-1"
                 ["3"; "7"] "jenkins" None)
              (Sample.alice true) (fun i => pretty i) 4
              (Models.with_iterations (Sample.db true BuildStatus.PENDING)
                 [TaskIteration.mk "iteration-1" "task-1" 1 0 24 [] None
                                   None]))
    as [db1 [jobs|e]] eqn:Hcall; [|by vm_compute in Hcall].
  exists db1, jobs. split; [reflexivity|].
  refine (proj1 (proj2 (proj2 (trigger_builds_one_job_per_tag _ _ _ _ _ _
                                 db1 jobs _ Hcall)))).
  by apply (bool_decide_unpack _).
Defined.

(** ** The task routes *)

Section CandidatesFacts.
Import Models TasksApi BinarySearch Spec.

Lemma find_app_None {A} (f : A -> bool) (l l' : list A) :
  List.find f l = None -> List.find f (l ++ l') = List.find f l'.
Proof.
  induction l as [|x l IH]; [done|]. simpl. by destruct (f x).
Qed.

Lemma find_is_Some {A} (f : A -> bool) (l : list A) x :
  x ∈ l -> f x = true -> exists y, List.find f l = Some y.
Proof.
  induction l as [|z l IH]; intros Hin Hf; [by apply elem_of_nil in Hin|].
  simpl. destruct (f z) eqn:Hz; [eauto|].
  apply elem_of_cons in Hin as [->|Hin]; [congruence|]. by apply IH.
Qed.

Lemma candidate_responses_loop (tags0 : list Tag.t)
    (cs : list SearchCandidate.t) : forall acc,
  Forall (fun c => exists tag, tag ∈ tags0
                     /\ Tag.id tag = TagInfo.id (SearchCandidate.tag c)) cs ->
  exists rs,
    for_in cs
      (fun candidate acc =>
         r ← candidate_response tags0 candidate; mret (Next (acc ++ [r])))
      acc
    = Ok (acc ++ rs)
    /\ Forall2 (fun c r =>
                  position r = SearchCandidate.position c
                  /\ selected r = false
                  /\ tag r ∈ tags0
                  /\ Tag.id (tag r) = TagInfo.id (SearchCandidate.tag c))
               cs rs.
Proof.
  induction cs as [|c cs IH]; intros acc Hall.
  - exists []. rewrite app_nil_r. split; [done|constructor].
  - apply Forall_cons in Hall as [(tag0 & Hin & Hid) Hall].
    destruct (find_is_Some
                (fun tag => bool_decide
                              (Tag.id tag
                               = TagInfo.id (SearchCandidate.tag c)))
                tags0 tag0 Hin) as [found Hfound];
      [by apply bool_decide_eq_true|].
    destruct (IH (acc ++ [mkBinarySearchCandidate
                            (SearchCandidate.position c) found false]) Hall)
      as (rs & Hloop & Hrs).
    exists (mkBinarySearchCandidate (SearchCandidate.position c) found false
            :: rs).
    rewrite for_in_cons. unfold candidate_response at 1. rewrite Hfound.
    cbn [mbind result_bind mret result_ret]. rewrite Hloop, <- app_assoc.
    split; [done|]. constructor; [|done]. simpl.
    apply find_elem_of in Hfound as [Hf Hfid].
    apply bool_decide_eq_true in Hfid. done.
Qed.

(** The candidates endpoint on the full range of at least three tags. *)
Lemma candidates_step_full (tags0 : list Tag.t) (task : LocalizationTask.t)
    (now : Z) (db : Db) :
  NoDup (Tag.id <$> tags0) -> 3 <= Z.of_nat (length tags0) ->
  exists response,
    candidates_step tags0 task (Some 0) (Some (Z.of_nat (length tags0) - 1))
      now db
    = (db, Ok response)
    /\ iteration_number response = LocalizationTask.current_iteration task + 1
    /\ current_range response = (0, Z.of_nat (length tags0) - 1)
    /\ total_tags response = Z.of_nat (length tags0)
    /\ TasksApi.is_complete response = false
    /\ problematic_tag response = None
    /\ Z.of_nat (length (candidates response))
       = Z.min 10 (Z.of_nat (length tags0) - 2)
    /\ StronglySorted Z.lt (position <$> candidates response)
    /\ Forall (fun c =>
                 0 < position c < Z.of_nat (length tags0) - 1
                 /\ selected c = false
                 /\ py_getitem
                      (sort_by (fun x => seq_or_0 (Tag.sequence_number x))
                               tags0) (position c)
                    = Ok (tag c))
              (candidates response).
Proof.
  intros Hnd Hlen. unfold candidates_step.
  set (n := Z.of_nat (length tags0)) in *.
  unfold BinarySearch.is_complete.
  destruct (Z.eqb_spec (n - 1 - 0) 1); [lia|].
  set (sorted := sort_by (fun x => seq_or_0 (Tag.sequence_number x)) tags0).
  assert (sorted ≡ₚ tags0) as Hperm by apply sort_by_perm.
  assert (Z.of_nat (length sorted) = n) as Hsorted_len by (by rewrite Hperm).
  destruct (generate_candidates_cases (init tags0) 0 (n - 1))
    as [[Hle _]|[(_ & _ & i & Hi & Hna)|(_ & cs & -> & Hcount & Hincr & Hcs)]].
  { lia. }
  { destruct Hna. unfold addressable. cbn [tags init].
    fold sorted. lia. }
  cbn [mbind result_bind].
  destruct (candidate_responses_loop tags0 cs []) as (rs & -> & Hrs).
  { eapply Forall_impl; [exact Hcs|]. cbn beta.
    intros c (Hpos & tag0 & Hget & Htag & _).
    cbn [tags init] in Hget. fold sorted in Hget.
    apply py_getitem_nonneg in Hget; [|lia].
    exists tag0. split; [|by rewrite Htag].
    rewrite <- Hperm. by eapply list_elem_of_lookup_2. }
  cbn [mbind result_bind mret result_ret app]. eexists. split; [done|].
  cbn [iteration_number current_range total_tags TasksApi.is_complete
       problematic_tag
       candidates].
  assert (position <$> rs = SearchCandidate.position <$> cs) as Hpositions.
  { clear -Hrs. induction Hrs as [|c r cs rs (Hp & _) _ IH]; [done|].
    by rewrite !fmap_cons, Hp, IH. }
  repeat split; try done.
  - rewrite <- (length_fmap position rs), Hpositions, length_fmap, Hcount.
    f_equal. lia.
  - by rewrite Hpositions.
  - apply Forall_forall. intros r Hr.
    apply list_elem_of_lookup in Hr as [k Hr].
    destruct (Forall2_lookup_r _ _ _ _ _ Hrs Hr)
      as (c & Hc & Hp & Hsel & Hin & Hid).
    rewrite Forall_forall in Hcs.
    destruct (Hcs c (list_elem_of_lookup_2 _ _ _ Hc))
      as (Hpos & tag0 & Hget & Htag & _).
    cbn [tags init] in Hget. fold sorted in Hget.
    rewrite Hp. split; [lia|]. split; [done|]. rewrite Hget. f_equal.
    apply (NoDup_fmap_eq Tag.id tags0); [done| |done|].
    + apply py_getitem_nonneg in Hget; [|lia].
      rewrite <- Hperm. by eapply list_elem_of_lookup_2.
    + rewrite Hid, Htag. done.
Qed.
End CandidatesFacts.

Section CreateThenCandidates.
Import Models TasksApi BinarySearch Spec.

Lemma sort_by_ascending_id {A} (key : A -> Z) (l : list A) :
  StronglySorted Z.le (key <$> l) -> sort_by key l = l.
Proof.
  induction l as [|x l IH]; [done|].
  rewrite fmap_cons. intros Hs. apply StronglySorted_inv in Hs as [Hs Hx].
  unfold sort_by in *. simpl. rewrite IH by done.
  apply insert_by_head. by rewrite Forall_fmap in Hx.
Qed.

Lemma sort_by_idempotent {A} (key : A -> Z) (l : list A) :
  sort_by key (sort_by key l) = sort_by key l.
Proof. apply sort_by_ascending_id, sort_by_ascending. Qed.

Lemma find_None_intro {A} (f : A -> bool) (l : list A) :
  Forall (fun x => f x = false) l -> List.find f l = None.
Proof.
  induction 1 as [|x l Hx _ IH]; [done|]. simpl. by rewrite Hx.
Qed.

Lemma tag_by_name_elem_of db n p b tag :
  tag_by_name db n p b = Some tag -> tag ∈ Models.tags db.
Proof. intros H. by apply find_elem_of in H as [? _]. Qed.
End CreateThenCandidates.

(** X26.  A task just created can be searched.  Let [POST /tasks/] succeed
    with a fresh task id in a database whose tag ids are unique and whose
    sessions belong to stored tasks, and let [total] be the number of tags
    it stored for the range.  If [total] is below 3 -- the good and the bad
    tag are neighbours -- every [GET /tasks/{id}/candidates] for the new
    task is refused with 400 "Not enough tags in range for binary search".
    Otherwise the first such call succeeds and changes nothing: it reports
    iteration 1, the range [(0, total - 1)], [total] tags, no completion,
    and [min(10, total - 2)] candidates at strictly increasing positions
    strictly inside the range, each carrying the tag at its position in
    the range's tags ordered by sequence number. *)
Theorem created_task_gets_candidates (task_data : TasksApi.TaskCreate)
    (user : User.t) (new_task_id new_session_id other_session_id : uuid)
    (now now' : Z) (db db1 : Models.Db) (task : LocalizationTask.t)
    (Hpk : Spec.tags_primary_key db)
    (Hrefs : Spec.task_refs_ok db)
    (Hfresh : new_task_id ∉ LocalizationTask.id <$> Models.tasks db)
    (Hcreate : TasksApi.create_task task_data user new_task_id new_session_id
                 now db = (db1, Ok task)) :
  exists good bad total,
    Models.tag_by_name db (TasksApi.good_tag_name task_data)
      (TasksApi.tc_project_id task_data) (TasksApi.tc_branch_id task_data)
    = Some good
    /\ Models.tag_by_name db (TasksApi.bad_tag_name task_data)
         (TasksApi.tc_project_id task_data) (TasksApi.tc_branch_id task_data)
       = Some bad
    /\ LocalizationTask.total_tags_in_range task = Some total
    /\ (total < 3 ->
        TasksApi.get_binary_search_candidates new_task_id user
          other_session_id now' db1
        = (db1, Raise (TasksApi.bad_request
                         "Not enough tags in range for binary search")))
    /\ (3 <= total ->
        exists response,
          TasksApi.get_binary_search_candidates new_task_id user
            other_session_id now' db1
          = (db1, Ok response)
          /\ TasksApi.iteration_number response = 1
          /\ TasksApi.current_range response = (0, total - 1)
          /\ TasksApi.total_tags response = total
          /\ TasksApi.is_complete response = false
          /\ TasksApi.problematic_tag response = None
          /\ Z.of_nat (length (TasksApi.candidates response))
             = Z.min 10 (total - 2)
          /\ StronglySorted Z.lt
               (TasksApi.position <$> TasksApi.candidates response)
          /\ Forall
               (fun c =>
                  0 < TasksApi.position c < total - 1
                  /\ TasksApi.selected c = false
                  /\ py_getitem
                       (BinarySearch.sort_by
                          (fun x =>
                             BinarySearch.seq_or_0 (Tag.sequence_number x))
                          (Models.tags_in_range db
                             (TasksApi.tc_project_id task_data)
                             (TasksApi.tc_branch_id task_data)
                             (Tag.sequence_number good)
                             (Tag.sequence_number bad)))
                       (TasksApi.position c)
                     = Ok (TasksApi.tag c))
               (TasksApi.candidates response)).
Proof.
  unfold TasksApi.create_task in Hcreate.
  destruct (Models.owned_project db _ _) as [project|]; [|done].
  destruct (Models.branch_of_project db _ _) as [branch|]; [|done].
  cbv zeta in Hcreate.
  destruct (Models.tag_by_name db (TasksApi.good_tag_name task_data) _ _)
    as [good|] eqn:Hgood; [|done].
  destruct (Models.tag_by_name db (TasksApi.bad_tag_name task_data) _ _)
    as [bad|] eqn:Hbad; [|done].
  destruct (_ <=? _); [done|].
  destruct (Models.ordering_bound (Tag.sequence_number good)) as [lo|] eqn:Hlo;
    [|done].
  destruct (Models.ordering_bound (Tag.sequence_number bad)) as [hi|] eqn:Hhi;
    [|done].
  unfold Models.insert_task in Hcreate.
  destruct (LocalizationTask.check_different_tags _); [|done].
  set (range_tags :=
         Models.tags_in_range db (TasksApi.tc_project_id task_data)
           (TasksApi.tc_branch_id task_data) (Tag.sequence_number good)
           (Tag.sequence_number bad)) in *.
  set (total := Z.of_nat (length range_tags)) in *.
  injection Hcreate as <- <-.
  exists good, bad, total. split; [done|]. split; [done|]. split; [done|].
  match goal with
  | |- context [Models.with_tasks db (_ ++ [?t])] => set (task := t) in *
  end.
  match goal with
  | |- context [TasksApi.get_binary_search_candidates _ _ _ _ ?d] =>
      set (db1 := d)
  end.
  set (sorted :=
         BinarySearch.sort_by
           (fun x => BinarySearch.seq_or_0 (Tag.sequence_number x))
           range_tags).
  assert (Z.of_nat (length sorted) = total) as Hlen.
  { subst sorted total. by rewrite sort_by_perm. }
  assert (NoDup (Tag.id <$> sorted)) as Hnd.
  { subst sorted. rewrite sort_by_perm. subst range_tags.
    by apply NoDup_fmap_list_filter. }
  assert (Models.owned_task db1 new_task_id (User.id user) = Some task)
    as Htask.
  { unfold Models.owned_task. subst db1.
    cbn [Models.tasks Models.insert_session Models.with_sessions
         Models.with_tasks].
    rewrite find_app_None.
    - simpl. by rewrite !bool_decide_eq_true_2.
    - apply find_None_intro, Forall_forall. intros t Ht.
      rewrite bool_decide_eq_false_2; [done|].
      intros Hid. apply Hfresh. rewrite <- Hid.
      by apply list_elem_of_fmap_2. }
  assert (forall tag, tag ∈ Models.tags db ->
            Models.tag_by_id db1 (Tag.id tag) = Some tag) as Htag.
  { intros tag Hin. unfold Models.tag_by_id. subst db1.
    cbn [Models.tags Models.insert_session Models.with_sessions
         Models.with_tasks].
    by apply (find_unique Tag.id). }
  assert (exists session,
            Models.session_of_task db1 new_task_id = Some session
            /\ TaskSession.current_range_start session = Some 0
            /\ TaskSession.current_range_end session = Some (total - 1))
    as (session & Hsession & Hstart & Hend).
  { unfold Models.session_of_task. subst db1.
    cbn [Models.sessions Models.insert_session Models.with_sessions
         Models.with_tasks].
    rewrite find_app_None.
    - simpl. rewrite bool_decide_eq_true_2 by done. eexists. done.
    - apply find_None_intro.
      destruct Hrefs as (_ & Hsessions & _). cbv zeta in Hsessions.
      eapply Forall_impl; [exact Hsessions|]. cbn beta. intros s Hs.
      rewrite bool_decide_eq_false_2; [done|]. congruence. }
  assert (forall (A : Type) (x y : A),
            (if Z.of_nat (length sorted) <? 3 then x else y)
            = if total <? 3 then x else y) as Hif by (by rewrite Hlen).
  split.
  - intros Hfew. unfold TasksApi.get_binary_search_candidates.
    rewrite Htask. cbn [LocalizationTask.status task].
    rewrite bool_decide_eq_true_2 by done. cbn [negb].
    cbn [LocalizationTask.good_tag_id LocalizationTask.bad_tag_id task].
    rewrite !Htag by (by eapply tag_by_name_elem_of).
    rewrite Hlo, Hhi. cbv zeta.
    change (Models.tags_in_range db1) with (Models.tags_in_range db).
    cbn [LocalizationTask.project_id LocalizationTask.branch_id task].
    fold range_tags. fold sorted. rewrite Hif.
    destruct (Z.ltb_spec total 3); [done|lia].
  - intros Hmany.
    destruct (candidates_step_full sorted task now' db1 Hnd ltac:(lia))
      as (response & Hstep & Hresponse).
    exists response. split.
    + unfold TasksApi.get_binary_search_candidates.
      rewrite Htask. cbn [LocalizationTask.status task].
      rewrite bool_decide_eq_true_2 by done. cbn [negb].
      cbn [LocalizationTask.good_tag_id LocalizationTask.bad_tag_id task].
      rewrite !Htag by (by eapply tag_by_name_elem_of).
      rewrite Hlo, Hhi. cbv zeta.
      change (Models.tags_in_range db1) with (Models.tags_in_range db).
      cbn [LocalizationTask.project_id LocalizationTask.branch_id task].
      fold range_tags. fold sorted. rewrite Hif.
      destruct (Z.ltb_spec total 3); [lia|].
      rewrite Hsession, Hstart, Hend, <- Hlen. exact Hstep.
    + rewrite Hlen in Hresponse. subst sorted.
      rewrite sort_by_idempotent in Hresponse. exact Hresponse.
Qed.

Lemma created_task_gets_candidates_witness :
  exists db1 response,
    TasksApi.get_binary_search_candidates "task-2" (Sample.alice true) "s9" 7
      db1
    = (db1, Ok response)
    /\ Z.of_nat (length (TasksApi.candidates response)) = 10.
Proof.
  destruct (TasksApi.create_task
              (TasksApi.mkTaskCreate "second" None "project-1" "branch-1"
                                     "v3" "v20")
              (Sample.alice true) "task-2" "session-2" 5
              (Models.with_build_jobs (Sample.db true BuildStatus.PENDING) []))
    as [db1 [task|e]] eqn:Hcreate; [|by vm_compute in Hcreate].
  destruct (created_task_gets_candidates
              (TasksApi.mkTaskCreate "second" None "project-1" "branch-1"
                                     "v3" "v20")
              (Sample.alice true) "task-2" "session-2" "s9" 5 7
              (Models.with_build_jobs (Sample.db true BuildStatus.PENDING) [])
              db1 task)
    as (good & bad & total & _ & _ & Htotal & _ & Hmany).
  { by apply (bool_decide_unpack _). }
  { unfold Spec.task_refs_ok. simpl. repeat split; repeat constructor. }
  { by apply (bool_decide_unpack _). }
  { exact Hcreate. }
  assert (total = 18) as ->.
  { vm_compute in Hcreate. injection Hcreate as _ <-.
    by injection Htotal as <-. }
  destruct (Hmany ltac:(lia)) as (response & Hcall & _ & _ & _ & _ & _ & Hn & _).
  exists db1, response. split; [exact Hcall | exact Hn].
Defined.

Section PauseResume.
Import Models TasksApi BuildsApi Spec.

Lemma owned_task_update db task_id user task now f :
  (forall r, LocalizationTask.id (f r) = LocalizationTask.id r
             /\ LocalizationTask.user_id (f r) = LocalizationTask.user_id r) ->
  owned_task db task_id user = Some task ->
  owned_task (update_task_row (LocalizationTask.id task) now f db) task_id user
  = Some (LocalizationTask.with_updated_at now (f task)).
Proof.
  intros Hf Htask. unfold owned_task, update_task_row, update_rows in *.
  cbn [tasks with_tasks]. rewrite find_fmap_stable.
  - rewrite Htask. cbn. by rewrite bool_decide_eq_true_2.
  - intros r. cbn beta.
    destruct (bool_decide (LocalizationTask.id r = LocalizationTask.id task));
      [|done].
    cbn. by destruct (Hf r) as [-> ->].
Qed.

Lemma update_rows_twice {R} (key : R -> uuid) (pk : uuid) (f g : R -> R)
    (rows : list R) :
  (forall r, key (f r) = key r) ->
  update_rows key pk g (update_rows key pk f rows)
  = update_rows key pk (fun r => g (f r)) rows.
Proof.
  intros Hf. unfold update_rows. rewrite <- list_fmap_compose.
  apply list_fmap_ext. intros i r _. simpl.
  destruct (decide (key r = pk)) as [Hr|Hr].
  - rewrite (bool_decide_eq_true_2 (key r = pk)) by done.
    by rewrite bool_decide_eq_true_2 by (by rewrite Hf).
  - rewrite (bool_decide_eq_false_2 (key r = pk)) by done.
    by rewrite bool_decide_eq_false_2.
Qed.
End PauseResume.

(** X27.  Pausing and resuming.  After [PUT /tasks/{id}/pause] has
    succeeded for a task (task ids being unique), the candidates, the
    selection and the build-trigger routes and a second pause all refuse
    the task with 400 "Task is not active" and change nothing; and
    [PUT /tasks/{id}/resume] succeeds and brings the database back to
    what it was before the pause, except for the task's [updated_at]. *)
Theorem pause_then_resume (task_id : uuid) (user : User.t) (now now' : Z)
    (db db1 : Models.Db) (msg : string)
    (Hpk : Spec.tasks_primary_key db)
    (Hpause : TasksApi.pause_task task_id user now db = (db1, Ok msg)) :
  (forall session_id t,
     TasksApi.get_binary_search_candidates task_id user session_id t db1
     = (db1, Raise (TasksApi.bad_request "Task is not active")))
  /\ (forall selection iteration_id t,
        TasksApi.select_candidates_for_testing task_id selection user
          iteration_id t db1
        = (db1, Raise (TasksApi.bad_request "Task is not active")))
  /\ (forall create_service request new_ids t,
        BuildsApi.task_id request = task_id ->
        BuildsApi.trigger_builds create_service request user new_ids t db1
        = (db1, Raise (BuildsApi.bad_request "Task is not active")))
  /\ (forall t,
        TasksApi.pause_task task_id user t db1
        = (db1, Raise (TasksApi.bad_request "Task is not active")))
  /\ TasksApi.resume_task task_id user now' db1
     = (Models.update_task_row task_id now' (fun r => r) db,
        Ok "Task resumed successfully").
Proof.
  unfold TasksApi.pause_task in Hpause.
  destruct (Models.owned_task db task_id _) as [task|] eqn:Htask; [|done].
  case_bool_decide as Hactive; [|done]. cbn [negb] in Hpause.
  injection Hpause as <- _.
  pose proof (owned_task_update db task_id (User.id user) task now
                (LocalizationTask.with_status TaskStatus.PAUSED)
                ltac:(done) Htask) as Htask'.
  destruct (owned_task_elem_of _ _ _ _ Htask) as (Hin & Hid & _).
  split; [|split; [|split; [|split]]].
  - intros session_id t. unfold TasksApi.get_binary_search_candidates.
    by rewrite Htask'.
  - intros selection iteration_id t.
    unfold TasksApi.select_candidates_for_testing. by rewrite Htask'.
  - intros create_service request new_ids t Hreq.
    unfold BuildsApi.trigger_builds. by rewrite Hreq, Htask'.
  - intros t. unfold TasksApi.pause_task. by rewrite Htask'.
  - unfold TasksApi.resume_task. rewrite Htask'. cbn. f_equal.
    unfold Models.update_task_row. cbn [Models.tasks Models.with_tasks].
    rewrite update_rows_twice by done.
    unfold Models.with_tasks. cbn. f_equal. rewrite Hid.
    unfold Models.update_rows. apply list_fmap_ext. intros i r Hr. simpl.
    case_bool_decide as Hrid; [|done].
    assert (r = task) as ->.
    { apply (NoDup_fmap_eq LocalizationTask.id (Models.tasks db));
        [done| |done|congruence].
      by eapply list_elem_of_lookup_2. }
    destruct task. simpl in *. by rewrite Hactive.
Qed.

Lemma pause_then_resume_witness :
  exists db1,
    TasksApi.resume_task "task-1" (Sample.alice true) 9 db1
    = (Models.update_task_row "task-1" 9 (fun r => r)
         (Sample.db true BuildStatus.PENDING),
       Ok "Task resumed successfully").
Proof.
  destruct (TasksApi.pause_task "task-1" (Sample.alice true) 8
              (Sample.db true BuildStatus.PENDING))
    as [db1 [msg|e]] eqn:Hpause; [|by vm_compute in Hpause].
  exists db1.
  refine (proj2 (proj2 (proj2 (proj2
            (pause_then_resume "task-1" (Sample.alice true) 8 9
               (Sample.db true BuildStatus.PENDING) db1 msg _ Hpause))))).
  by apply (bool_decide_unpack _).
Defined.

(** ** The project routes *)

(** X28.  A project is created once.  After [POST /projects/] has
    succeeded with fresh project and branch ids, the same user creating a
    project of the same name and repository URL again is refused with 400
    and nothing changes; the new project is found as a project of its
    creator and of nobody else, and its default branch is found under
    it. *)
Theorem create_project_once (project_data : ProjectsApi.ProjectCreate)
    (user : User.t) (new_project_id new_branch_id : uuid)
    (db db1 : Models.Db) (project : Project.t)
    (Hproject : new_project_id ∉ Project.id <$> Models.projects db)
    (Hbranch : new_branch_id ∉ Branch.id <$> Models.branches db)
    (Hcreate : ProjectsApi.create_project project_data user new_project_id
                 new_branch_id db = (db1, Ok project)) :
  (forall project_id branch_id,
     ProjectsApi.create_project project_data user project_id branch_id db1
     = (db1, Raise (ProjectsApi.bad_request
                      "Project with this name and repository URL already exists")))
  /\ Models.owned_project db1 new_project_id (User.id user) = Some project
  /\ (forall other, other <> User.id user ->
        Models.owned_project db1 new_project_id other = None)
  /\ Models.branch_of_project db1 new_branch_id new_project_id
     = Some (Branch.mk new_branch_id new_project_id
                       (ProjectsApi.default_branch project_data)).
Proof.
  unfold ProjectsApi.create_project in Hcreate.
  destruct (List.find _ (Models.projects db)) as [existing|] eqn:Hfind;
    [done|].
  cbv zeta in Hcreate. injection Hcreate as <- <-.
  assert (forall user', List.find
            (fun p => bool_decide (Project.id p = new_project_id)
                      && bool_decide (Project.created_by p = user'))
            (Models.projects db) = None) as Hnone.
  { intros user'. apply find_None_intro, Forall_forall. intros p Hp.
    rewrite bool_decide_eq_false_2; [done|].
    intros Hid. apply Hproject. rewrite <- Hid. by apply list_elem_of_fmap_2. }
  split; [|split; [|split]].
  - intros project_id branch_id. unfold ProjectsApi.create_project.
    cbn [Models.projects Models.with_branches Models.with_projects].
    rewrite find_app_None by done. simpl.
    by rewrite !bool_decide_eq_true_2.
  - unfold Models.owned_project.
    cbn [Models.projects Models.with_branches Models.with_projects].
    rewrite find_app_None by apply Hnone. simpl.
    by rewrite !bool_decide_eq_true_2.
  - intros other Hother. unfold Models.owned_project.
    cbn [Models.projects Models.with_branches Models.with_projects].
    rewrite find_app_None by apply Hnone. simpl.
    rewrite bool_decide_eq_true_2 by done.
    by rewrite bool_decide_eq_false_2.
  - unfold Models.branch_of_project.
    cbn [Models.branches Models.with_branches Models.with_projects].
    rewrite find_app_None.
    + simpl. by rewrite !bool_decide_eq_true_2.
    + apply find_None_intro, Forall_forall. intros b Hb.
      rewrite bool_decide_eq_false_2; [done|].
      intros Hid. apply Hbranch. rewrite <- Hid.
      by apply list_elem_of_fmap_2.
Qed.

Lemma create_project_once_witness :
  exists db1,
    ProjectsApi.create_project
      (ProjectsApi.mkProjectCreate "other" "http://git/other" "git" "main")
      (Sample.alice true) "project-3" "branch-3" db1
    = (db1, Raise (ProjectsApi.bad_request
                     "Project with this name and repository URL already exists")).
Proof.
  destruct (ProjectsApi.create_project
              (ProjectsApi.mkProjectCreate "other" "http://git/other" "git"
                                           "main")
              (Sample.alice true) "project-2" "branch-2"
              (Sample.db true BuildStatus.PENDING))
    as [db1 [project|e]] eqn:Hcreate; [|by vm_compute in Hcreate].
  exists db1.
  refine (proj1 (create_project_once _ _ "project-2" "branch-2"
                   (Sample.db true BuildStatus.PENDING) db1 project _ _
                   Hcreate) "project-3" "branch-3");
    by apply (bool_decide_unpack _).
Defined.

Section ImportFacts.
Import Models ProjectsApi Spec.
Variables (project_id branch_id : uuid) (new_ids : nat -> uuid) (db : Db).

Lemma known_tag_find (tag_data : TagData) :
  match List.find
          (fun tag => bool_decide (Tag.project_id tag = project_id)
                      && bool_decide (Tag.branch_id tag = branch_id)
                      && bool_decide (Some (Tag.name tag) = td_name tag_data))
          (tags db) with
  | Some _ => known_tag db project_id branch_id tag_data
  | None => ~ known_tag db project_id branch_id tag_data
  end.
Proof.
  unfold known_tag. destruct (List.find _ _) as [tag|] eqn:Hfind.
  - apply find_elem_of in Hfind as [Hin Hf].
    apply andb_true_iff in Hf as [Hf H3]. apply andb_true_iff in Hf as [H1 H2].
    apply bool_decide_eq_true in H1, H2, H3.
    apply Exists_exists. by exists tag.
  - intros Hex. apply Exists_exists in Hex as (tag & Hin & H1 & H2 & H3).
    apply find_None_Forall in Hfind. rewrite Forall_forall in Hfind.
    specialize (Hfind tag Hin).
    by rewrite !bool_decide_eq_true_2 in Hfind.
Qed.

Lemma import_fold (items : list (nat * TagData)) : forall new_tags imp skip,
  exists added,
    foldl (import_one project_id branch_id new_ids db) (new_tags, imp, skip)
          items
    = (new_tags ++ added,
       imp + Z.of_nat (length added),
       skip + Z.of_nat
                (length (filter (known_tag db project_id branch_id)
                                items.*2)))
    /\ length added
       = length (filter (fun d => ~ known_tag db project_id branch_id d)
                        items.*2)
    /\ Forall (fun tag => Tag.project_id tag = project_id
                          /\ Tag.branch_id tag = branch_id
                          /\ is_Some (Tag.sequence_number tag)) added
    /\ Forall (fun d =>
                 forall n, td_name d = Some n ->
                   known_tag db project_id branch_id d
                   \/ exists tag, tag ∈ added
                                  /\ Tag.project_id tag = project_id
                                  /\ Tag.branch_id tag = branch_id
                                  /\ Tag.name tag = n) items.*2.
Proof.
  induction items as [|[i d] items IH]; intros new_tags imp skip.
  - exists []. simpl. rewrite app_nil_r, !Z.add_0_r.
    split; [done|]. split; [done|]. split; constructor.
  - cbn [foldl]. unfold import_one at 2.
    pose proof (known_tag_find d) as Hknown.
    destruct (List.find _ _) as [existing|].
    + destruct (IH new_tags imp (skip + 1))
        as (added & -> & Hlen & Hadded & Hnames).
      exists added. rewrite !fmap_cons. cbn [snd].
      rewrite filter_cons_True, filter_cons_False by tauto.
      split; [|split; [done|split; [done|]]].
      * cbn [length]. f_equal. lia.
      * constructor; [|done]. intros n _. by left.
    + match goal with
      | |- context [foldl _ (new_tags ++ [?t], _, _) _] => set (tag := t)
      end.
      destruct (IH (new_tags ++ [tag]) (imp + 1) skip)
        as (added & -> & Hlen & Hadded & Hnames).
      exists (tag :: added). rewrite !fmap_cons. cbn [snd].
      rewrite filter_cons_False, filter_cons_True by done.
      split; [|split; [|split]].
      * rewrite <- app_assoc. cbn [length app]. f_equal. f_equal. lia.
      * cbn [length]. by rewrite Hlen.
      * constructor; [|done]. subst tag. simpl. repeat split. by eexists.
      * constructor.
        -- intros n Hn. right. exists tag. split; [left|].
           subst tag. simpl. by rewrite Hn.
        -- eapply Forall_impl; [exact Hnames|]. cbn beta.
           intros d' Hd' n Hn. destruct (Hd' n Hn) as [?|(t & Ht & ?)];
             [by left|].
           right. exists t. split; [by right|done].
Qed.

Lemma length_filter_split {A} (P : A -> Prop) `{!forall x, Decision (P x)}
    (l : list A) :
  (length (filter P l) + length (filter (fun x => ~ P x) l) = length l)%nat.
Proof.
  induction l as [|x l IH]; [done|]. rewrite !filter_cons.
  destruct (decide (P x)), (decide (~ P x)); simpl; try tauto; lia.
Qed.

Lemma imap_pair_snd {A} (l : list A) : (imap pair l).*2 = l.
Proof.
  rewrite fmap_imap. rewrite <- (list_fmap_id l) at 2.
  rewrite <- imap_const. by apply imap_ext.
Qed.
End ImportFacts.

(** X29.  What [POST .../tags/import] counts.  When the import is
    answered, [total_processed] is the number of entries, [skipped_count]
    the number of entries whose name is already the name of a tag of the
    project and branch, [imported_count] the number of the others; the
    tags table grows by exactly [imported_count] rows at its end, each of
    the project and branch, and nothing else changes. *)
Theorem import_tags_counts (project_id branch_id : uuid)
    (tags_data : list ProjectsApi.TagData) (user : User.t)
    (new_ids : nat -> uuid) (db db1 : Models.Db)
    (response : ProjectsApi.ImportResponse)
    (Himport : ProjectsApi.import_tags project_id branch_id tags_data user
                 new_ids db = (db1, Ok response)) :
  ProjectsApi.total_processed response = Z.of_nat (length tags_data)
  /\ ProjectsApi.skipped_count response
     = Z.of_nat (length (filter (Spec.known_tag db project_id branch_id)
                                tags_data))
  /\ ProjectsApi.imported_count response
     = Z.of_nat
         (length (filter (fun d => ~ Spec.known_tag db project_id branch_id d)
                         tags_data))
  /\ ProjectsApi.imported_count response + ProjectsApi.skipped_count response
     = ProjectsApi.total_processed response
  /\ exists new_tags,
       db1 = Models.with_tags db (Models.tags db ++ new_tags)
       /\ Z.of_nat (length new_tags) = ProjectsApi.imported_count response
       /\ Forall (fun tag => Tag.project_id tag = project_id
                             /\ Tag.branch_id tag = branch_id) new_tags.
Proof.
  unfold ProjectsApi.import_tags in Himport.
  destruct (Models.owned_project db _ _); [|done].
  destruct (Models.branch_of_project db _ _); [|done].
  destruct (import_fold project_id branch_id new_ids db (imap pair tags_data)
              [] 0 0) as (added & Hfold & Hlen & Hadded & _).
  rewrite Hfold in Himport. rewrite imap_pair_snd in Hlen, Himport.
  injection Himport as <- <-.
  cbn [ProjectsApi.total_processed ProjectsApi.skipped_count
       ProjectsApi.imported_count app].
  split; [done|]. split; [lia|]. split; [lia|]. split.
  - rewrite Hlen.
    pose proof (length_filter_split
                  (Spec.known_tag db project_id branch_id) tags_data).
    lia.
  - exists added. split; [done|]. split; [lia|].
    eapply Forall_impl; [exact Hadded|]. cbn beta. tauto.
Qed.

Lemma import_tags_counts_witness :
  exists db1 response,
    ProjectsApi.import_tags "project-1" "branch-1"
      [ProjectsApi.mkTagData (Some "v3") None None None None None;
       ProjectsApi.mkTagData (Some "v25") None (Some 25) None None None]
      (Sample.alice true) (fun i => ("new-" ++ pretty i)%string)
      (Sample.db true BuildStatus.PENDING)
    = (db1, Ok response)
    /\ ProjectsApi.imported_count response + ProjectsApi.skipped_count response
       = 2.
Proof.
  destruct (ProjectsApi.import_tags "project-1" "branch-1"
              [ProjectsApi.mkTagData (Some "v3") None None None None None;
               ProjectsApi.mkTagData (Some "v25") None (Some 25) None None
                                     None]
              (Sample.alice true) (fun i => ("new-" ++ pretty i)%string)
              (Sample.db true BuildStatus.PENDING))
    as [db1 [response|e]] eqn:Himport; [|by vm_compute in Himport].
  exists db1, response. split; [reflexivity|].
  destruct (import_tags_counts _ _ _ _ _ _ db1 response Himport)
    as (Htotal & _ & _ & Hsum & _).
  rewrite Hsum, Htotal. reflexivity.
Defined.

(** X30.  Importing the same tags again adds nothing.  After an import
    whose entries all carry a name has been answered, repeating it (with
    whatever new ids) is answered with [imported_count] 0 and every entry
    skipped, and leaves the database as it is. *)
Theorem import_tags_again (project_id branch_id : uuid)
    (tags_data : list ProjectsApi.TagData) (user : User.t)
    (new_ids new_ids' : nat -> uuid) (db db1 : Models.Db)
    (response : ProjectsApi.ImportResponse)
    (Hnamed : Forall (fun d => is_Some (ProjectsApi.td_name d)) tags_data)
    (Himport : ProjectsApi.import_tags project_id branch_id tags_data user
                 new_ids db = (db1, Ok response)) :
  ProjectsApi.import_tags project_id branch_id tags_data user new_ids' db1
  = (db1, Ok (ProjectsApi.mkImportResponse "Tags imported successfully" 0
                (Z.of_nat (length tags_data))
                (Z.of_nat (length tags_data)))).
Proof.
  unfold ProjectsApi.import_tags in Himport |- *.
  destruct (Models.owned_project db _ _) as [project|] eqn:Hproject; [|done].
  destruct (Models.branch_of_project db _ _) as [branch|] eqn:Hbranch;
    [|done].
  destruct (import_fold project_id branch_id new_ids db (imap pair tags_data)
              [] 0 0) as (added & Hfold & _ & _ & Hnames).
  rewrite Hfold in Himport. rewrite imap_pair_snd in Hnames.
  injection Himport as <- _. cbn [app].
  change (Models.owned_project (Models.with_tags db _))
    with (Models.owned_project db).
  change (Models.branch_of_project (Models.with_tags db _))
    with (Models.branch_of_project db).
  rewrite Hproject, Hbranch.
  set (db1 := Models.with_tags db (Models.tags db ++ added)).
  assert (Forall (Spec.known_tag db1 project_id branch_id) tags_data)
    as Hknown.
  { apply Forall_forall. intros d Hd.
    rewrite Forall_forall in Hnamed, Hnames.
    destruct (Hnamed d Hd) as [n Hn].
    unfold Spec.known_tag. subst db1. cbn [Models.tags Models.with_tags].
    apply Exists_app.
    destruct (Hnames d Hd n Hn) as [?|(tag & Hin & ? & ? & Hname)];
      [by left|right].
    apply Exists_exists. exists tag. rewrite Hname. done. }
  destruct (import_fold project_id branch_id new_ids' db1
              (imap pair tags_data) [] 0 0) as (added' & -> & Hlen & _).
  rewrite imap_pair_snd in *.
  assert (filter (Spec.known_tag db1 project_id branch_id) tags_data
          = tags_data) as ->.
  { clear -Hknown. induction Hknown as [|d l Hd _ IH]; [done|].
    by rewrite filter_cons_True, IH. }
  assert (added' = []) as ->.
  { apply length_zero_iff_nil. rewrite Hlen.
    clear -Hknown. induction Hknown as [|d l Hd _ IH]; [done|].
    by rewrite filter_cons_False by tauto. }
  cbn [app length]. rewrite app_nil_r. done.
Qed.

Lemma import_tags_again_witness :
  exists db1,
    ProjectsApi.import_tags "project-1" "branch-1"
      [ProjectsApi.mkTagData (Some "v3") None None None None None;
       ProjectsApi.mkTagData (Some "v25") None (Some 25) None None None]
      (Sample.alice true) (fun i => ("again-" ++ pretty i)%string) db1
    = (db1, Ok (ProjectsApi.mkImportResponse "Tags imported successfully"
                  0 2 2)).
Proof.
  destruct (ProjectsApi.import_tags "project-1" "branch-1"
              [ProjectsApi.mkTagData (Some "v3") None None None None None;
               ProjectsApi.mkTagData (Some "v25") None (Some 25) None None
                                     None]
              (Sample.alice true) (fun i => ("new-" ++ pretty i)%string)
              (Sample.db true BuildStatus.PENDING))
    as [db1 [response|e]] eqn:Himport; [|by vm_compute in Himport].
  exists db1.
  refine (import_tags_again _ _ _ _ _ _ _ db1 response _ Himport).
  repeat constructor; by eexists.
Defined.
